(** * illogical-updots: process orchestration and repository status

    A shallow embedding of [core/git_utils.py] and [utils/process.py] and
    the properties stated about them.

    Conventions of the embedding.
    - A Python [str] is a Rocq [string]; a character stands for the code
      point of the same number (0..255).  The builtins used by the source
      ([str.strip], [str.splitlines], [int], [repr], [shlex.quote]) are
      written out for that range.
    - A Python [int] is a [Z].
    - [Optional[T]] is [option T].
    - Everything the source asks the operating system (is this a directory,
      what does this git command answer, does this [Popen] start) is an
      explicit argument of the embedded function, and what the function
      does to the outside (lines passed to a callback, bytes written to a
      descriptor, commands started) is part of its result. *)

From Stdlib Require Import String Ascii ZArith NArith List Bool Lia.
From Stdlib Require Import DecimalString DecimalPos DecimalZ.
Import ListNotations.

Local Open Scope string_scope.
Local Open Scope list_scope.
Local Open Scope Z_scope.

(** The line feed character and the one-character string ["\n"]. *)
Definition LF : ascii := "010"%char.
Definition nl : string := String LF EmptyString.

(* ================================================================== *)
(** ** Python builtins on [str] *)
(* ================================================================== *)

Module Py.

(** Truth value of a [str]: empty strings are false. *)
Definition truthy (s : string) : bool :=
  match s with EmptyString => false | String _ _ => true end.

(** [a or b] on strings. *)
Definition str_or (a b : string) : string := if truthy a then a else b.

(** Truth value of an [Optional[str]]: [None] and the empty string are false. *)
Definition truthy_opt (o : option string) : bool :=
  match o with None => false | Some s => truthy s end.

(** [str.isspace] on one character, code points below 256:
    U+0009..U+000D, U+001C..U+0020, U+0085, U+00A0. *)
Definition isspace (c : ascii) : bool :=
  let n := N_of_ascii c in
  (((9 <=? n) && (n <=? 13)) || ((28 <=? n) && (n <=? 32))
   || (n =? 133) || (n =? 160))%N.

Fixpoint lstrip (s : string) : string :=
  match s with
  | EmptyString => EmptyString
  | String c r => if isspace c then lstrip r else s
  end.

Fixpoint rstrip (s : string) : string :=
  match s with
  | EmptyString => EmptyString
  | String c r =>
      match rstrip r with
      | EmptyString => if isspace c then EmptyString else String c EmptyString
      | r' => String c r'
      end
  end.

(** [s.strip()] *)
Definition strip (s : string) : string := rstrip (lstrip s).

(** Line boundaries of [str.splitlines], code points below 256:
    LF, VT, FF, CR, FS, GS, RS, NEL (and CR LF as one boundary). *)
Definition islinebreak (c : ascii) : bool :=
  let n := N_of_ascii c in
  (((10 <=? n) && (n <=? 13)) || ((28 <=? n) && (n <=? 30)) || (n =? 133))%N.

Definition is_cr (c : ascii) : bool := (N_of_ascii c =? 13)%N.
Definition is_lf (c : ascii) : bool := (N_of_ascii c =? 10)%N.

(** [splitlines_from cur s]: [cur] is the line being collected. *)
Fixpoint splitlines_from (cur : string) (s : string) : list string :=
  match s with
  | EmptyString =>
      match cur with EmptyString => [] | _ => [cur] end
  | String c r =>
      if islinebreak c then
        cur ::
          (if is_cr c then
             match r with
             | String c' r' =>
                 if is_lf c' then splitlines_from EmptyString r'
                 else splitlines_from EmptyString r
             | EmptyString => splitlines_from EmptyString r
             end
           else splitlines_from EmptyString r)
      else splitlines_from (cur ++ String c EmptyString)%string r
  end.

(** [s.splitlines()] *)
Definition splitlines (s : string) : list string :=
  splitlines_from EmptyString s.

(** Value of a decimal digit, [None] for any other character. *)
Definition digit_of (c : ascii) : option Z :=
  let n := N_of_ascii c in
  if ((48 <=? n) && (n <=? 57))%N then Some (Z.of_N (n - 48)) else None.

Definition is_underscore (c : ascii) : bool := (N_of_ascii c =? 95)%N.
Definition is_plus (c : ascii) : bool := (N_of_ascii c =? 43)%N.
Definition is_minus (c : ascii) : bool := (N_of_ascii c =? 45)%N.

(** Digits of an integer literal: at least one digit, single underscores
    allowed between digits only.  [prev] tells whether the previous
    character was a digit. *)
Fixpoint int_digits (s : string) (acc : Z) (prev : bool) : option Z :=
  match s with
  | EmptyString => if prev then Some acc else None
  | String c r =>
      if is_underscore c then
        if prev then int_digits r acc false else None
      else
        match digit_of c with
        | Some d => int_digits r (10 * acc + d) true
        | None => None
        end
  end.

(** [int(s.strip())] in base ten, which is how the counts printed by git
    are read; [None] stands for [ValueError].  (The interpreter's
    configurable cap on the length of a literal is not part of this one;
    [int_of_str] below has it.) *)
Definition int (s : string) : option Z :=
  match strip s with
  | EmptyString => None
  | String c r =>
      if is_plus c then int_digits r 0 false
      else if is_minus c then option_map Z.opp (int_digits r 0 false)
      else int_digits (String c r) 0 false
  end.

(** The white space [int()] itself skips around a literal, code points
    below 256: U+0009..U+000D, U+0020, U+0085, U+00A0.  Unlike
    [str.strip] it does not skip U+001C..U+001F. *)
Definition int_isspace (c : ascii) : bool :=
  let n := N_of_ascii c in
  (((9 <=? n) && (n <=? 13)) || (n =? 32) || (n =? 133) || (n =? 160))%N.

Fixpoint int_lstrip (s : string) : string :=
  match s with
  | EmptyString => EmptyString
  | String c r => if int_isspace c then int_lstrip r else s
  end.

Fixpoint int_rstrip (s : string) : string :=
  match s with
  | EmptyString => EmptyString
  | String c r =>
      match int_rstrip r with
      | EmptyString => if int_isspace c then EmptyString else String c EmptyString
      | r' => String c r'
      end
  end.

(** The digits of a literal, its underscores not counted. *)
Fixpoint count_digits (s : string) : Z :=
  match s with
  | EmptyString => 0
  | String c r =>
      match digit_of c with
      | Some _ => 1 + count_digits r
      | None => count_digits r
      end
  end.

(** [sys.get_int_max_str_digits()] as the interpreter starts. *)
Definition INT_MAX_STR_DIGITS : Z := 4300.

(** [int(s)] for any [str], in base ten; [None] stands for [ValueError]:
    the literal with the white space [int()] skips around it, refused
    when it has more than [INT_MAX_STR_DIGITS] digits. *)
Definition int_of_str (s : string) : option Z :=
  match int_rstrip (int_lstrip s) with
  | EmptyString => None
  | String c r =>
      let digits := if is_plus c || is_minus c then r else String c r in
      if INT_MAX_STR_DIGITS <? count_digits digits then None
      else if is_plus c then int_digits r 0 false
      else if is_minus c then option_map Z.opp (int_digits r 0 false)
      else int_digits (String c r) 0 false
  end.

(** [str(n)] for an [int]. *)
Definition str_of_int (n : Z) : string :=
  NilZero.string_of_int (Z.to_int n).

(** [sep.join(l)] *)
Fixpoint join (sep : string) (l : list string) : string :=
  match l with
  | [] => EmptyString
  | [x] => x
  | x :: rest => (x ++ sep ++ join sep rest)%string
  end.

(** [l or []] for an optional list. *)
Definition or_empty {A} (l : option (list A)) : list A :=
  match l with Some x => x | None => [] end.

(** [len(l)] *)
Definition len {A} (l : list A) : Z := Z.of_nat (length l).

(** [repr(s)] for a [str], code points below 256.  The single quote is
    the delimiter unless the string has a single quote and no double
    quote. *)
Definition SQUOTE : ascii := "039"%char.
Definition DQUOTE : ascii := "034"%char.
Definition BACKSLASH : ascii := "092"%char.

Fixpoint contains_char (q : ascii) (s : string) : bool :=
  match s with
  | EmptyString => false
  | String c r => if Ascii.eqb c q then true else contains_char q r
  end.

Definition hex_digit (n : N) : ascii :=
  match String.get (N.to_nat n) "0123456789abcdef" with
  | Some c => c
  | None => "0"%char
  end.

(** Printable characters: U+0020..U+007E and U+00A1..U+00FF without the
    soft hyphen U+00AD. *)
Definition isprintable (c : ascii) : bool :=
  let n := N_of_ascii c in
  (((32 <=? n) && (n <=? 126))
   || ((161 <=? n) && negb (n =? 173)))%N.

Definition repr_char (quote : ascii) (c : ascii) : string :=
  let n := N_of_ascii c in
  if Ascii.eqb c quote || Ascii.eqb c BACKSLASH then
    String BACKSLASH (String c EmptyString)
  else if (n =? 9)%N then String BACKSLASH "t"
  else if (n =? 10)%N then String BACKSLASH "n"
  else if (n =? 13)%N then String BACKSLASH "r"
  else if isprintable c then String c EmptyString
  else String BACKSLASH
         (String "x" (String (hex_digit (n / 16)) (String (hex_digit (n mod 16)) EmptyString))).

Fixpoint repr_body (quote : ascii) (s : string) : string :=
  match s with
  | EmptyString => EmptyString
  | String c r => (repr_char quote c ++ repr_body quote r)%string
  end.

Definition repr (s : string) : string :=
  let quote :=
    if contains_char SQUOTE s && negb (contains_char DQUOTE s)
    then DQUOTE else SQUOTE in
  String quote (repr_body quote s ++ String quote EmptyString)%string.

(** [s.encode("utf-8", "replace")], code points below 256: one byte
    below 128, two bytes from there on. *)
Definition byte_of_N (n : N) : Byte.byte := byte_of_ascii (ascii_of_N n).

Definition encode_char (c : ascii) : list Byte.byte :=
  let n := N_of_ascii c in
  if (n <? 128)%N then [byte_of_N n]
  else [byte_of_N (192 + n / 64); byte_of_N (128 + n mod 64)].

Fixpoint encode (s : string) : list Byte.byte :=
  match s with
  | EmptyString => []
  | String c r => encode_char c ++ encode r
  end.

(** The value of a sequence of decimal digits read after the number
    [acc]. *)
Fixpoint uint_value (d : Decimal.uint) (acc : Z) : Z :=
  match d with
  | Decimal.Nil => acc
  | Decimal.D0 l => uint_value l (10 * acc + 0)
  | Decimal.D1 l => uint_value l (10 * acc + 1)
  | Decimal.D2 l => uint_value l (10 * acc + 2)
  | Decimal.D3 l => uint_value l (10 * acc + 3)
  | Decimal.D4 l => uint_value l (10 * acc + 4)
  | Decimal.D5 l => uint_value l (10 * acc + 5)
  | Decimal.D6 l => uint_value l (10 * acc + 6)
  | Decimal.D7 l => uint_value l (10 * acc + 7)
  | Decimal.D8 l => uint_value l (10 * acc + 8)
  | Decimal.D9 l => uint_value l (10 * acc + 9)
  end.

(** No character of the string is a space. *)
Fixpoint no_space (s : string) : bool :=
  match s with
  | EmptyString => true
  | String c r => negb (isspace c) && no_space r
  end.

End Py.

(* ================================================================== *)
(** ** core/git_utils.py *)
(* ================================================================== *)

Module Git.

(** The dataclass [RepoStatus], fields in declaration order. *)
Record RepoStatus : Type := mkRepoStatus {
  ok : bool;
  repo_path : string;
  branch : option string;
  upstream : option string;
  behind : Z;
  ahead : Z;
  dirty : Z;
  fetch_error : option string;
  error : option string
}.

(** [RepoStatus(ok=..., repo_path=...)]: the two required fields, every
    other field at the default the dataclass declares. *)
Definition RepoStatus_init (ok0 : bool) (path : string) : RepoStatus :=
  {| ok := ok0; repo_path := path;
     branch := None; upstream := None;
     behind := 0; ahead := 0; dirty := 0;
     fetch_error := None; error := None |}.

Definition set_error (e : string) (s : RepoStatus) : RepoStatus :=
  {| ok := ok s; repo_path := repo_path s; branch := branch s;
     upstream := upstream s; behind := behind s; ahead := ahead s;
     dirty := dirty s; fetch_error := fetch_error s; error := Some e |}.

(** The property [has_updates]: [self.ok and self.behind > 0]. *)
Definition has_updates (s : RepoStatus) : bool :=
  if ok s then 0 <? behind s else false.

(** What [subprocess.run] does: a completed process, or an exception
    (executable missing, timeout, ...) with its message. *)
Inductive run_outcome : Type :=
| Completed (returncode : Z) (stdout stderr : string)
| RunRaised (exc : string).

(** [os.path.join(a, b)] on POSIX. *)
Definition ends_with_slash (a : string) : bool :=
  match String.get (Nat.pred (String.length a)) a with
  | Some c => (N_of_ascii c =? 47)%N
  | None => false
  end.

Definition starts_with_slash (b : string) : bool :=
  match b with
  | String c _ => (N_of_ascii c =? 47)%N
  | EmptyString => false
  end.

Definition path_join (a b : string) : string :=
  if starts_with_slash b then b
  else if negb (Py.truthy a) || ends_with_slash a then (a ++ b)%string
  else (a ++ "/" ++ b)%string.

Section Checker.

(** The file system and the repository as the commands see them. *)
Variable World : Type.
(** [os.path.isdir] *)
Variable isdir : string -> World -> bool.
(** [subprocess.run(argv, cwd=cwd, ...)]: answer and new state. *)
Variable subprocess_run : list string -> string -> World -> run_outcome * World.

(** Computations that run commands. *)
Definition M (A : Type) : Type := World -> A * World.
Definition ret {A} (a : A) : M A := fun w => (a, w).
Definition bind {A B} (m : M A) (k : A -> M B) : M B :=
  fun w => let (a, w') := m w in k a w'.

Notation "x <- m ;; k" := (bind m (fun x => k))
  (at level 100, m at next level, right associativity).
Notation "' p <- m ;; k" := (bind m (fun x => let 'p := x in k))
  (at level 100, p pattern, m at next level, right associativity).

(** [run_git]: never raises; an exception becomes the triple of 1, the
    empty string and [str(exc)]. *)
Definition run_git (args : list string) (cwd : string) : M (Z * string * string) :=
  fun w =>
    let (r, w') := subprocess_run ("git" :: args) cwd w in
    match r with
    | Completed rc out err => ((rc, out, err), w')
    | RunRaised exc => ((1, EmptyString, exc), w')
    end.

Definition get_branch (cwd : string) : M (option string) :=
  '(rc, out, _) <- run_git ["rev-parse"; "--abbrev-ref"; "HEAD"] cwd ;;
  ret (if rc =? 0 then Some (Py.strip out) else None).

Definition get_upstream (cwd : string) (branch0 : option string) : M (option string) :=
  '(rc, out, _) <-
     run_git ["rev-parse"; "--abbrev-ref"; "--symbolic-full-name"; "@{u}"] cwd ;;
  ret (if rc =? 0 then Some (Py.strip out)
       else match branch0 with
            | Some b => if Py.truthy b then Some ("origin/" ++ b)%string else None
            | None => None
            end).

Definition get_dirty_count (cwd : string) : M Z :=
  '(rc, out, _) <- run_git ["status"; "--porcelain"] cwd ;;
  ret (if negb (rc =? 0) then 0
       else Py.len (filter (fun ln => Py.truthy (Py.strip ln)) (Py.splitlines out))).

(** [int(s.strip() or "0")], [s] being [out] or else the empty string,
    under [try ... except ValueError], whose handler assigns 0. *)
Definition parse_count (out : string) : Z :=
  match Py.int (Py.str_or (Py.strip (Py.str_or out EmptyString)) "0") with
  | Some n => n
  | None => 0
  end.

Definition check_repo_status (path : string) : M RepoStatus :=
  fun w =>
  if negb (isdir path w) then
    (set_error "Repository path not found" (RepoStatus_init false path), w)
  else if negb (isdir (path_join path ".git") w) then
    (set_error "Not a git repository" (RepoStatus_init false path), w)
  else
    ('(rc, _out, err) <- run_git ["fetch"; "--all"; "--prune"] path ;;
     let fetch_error0 :=
       if negb (rc =? 0) then Some (Py.strip (Py.str_or err "fetch failed"))
       else None in
     branch0 <- get_branch path ;;
     upstream0 <- get_upstream path branch0 ;;
     '(behind0, ahead0) <-
        match upstream0 with
        | Some up =>
            if Py.truthy up then
              '(rc_b, out_b, _) <-
                 run_git ["rev-list"; "--count"; ("HEAD.." ++ up)%string] path ;;
              let behind1 := if rc_b =? 0 then parse_count out_b else 0 in
              '(rc_a, out_a, _) <-
                 run_git ["rev-list"; "--count"; (up ++ "..HEAD")%string] path ;;
              let ahead1 := if rc_a =? 0 then parse_count out_a else 0 in
              ret (behind1, ahead1)
            else ret (0, 0)
        | None => ret (0, 0)
        end ;;
     dirty0 <- get_dirty_count path ;;
     ret {| ok := true; repo_path := path;
            branch := branch0; upstream := upstream0;
            behind := behind0; ahead := ahead0; dirty := dirty0;
            fetch_error := fetch_error0; error := None |}) w.

(** The count a range query returns, as the specification words it:
    the number printed, and 0 when the query fails or prints something
    that is not a number. *)
Definition range_count (r : Z * string * string) : Z :=
  let '(rc, out, _) := r in
  if rc =? 0 then
    match Py.int out with
    | Some n => n
    | None => 0
    end
  else 0.

(** Step 6 of the specified algorithm: with an upstream, two
    independent range queries; without one, both counts are 0. *)
Definition range_counts (path : string) (up : option string) : M (Z * Z) :=
  match up with
  | Some u =>
      if Py.truthy u then
        rb <- run_git ["rev-list"; "--count"; ("HEAD.." ++ u)%string] path ;;
        ra <- run_git ["rev-list"; "--count"; (u ++ "..HEAD")%string] path ;;
        ret (range_count rb, range_count ra)
      else ret (0, 0)
  | None => ret (0, 0)
  end.

End Checker.

(** The fetch failed: a non-zero exit status, or an exception. *)
Definition fetch_failed (r : run_outcome) : Prop :=
  match r with
  | Completed rc _ _ => rc <> 0
  | RunRaised _ => True
  end.

(** The text of the failure: standard error, or the exception's message. *)
Definition failure_text (r : run_outcome) : string :=
  match r with
  | Completed _ _ err => err
  | RunRaised exc => exc
  end.

End Git.

(** A small scripted world for concrete runs: the directories that
    exist, the answer of each git command, and the commands run so far. *)
Module SampleRepo.

Record World : Type := mkWorld {
  dirs : list string;
  answers : list (list string * Git.run_outcome);
  ran : list (list string)
}.

Definition isdir (p : string) (w : World) : bool :=
  existsb (String.eqb p) (dirs w).

Fixpoint lookup (argv : list string) (l : list (list string * Git.run_outcome))
  : Git.run_outcome :=
  match l with
  | [] => Git.RunRaised "No such file or directory: 'git'"
  | (k, v) :: rest =>
      if list_eq_dec string_dec k argv then v else lookup argv rest
  end.

Definition subprocess_run (argv : list string) (cwd : string) (w : World)
  : Git.run_outcome * World :=
  (lookup argv (answers w),
   {| dirs := dirs w; answers := answers w; ran := ran w ++ [argv] |}).

(** A checkout two commits behind and one ahead of [origin/main], with
    one modified file, whose remote cannot be reached. *)
Definition offline : World :=
  {| dirs := ["/repo"; "/repo/.git"];
     answers :=
       [ (["git"; "fetch"; "--all"; "--prune"],
          Git.Completed 1 EmptyString ("fatal: unable to access remote" ++ nl));
         (["git"; "rev-parse"; "--abbrev-ref"; "HEAD"],
          Git.Completed 0 ("main" ++ nl) EmptyString);
         (["git"; "rev-parse"; "--abbrev-ref"; "--symbolic-full-name"; "@{u}"],
          Git.Completed 0 ("origin/main" ++ nl) EmptyString);
         (["git"; "rev-list"; "--count"; "HEAD..origin/main"],
          Git.Completed 0 ("2" ++ nl) EmptyString);
         (["git"; "rev-list"; "--count"; "origin/main..HEAD"],
          Git.Completed 0 ("1" ++ nl) EmptyString);
         (["git"; "status"; "--porcelain"],
          Git.Completed 0 (" M README.md" ++ nl) EmptyString) ];
     ran := [] |}.

(** A checkout of [main] without a tracking reference, three commits
    behind [origin/main]. *)
Definition no_tracking : World :=
  {| dirs := ["/repo"; "/repo/.git"];
     answers :=
       [ (["git"; "fetch"; "--all"; "--prune"],
          Git.Completed 0 EmptyString EmptyString);
         (["git"; "rev-parse"; "--abbrev-ref"; "HEAD"],
          Git.Completed 0 ("main" ++ nl) EmptyString);
         (["git"; "rev-parse"; "--abbrev-ref"; "--symbolic-full-name"; "@{u}"],
          Git.Completed 128 EmptyString ("fatal: no upstream configured" ++ nl));
         (["git"; "rev-list"; "--count"; "HEAD..origin/main"],
          Git.Completed 0 ("3" ++ nl) EmptyString);
         (["git"; "rev-list"; "--count"; "origin/main..HEAD"],
          Git.Completed 0 ("0" ++ nl) EmptyString);
         (["git"; "status"; "--porcelain"],
          Git.Completed 0 EmptyString EmptyString) ];
     ran := [] |}.

(** The same place without the metadata directory, and nothing at all. *)
Definition plain_dir : World :=
  {| dirs := ["/repo"]; answers := []; ran := [] |}.

Definition nothing : World :=
  {| dirs := []; answers := []; ran := [] |}.

Definition check (p : string) (w : World) : Git.RepoStatus * World :=
  Git.check_repo_status World isdir subprocess_run p w.

End SampleRepo.

(* ================================================================== *)
(** ** utils/process.py: the generic streaming runner *)
(* ================================================================== *)

Module Stream.

(** One call of [p.stdout.readline()]: a line, or an exception. *)
Inductive read_event (A : Type) : Type :=
| ReadLine (line : A)
| ReadRaises (ex : string).
Arguments ReadLine {A} line.
Arguments ReadRaises {A} ex.

(** A started child as the runner sees it: what the successive
    [readline] calls give (past the end of the list [readline] gives the
    empty line, end of file), and what [p.wait()] returns. *)
Record process (A : Type) : Type := mkProcess {
  stdout : list (read_event A);
  wait : Z
}.
Arguments stdout {A} p.
Arguments wait {A} p.
Arguments mkProcess {A} stdout wait.

(** What [subprocess.Popen(...)] does. *)
Inductive popen_outcome (A : Type) : Type :=
| Started (p : process A)
| PopenRaised (ex : string).
Arguments Started {A} p.
Arguments PopenRaised {A} ex.

Section Runner.

(** The type of a line: [str] when [text] is true, [bytes] otherwise. *)
Variable A : Type.
(** [not line] *)
Variable is_empty : A -> bool.
(** [line if text else line.decode(enc, "replace")] *)
Variable render : A -> string.

(** The [for line in iter(p.stdout.readline, sentinel)] loop, with the
    lines already handed to [on_line] in [delivered]. *)
Fixpoint read_loop (reads : list (read_event A)) (delivered : list string)
  : list string :=
  match reads with
  | [] => delivered
  | ReadLine line :: rest =>
      if is_empty line then delivered
      else read_loop rest (delivered ++ [render line])
  | ReadRaises ex :: _ =>
      delivered ++ [("[stream error] " ++ ex ++ nl)%string]
  end.

(** [stream_process_lines]: the lines passed to [on_line], in call
    order, and the returned exit code.  ([on_line] is taken to return
    normally; closing [p.stdout] has no visible effect, its exception
    being discarded.) *)
Definition stream_process_lines (po : popen_outcome A) : list string * Z :=
  match po with
  | PopenRaised ex =>
      ([("[error] failed to spawn: " ++ ex ++ nl)%string], 1)
  | Started p =>
      let delivered := read_loop (stdout p) [] in
      let rc := wait p in
      (delivered ++ [("[exit " ++ Py.str_of_int rc ++ "]" ++ nl)%string], rc)
  end.

(** The lines the process wrote and the runner read, in write order:
    everything up to the end of the stream or the first failing read. *)
Fixpoint lines_read (reads : list (read_event A)) : list A :=
  match reads with
  | ReadLine line :: rest =>
      if is_empty line then [] else line :: lines_read rest
  | _ => []
  end.

(** The diagnostic of a failing read, if the stream ended that way. *)
Fixpoint stream_error (reads : list (read_event A)) : list string :=
  match reads with
  | [] => []
  | ReadLine line :: rest =>
      if is_empty line then [] else stream_error rest
  | ReadRaises ex :: _ => [("[stream error] " ++ ex ++ nl)%string]
  end.

End Runner.

(** The sentinel line for exit code [rc]. *)
Definition exit_line (rc : Z) : string :=
  ("[exit " ++ Py.str_of_int rc ++ "]" ++ nl)%string.

(** The last line delivered is the sentinel line of the returned code. *)
Definition ends_with_exit_line (r : list string * Z) : Prop :=
  exists body, fst r = body ++ [exit_line (snd r)].

(** [text=True]: lines are [str]. *)
Definition stream_text : popen_outcome string -> list string * Z :=
  stream_process_lines string (fun s => negb (Py.truthy s)) (fun s => s).

End Stream.

(* ================================================================== *)
(** ** utils/process.py: the line reader of the pseudo-terminal *)
(* ================================================================== *)

Module PTY.

(** What [read(1)] on the text stream does once no arrived data is left:
    it waits while the other side holds the stream open; at the end of the
    stream it returns the empty string, or it raises [OSError].  The master
    side of a pseudo-terminal, which is what [PTYStdout] wraps, ends in the
    last way on Linux: after the other side has hung up the read fails with
    [EIO]. *)
Inductive stream_end : Type :=
| StillOpen
| EndOfFile
| HangUp (ex : string).

(** The text stream wrapped around the master side: the chunks that have
    arrived and were not read yet, one per write of the other side, and how
    the stream stands behind them. *)
Record text_stream : Type := mkStream {
  chunks : list string;
  ending : stream_end
}.

(** The stream has ended and its reads return the empty string. *)
Definition eof (stream : text_stream) : bool :=
  match ending stream with
  | EndOfFile => true
  | _ => false
  end.

(** [str(OSError(errno.EIO, os.strerror(errno.EIO)))] *)
Definition EIO_message : string := "[Errno 5] Input/output error".

(** Taking one character off the arrived data; [None] when there is none. *)
Fixpoint read1 (cs : list string) : option (ascii * list string) :=
  match cs with
  | [] => None
  | EmptyString :: r => read1 r
  | String c s :: r => Some (c, s :: r)
  end.

(** The object [PTYStdout]. *)
Record PTYStdout : Type := mkPTYStdout {
  _stream : text_stream;
  _buffer : string
}.

(** [PTYStdout(stream)] *)
Definition PTYStdout_init (stream : text_stream) : PTYStdout :=
  {| _stream := stream; _buffer := EmptyString |}.

(** ["\n" in s] *)
Fixpoint contains_nl (s : string) : bool :=
  match s with
  | EmptyString => false
  | String c r => if Ascii.eqb c LF then true else contains_nl r
  end.

(** [s.split("\n", 1)] for an [s] that contains a newline. *)
Fixpoint split_nl (s : string) : string * string :=
  match s with
  | EmptyString => (EmptyString, EmptyString)
  | String c r =>
      if Ascii.eqb c LF then (EmptyString, r)
      else let (a, b) := split_nl r in (String c a, b)
  end.

(** A call of [readline] returns a string, is still waiting in
    [self._stream.read(1)] for data that has not arrived, or ends with the
    exception that read raised ([readline] has no handler). *)
Inductive readline_result : Type :=
| Returns (line : string)
| Blocks
| Raises (ex : string).

(** The [while True] loop of [readline]; every turn takes one character,
    so [fuel] above the number of arrived characters is never used up. *)
Fixpoint readline_loop (fuel : nat) (self : PTYStdout)
  : option (readline_result * PTYStdout) :=
  match fuel with
  | O => None
  | S fuel' =>
      match read1 (chunks (_stream self)) with
      | None =>
          match ending (_stream self) with
          | EndOfFile =>
              (* chunk is empty *)
              if Py.truthy (_buffer self) then
                Some (Returns (_buffer self),
                      {| _stream := _stream self; _buffer := EmptyString |})
              else Some (Returns EmptyString, self)
          | StillOpen => Some (Blocks, self)
          | HangUp ex =>
              (* the read raises; [self._buffer] keeps what was collected *)
              Some (Raises ex, self)
          end
      | Some (c, cs') =>
          let stream' := {| chunks := cs'; ending := ending (_stream self) |} in
          let buffer' := (_buffer self ++ String c EmptyString)%string in
          if contains_nl buffer' then
            let (line, rest) := split_nl buffer' in
            Some (Returns (line ++ nl)%string,
                  {| _stream := stream'; _buffer := rest |})
          else
            readline_loop fuel' {| _stream := stream'; _buffer := buffer' |}
      end
  end.

(** Number of arrived characters. *)
Fixpoint pending (cs : list string) : nat :=
  match cs with
  | [] => O
  | c :: r => (String.length c + pending r)%nat
  end.

Definition readline (self : PTYStdout) : readline_result * PTYStdout :=
  match readline_loop (S (pending (chunks (_stream self)))) self with
  | Some r => r
  | None => (Blocks, self)
  end.

(** The other side writes a chunk, or the stream ends: with reads that
    return the empty string ([close]), or with reads that raise
    ([hang_up]). *)
Definition feed (chunk : string) (self : PTYStdout) : PTYStdout :=
  {| _stream := {| chunks := chunks (_stream self) ++ [chunk];
                   ending := ending (_stream self) |};
     _buffer := _buffer self |}.

Definition close (self : PTYStdout) : PTYStdout :=
  {| _stream := {| chunks := chunks (_stream self); ending := EndOfFile |};
     _buffer := _buffer self |}.

Definition hang_up (ex : string) (self : PTYStdout) : PTYStdout :=
  {| _stream := {| chunks := chunks (_stream self); ending := HangUp ex |};
     _buffer := _buffer self |}.

(** [n] calls of [readline] in a row, with their results. *)
Fixpoint readlines (n : nat) (self : PTYStdout)
  : list readline_result * PTYStdout :=
  match n with
  | O => ([], self)
  | S n' =>
      let (r, self') := readline self in
      let (rs, self'') := readlines n' self' in
      (r :: rs, self'')
  end.

(** All arrived data as one string. *)
Fixpoint flat (cs : list string) : string :=
  match cs with
  | [] => EmptyString
  | c :: r => (c ++ flat r)%string
  end.

(** The first line of a string, with its newline, and what follows it;
    [None] when the string has no newline. *)
Fixpoint first_line (s : string) : option (string * string) :=
  match s with
  | EmptyString => None
  | String c r =>
      if Ascii.eqb c LF then Some (nl, r)
      else match first_line r with
           | Some (l, rest) => Some (String c l, rest)
           | None => None
           end
  end.

(** What a call of [readline] does, told on the data as one string (what
    is buffered followed by what has arrived), whatever the chunks: it
    returns the first line with its newline and keeps the rest unread; with
    no newline in the data it hands out all of it when the stream has ended
    with an empty read (the empty string when nothing is left), it waits
    while the stream is open, and it raises when the read raises, all the
    data then being left in [self._buffer]. *)
Definition line_spec (self : PTYStdout) (r : readline_result) (self' : PTYStdout)
  : Prop :=
  let data := (_buffer self ++ flat (chunks (_stream self)))%string in
  ending (_stream self') = ending (_stream self) /\
  match first_line data with
  | Some (l, rest) =>
      r = Returns l /\
      (_buffer self' ++ flat (chunks (_stream self')))%string = rest
  | None =>
      flat (chunks (_stream self')) = EmptyString /\
      match ending (_stream self) with
      | EndOfFile => r = Returns data /\ _buffer self' = EmptyString
      | StillOpen => r = Blocks /\ _buffer self' = data
      | HangUp ex => r = Raises ex /\ _buffer self' = data
      end
  end.

(** The three writes of the scenario, and the reader when all three have
    arrived and the other side is still open. *)
Definition three_chunks : list string := ["ab"; ("c" ++ nl)%string; "d"].

Definition after_three_writes : PTYStdout :=
  PTYStdout_init {| chunks := three_chunks; ending := StillOpen |}.

(** A consumer of the reader: the loop over [iter(stdout.readline, s)]
    with the empty string as [s], which is how the streaming loops read a
    process; it stops at the first empty result, and when a call raises
    (and, here, when a call waits for data).  The result is the lines that
    were delivered and the reader as the loop left it.  [fuel] bounds the
    number of calls. *)
Fixpoint read_all (fuel : nat) (self : PTYStdout) : list string * PTYStdout :=
  match fuel with
  | O => ([], self)
  | S fuel' =>
      match readline self with
      | (Returns line, self') =>
          if Py.truthy line then
            let (lines, self'') := read_all fuel' self' in
            (line :: lines, self'')
          else ([], self')
      | (Blocks, self') => ([], self')
      | (Raises _, self') => ([], self')
      end
  end.

(** The string ends with a newline and has no other. *)
Definition is_full_line (l : string) : Prop :=
  exists pre, l = (pre ++ nl)%string /\ contains_nl pre = false.

(** A stream at its end that was written in the chunks of the scenario:
    one whose reads return the empty string at the end, and the master side
    of a pseudo-terminal after the process has gone. *)
Definition three_chunks_ended : PTYStdout :=
  PTYStdout_init {| chunks := three_chunks; ending := EndOfFile |}.

Definition three_chunks_hung_up : PTYStdout :=
  PTYStdout_init {| chunks := three_chunks; ending := HangUp EIO_message |}.

End PTY.

(* ================================================================== *)
(** ** utils/process.py: the installer process and its input feeder *)
(* ================================================================== *)

(** The process object [p] as the feeder and the callers use it: its
    command, the attribute [_pty_master_fd] when it was started on a
    pseudo-terminal, and [p.stdin] (the descriptor of the pipe) when it was
    started on pipes. *)
Record Popen : Type := mkPopen {
  args : list string;
  _pty_master_fd : option Z;
  stdin : option Z
}.

Module Feeder.

(** What the feeder thread has done so far. *)
Record state (World : Type) : Type := mkState {
  world : World;
  (** the [os.write] calls that returned, oldest first *)
  written : list (Z * list Byte.byte);
  (** the messages passed to [logger], oldest first *)
  logged : list string
}.
Arguments world {World} s.
Arguments written {World} s.
Arguments logged {World} s.
Arguments mkState {World} world written logged.

Definition yesforall : string := ("yesforall" ++ nl)%string.

Section Feed.

Variable World : Type.
(** [os.write(fd, data)]: [None] when it returns, the message of the
    exception when it raises. *)
Variable os_write : Z -> list Byte.byte -> World -> option string * World.
(** [pipe.closed] for the pipe of that descriptor. *)
Variable closed : Z -> World -> bool.
(** [time.sleep]: the given number of milliseconds pass, during which
    the other threads and the child run. *)
Variable sleep : Z -> World -> World.

Definition logger (msg : string) (st : state World) : state World :=
  {| world := world st; written := written st; logged := logged st ++ [msg] |}.

(** [os.write(master_fd_local, data)] when the master descriptor is
    there, else [os.write(pipe.fileno(), data)]; [fileno] raises
    [ValueError] on a closed file. *)
Definition write_to (master_fd_local pipe : option Z) (data : list Byte.byte)
  (w : World) : option (option string * World * Z) :=
  match master_fd_local with
  | Some fd => let (r, w') := os_write fd data w in Some (r, w', fd)
  | None =>
      match pipe with
      | Some pfd =>
          if closed pfd w then Some (Some "I/O operation on closed file", w, pfd)
          else let (r, w') := os_write pfd data w in Some (r, w', pfd)
      | None => None
      end
  end.

(** The [for item in auto_input_seq] loop of [_feed]. *)
Fixpoint feed_items (master_fd_local pipe : option Z) (items : list string)
  (st : state World) : state World :=
  match items with
  | [] => st
  | item :: rest =>
      let closed_now :=
        match master_fd_local with
        | Some _ => false
        | None =>
            match pipe with
            | None => true
            | Some pfd => closed pfd (world st)
            end
        end in
      if closed_now then
        logger ("[auto-input] stdin closed; stopping" ++ nl)%string st
      else
        match write_to master_fd_local pipe (Py.encode item) (world st) with
        | Some (None, w', fd) =>
            let st1 :=
              {| world := w';
                 written := written st ++ [(fd, Py.encode item)];
                 logged := logged st |} in
            let st2 := logger ("[auto-input] " ++ Py.repr item ++ nl)%string st1 in
            feed_items master_fd_local pipe rest
              {| world := sleep 250 (world st2);
                 written := written st2; logged := logged st2 |}
        | Some (Some ex, w', _) =>
            logger ("[auto-input-error] " ++ ex ++ nl)%string
              {| world := w'; written := written st; logged := logged st |}
        | None => st
        end
  end.

(** The final [try] block, shared by [_feed] and [_feed_yesforall]:
    write the sentinel line. *)
Definition send_yesforall (master_fd_local pipe : option Z)
  (st : state World) : state World :=
  match write_to master_fd_local pipe (Py.encode yesforall) (world st) with
  | Some (None, w', fd) =>
      logger ("[auto-input] " ++ Py.repr yesforall ++ nl)%string
        {| world := w';
           written := written st ++ [(fd, Py.encode yesforall)];
           logged := logged st |}
  | Some (Some ex, w', _) =>
      logger ("[auto-input-error] " ++ ex ++ nl)%string
        {| world := w'; written := written st; logged := logged st |}
  | None =>
      (* neither branch of the if/elif: nothing is written *)
      logger ("[auto-input] " ++ Py.repr yesforall ++ nl)%string st
  end.

(** [_feed], the thread started when [auto_input_seq] is not empty. *)
Definition _feed (p : Popen) (auto_input_seq : list string) (w : World)
  : state World :=
  let master_fd_local := _pty_master_fd p in
  let pipe := match master_fd_local with None => stdin p | Some _ => None end in
  let st0 := {| world := w; written := []; logged := [] |} in
  match master_fd_local, pipe with
  | None, None =>
      logger ("[auto-input] stdin unavailable; aborting auto sequence" ++ nl)%string st0
  | _, _ =>
      let st1 := {| world := sleep 200 w; written := []; logged := [] |} in
      send_yesforall master_fd_local pipe
        (feed_items master_fd_local pipe auto_input_seq st1)
  end.

(** [_feed_yesforall], the thread started otherwise. *)
Definition _feed_yesforall (p : Popen) (w : World) : state World :=
  let st1 := {| world := sleep 300 w; written := []; logged := [] |} in
  let master_fd_local := _pty_master_fd p in
  let pipe := match master_fd_local with None => stdin p | Some _ => None end in
  send_yesforall master_fd_local pipe st1.

(** Every write is accepted and no pipe is closed. *)
Definition healthy : Prop :=
  (forall fd d w, fst (os_write fd d w) = None) /\
  (forall fd w, closed fd w = false).

(** The descriptor the loop writes to: the master descriptor if there is
    one, else the pipe. *)
Definition on_fd (master_fd_local pipe : option Z) (fd : Z) : Prop :=
  master_fd_local = Some fd \/ (master_fd_local = None /\ pipe = Some fd).

(** Whether the feeder of [p] finds its transport closed: [pipe.closed]
    for the pipe; a master descriptor has no such flag and is never
    found closed. *)
Definition seen_closed (p : Popen) (fd : Z) (w : World) : bool :=
  match _pty_master_fd p with
  | Some _ => false
  | None => closed fd w
  end.

(** What the final [try] block adds to the writes when it runs in [w]:
    the sentinel, unless the pipe is found closed or the write raises. *)
Definition sentinel_write (p : Popen) (fd : Z) (w : World)
  : list (Z * list Byte.byte) :=
  if seen_closed p fd w then []
  else match fst (os_write fd (Py.encode yesforall) w) with
       | None => [(fd, Py.encode yesforall)]
       | Some _ => []
       end.

(** The data written, without the descriptors. *)
Definition data_written (st : state World) : list (list Byte.byte) :=
  map snd (written st).

End Feed.

Arguments data_written {World} st.

(** The three kinds of message of the feeder. *)
Definition closed_message : string :=
  ("[auto-input] stdin closed; stopping" ++ nl)%string.

Definition sent_message (item : string) : string :=
  ("[auto-input] " ++ Py.repr item ++ nl)%string.

Definition error_message (ex : string) : string :=
  ("[auto-input-error] " ++ ex ++ nl)%string.

(** The descriptor the feeder of [p] writes to. *)
Definition active (p : Popen) (fd : Z) : Prop :=
  on_fd (_pty_master_fd p)
        (match _pty_master_fd p with None => stdin p | Some _ => None end) fd.

End Feeder.

(** Transports for concrete runs.  The state is a clock in milliseconds;
    every write is accepted. *)
Module SampleTransport.

Definition World : Type := Z.

Definition os_write (fd : Z) (data : list Byte.byte) (w : World)
  : option string * World := (None, w).

Definition sleep (ms : Z) (w : World) : World := w + ms.

(** A pipe nobody closes, and one closed 300 ms after the start. *)
Definition never_closed (fd : Z) (w : World) : bool := false.
Definition closed_at_300 (fd : Z) (w : World) : bool := 300 <=? w.

(** A master descriptor whose first write, before 250 ms, raises, and
    which accepts the later ones. *)
Definition flaky_write (fd : Z) (data : list Byte.byte) (w : World)
  : option string * World :=
  if w <? 250 then (Some "[Errno 5] Input/output error", 250) else (None, w).

(** A master descriptor whose writes between 300 and 500 ms raise (by
    500 ms they are accepted again), and which accepts the others. *)
Definition fails_for_a_while (fd : Z) (data : list Byte.byte) (w : World)
  : option string * World :=
  if (300 <=? w) && (w <? 500)
  then (Some "[Errno 5] Input/output error", 500)
  else (None, w).

Definition on_pipe : Popen :=
  {| args := ["./setup"; "install"]; _pty_master_fd := None; stdin := Some 5 |}.

Definition on_pty : Popen :=
  {| args := ["./setup"; "install"]; _pty_master_fd := Some 7; stdin := None |}.

End SampleTransport.

(* ================================================================== *)
(** ** utils/process.py: spawning the installer with fallbacks *)
(* ================================================================== *)

Module Spawn.

(** [errno] constants (Linux). *)
Definition ENOENT : Z := 2.
Definition ENOEXEC : Z := 8.
Definition EACCES : Z := 13.

(** An exception raised inside the [try] block of one attempt, with its
    [str(ex)]: an [OSError] (which [FileNotFoundError] and
    [PermissionError] are) with its [errno], or any other [Exception]. *)
Inductive exn : Type :=
| OSError (errno : Z) (msg : string)
| OtherException (msg : string).

Definition str_of_exn (e : exn) : string :=
  match e with OSError _ m => m | OtherException m => m end.

(** What [subprocess.Popen(cmd, ...)] does in one attempt: the child
    starts ([stdin_fd] is the descriptor of the pipe made for its standard
    input in pipe mode), or an exception is raised. *)
Inductive popen_outcome : Type :=
| Spawned (stdin_fd : Z)
| SpawnRaised (e : exn).

(** The operating system during one call of [spawn_setup_install]; the
    three commands of a call differ, so each is asked at most once. *)
Record env : Type := mkEnv {
  (** [pty.openpty()] in the attempt for that command: the master and
      slave descriptors, or the message of the exception *)
  openpty : list string -> (Z * Z) + string;
  (** [subprocess.Popen(cmd, ...)] on the slave side of that pair, or on
      pipes when there is no pair *)
  popen : list string -> option (Z * Z) -> popen_outcome
}.

(** The thread started for a spawned process. *)
Inductive feeder : Type :=
| Feed (auto_input_seq : list string)
| FeedYesforall.

Record outcome : Type := mkOutcome {
  (** the returned value: the process, or [None] *)
  result : option Popen;
  (** the feeder thread started for it *)
  started : option feeder;
  (** the messages passed to [logger], oldest first *)
  logged : list string;
  (** the commands handed to [Popen], oldest first *)
  attempts : list (list string)
}.

Definition base_cmds (extra_args : list string) : list (list string) :=
  [ "./setup" :: extra_args;
    "fish" :: "./setup" :: extra_args;
    "sh" :: "./setup" :: extra_args ].

Section Spawner.

Variable e : env.
Variable use_pty : bool.
Variable auto_input_seq : option (list string).

(** The descriptors the attempt for [cmd] runs on, and the warning it
    logs when the pseudo-terminal could not be opened. *)
Definition open_transport (cmd : list string) : option (Z * Z) * list string :=
  if use_pty then
    match openpty e cmd with
    | inl fds => (Some fds, [])
    | inr ex =>
        (None, [("[pty-warn] failed to open pty: " ++ ex ++ "; fallback no-pty" ++ nl)%string])
    end
  else (None, []).

Definition choose_feeder : feeder :=
  match auto_input_seq with
  | Some (item :: rest) => Feed (item :: rest)
  | _ => FeedYesforall
  end.

(** The [for cmd in base_cmds] loop with its [try]/[except]. *)
Fixpoint try_cmds (cmds : list (list string)) (log : list string)
  (tried : list (list string)) : outcome :=
  match cmds with
  | [] =>
      {| result := None; started := None;
         logged := log ++ [("[error] All setup execution fallbacks failed." ++ nl)%string];
         attempts := tried |}
  | cmd :: rest =>
      let (fds, warn) := open_transport cmd in
      let log1 := log ++ warn in
      match popen e cmd fds with
      | Spawned stdin_fd =>
          match fds with
          | Some (master_fd, _) =>
              {| result := Some {| args := cmd; _pty_master_fd := Some master_fd;
                                   stdin := None |};
                 started := Some choose_feeder;
                 logged := log1 ++ [("[spawn/pty] " ++ Py.join " " cmd ++ nl)%string];
                 attempts := tried ++ [cmd] |}
          | None =>
              {| result := Some {| args := cmd; _pty_master_fd := None;
                                   stdin := Some stdin_fd |};
                 started := Some choose_feeder;
                 logged := log1 ++ [("[spawn] " ++ Py.join " " cmd ++ nl)%string];
                 attempts := tried ++ [cmd] |}
          end
      | SpawnRaised (OSError errno msg) =>
          if errno =? ENOEXEC then
            try_cmds rest
              (log1 ++ [("[warn] Exec format error with " ++ Py.join " " cmd
                         ++ "; trying fallback..." ++ nl)%string])
              (tried ++ [cmd])
          else
            {| result := None; started := None;
               logged := log1 ++ [("[error] " ++ msg ++ nl)%string];
               attempts := tried ++ [cmd] |}
      | SpawnRaised (OtherException msg) =>
          {| result := None; started := None;
             logged := log1 ++ [("[error] " ++ msg ++ nl)%string];
             attempts := tried ++ [cmd] |}
      end
  end.

(** [spawn_setup_install]; [extra_args or []] is the list given, [None]
    standing for the empty list.  (Wrapping the master descriptor and
    starting the thread are taken not to raise.) *)
Definition spawn_setup_install (extra_args : option (list string)) : outcome :=
  try_cmds (base_cmds (Py.or_empty extra_args)) [] [].

End Spawner.

(** The message a call ends on. *)
Definition last_logged (o : outcome) : option string :=
  match rev (logged o) with m :: _ => Some m | [] => None end.

(** A command fails with that [errno], whatever it runs on. *)
Definition fails_with (e : env) (cmd : list string) (errno : Z) (msg : string) : Prop :=
  forall fds, popen e cmd fds = SpawnRaised (OSError errno msg).

(** The attempt for [cmd] ends on an exec format error. *)
Definition exec_format_failure (e : env) (use_pty : bool) (cmd : list string) : Prop :=
  exists msg,
    popen e cmd (fst (open_transport e use_pty cmd)) = SpawnRaised (OSError ENOEXEC msg).

(** The process [p] runs on what the attempt for its command opened: the
    master side of the pseudo-terminal, or else a pipe. *)
Definition transport_matches (e : env) (use_pty : bool) (p : Popen) : Prop :=
  match fst (open_transport e use_pty (args p)) with
  | Some (master_fd, _) => _pty_master_fd p = Some master_fd /\ stdin p = None
  | None => _pty_master_fd p = None /\ exists stdin_fd, stdin p = Some stdin_fd
  end.

(** The line logged for a started process. *)
Definition spawn_message (p : Popen) : string :=
  match _pty_master_fd p with
  | Some _ => ("[spawn/pty] " ++ Py.join " " (args p) ++ nl)%string
  | None => ("[spawn] " ++ Py.join " " (args p) ++ nl)%string
  end.

(** The body of the thread started for [p]. *)
Definition run_feeder (World : Type)
  (os_write : Z -> list Byte.byte -> World -> option string * World)
  (closed : Z -> World -> bool) (sleep : Z -> World -> World)
  (f : feeder) (p : Popen) (w : World) : Feeder.state World :=
  match f with
  | Feed items => Feeder._feed World os_write closed sleep p items w
  | FeedYesforall => Feeder._feed_yesforall World os_write closed sleep p w
  end.

(** A command fails with that exception, whatever it runs on. *)
Definition raises (e : env) (cmd : list string) (ex : exn) : Prop :=
  forall fds, popen e cmd fds = SpawnRaised ex.

Definition is_enoexec (ex : exn) : bool :=
  match ex with
  | OSError errno _ => errno =? ENOEXEC
  | OtherException _ => false
  end.

End Spawn.

(** Systems for concrete runs of the spawner. *)
Module SampleSpawn.

Definition starts_with (x : string) (cmd : list string) : bool :=
  match cmd with
  | y :: _ => String.eqb x y
  | [] => false
  end.

(** No interpreter can run anything: every [Popen] is an exec format
    error. *)
Definition nothing_runs : Spawn.env :=
  {| Spawn.openpty := fun _ => inl (3, 4);
     Spawn.popen := fun _ _ =>
       Spawn.SpawnRaised (Spawn.OSError Spawn.ENOEXEC "[Errno 8] Exec format error") |}.

(** [./setup] is not there; [fish] and [sh] would start. *)
Definition setup_missing : Spawn.env :=
  {| Spawn.openpty := fun _ => inl (3, 4);
     Spawn.popen := fun cmd _ =>
       if starts_with "./setup" cmd then
         Spawn.SpawnRaised
           (Spawn.OSError Spawn.ENOENT "[Errno 2] No such file or directory: './setup'")
       else Spawn.Spawned 5 |}.

(** [./setup] has no execute permission; [fish] and [sh] would start. *)
Definition setup_not_executable : Spawn.env :=
  {| Spawn.openpty := fun _ => inl (3, 4);
     Spawn.popen := fun cmd _ =>
       if starts_with "./setup" cmd then
         Spawn.SpawnRaised
           (Spawn.OSError Spawn.EACCES "[Errno 13] Permission denied: './setup'")
       else Spawn.Spawned 5 |}.

(** [./setup] has no interpreter line the kernel accepts; [fish] starts. *)
Definition setup_without_shebang : Spawn.env :=
  {| Spawn.openpty := fun _ => inl (3, 4);
     Spawn.popen := fun cmd _ =>
       if starts_with "./setup" cmd then
         Spawn.SpawnRaised (Spawn.OSError Spawn.ENOEXEC "[Errno 8] Exec format error: './setup'")
       else Spawn.Spawned 5 |}.

(** [./setup] has no interpreter line the kernel accepts and [fish] is
    not installed; [sh] would start. *)
Definition fish_missing : Spawn.env :=
  {| Spawn.openpty := fun _ => inl (3, 4);
     Spawn.popen := fun cmd _ =>
       if starts_with "./setup" cmd then
         Spawn.SpawnRaised (Spawn.OSError Spawn.ENOEXEC "[Errno 8] Exec format error: './setup'")
       else if starts_with "fish" cmd then
         Spawn.SpawnRaised
           (Spawn.OSError Spawn.ENOENT "[Errno 2] No such file or directory: 'fish'")
       else Spawn.Spawned 5 |}.

Definition install (e : Spawn.env) : Spawn.outcome :=
  Spawn.spawn_setup_install e true None (Some ["install"]).

(** No pseudo-terminal can be opened; everything starts on pipes. *)
Definition no_pty : Spawn.env :=
  {| Spawn.openpty := fun _ => inr "out of pty devices";
     Spawn.popen := fun _ _ => Spawn.Spawned 5 |}.

End SampleSpawn.

(* ================================================================== *)
(** ** utils/process.py: the external terminal launcher *)
(* ================================================================== *)

Module Launch.

(** Characters [shlex.quote] leaves alone: letters, digits and [_@%+=:,./-]. *)
Definition is_safe (c : ascii) : bool :=
  let n := N_of_ascii c in
  (((48 <=? n) && (n <=? 57)) || ((65 <=? n) && (n <=? 90))
   || ((97 <=? n) && (n <=? 122))
   || (n =? 95) || (n =? 64) || (n =? 37) || (n =? 43) || (n =? 61)
   || (n =? 58) || (n =? 44) || (n =? 46) || (n =? 47) || (n =? 45))%N.

Fixpoint all_safe (s : string) : bool :=
  match s with
  | EmptyString => true
  | String c r => is_safe c && all_safe r
  end.

(** The replacement of a single quote inside single quotes: close the
    quote, a double-quoted single quote, open it again. *)
Definition quoted_squote : string :=
  String Py.SQUOTE (String Py.DQUOTE (String Py.SQUOTE (String Py.DQUOTE
    (String Py.SQUOTE EmptyString)))).

Fixpoint replace_squotes (s : string) : string :=
  match s with
  | EmptyString => EmptyString
  | String c r =>
      if Ascii.eqb c Py.SQUOTE then (quoted_squote ++ replace_squotes r)%string
      else String c (replace_squotes r)
  end.

(** [shlex.quote(s)] *)
Definition quote (s : string) : string :=
  if negb (Py.truthy s) then "''"
  else if all_safe s then s
  else String Py.SQUOTE (replace_squotes s ++ String Py.SQUOTE EmptyString)%string.

(** [shlex.join(cmd)] *)
Definition join (cmd : list string) : string := Py.join " " (map quote cmd).

Definition terminals : list (string * list string) :=
  [ ("kitty", ["kitty"; "-e"]);
    ("alacritty", ["alacritty"; "-e"]);
    ("gnome-terminal", ["gnome-terminal"; "--"]);
    ("xterm", ["xterm"; "-e"]);
    ("konsole", ["konsole"; "-e"]);
    ("foot", ["foot"; "sh"; "-c"]) ].

(** The operating system during one call. *)
Record env : Type := mkEnv {
  (** [shutil.which(prog)] with the import before it: a path, [None], or
      the message of an exception *)
  which : string -> option string + string;
  (** [subprocess.Popen(argv, cwd=cwd)]: [None] when the child starts, the
      message of the exception otherwise *)
  popen : list string -> option string -> option string
}.

(** [shutil_which]: the shim turns every exception into [None]. *)
Definition shutil_which (e : env) (prog : string) : option string :=
  match which e prog with
  | inl r => r
  | inr _ => None
  end.

(** How a call ends, and the [Popen] calls it made, oldest first. *)
Record outcome : Type := mkOutcome {
  raised : option string;
  calls : list (list string * option string)
}.

Definition last_is (x : string) (l : list string) : bool :=
  match rev l with
  | y :: _ => String.eqb y x
  | [] => false
  end.

Section Launcher.

Variable e : env.
Variable repo_path : string.
(** [cmd], that is ["./setup", "install"] and the extra arguments *)
Variable cmd : list string.

(** The command line handed to the terminal [base]. *)
Definition full_for (base : list string) : list string :=
  if last_is "-c" base then
    base ++ [("cd " ++ quote repo_path ++ " && " ++ quote (hd EmptyString cmd)
              ++ " " ++ Py.join " " (map quote (tl cmd)))%string]
  else if last_is "--" base || last_is "-e" base then
    base ++ ["sh"; "-c"; ("cd " ++ quote repo_path ++ " && " ++ join cmd)%string]
  else
    base ++ ["sh"; "-c"; ("cd " ++ quote repo_path ++ " && " ++ join cmd)%string].

(** The [for name, base in terminals] loop and the fallback after it. *)
Fixpoint try_terminals (ts : list (string * list string))
  (done : list (list string * option string)) : outcome :=
  match ts with
  | [] =>
      (* Fallback: run directly in background (no terminal) *)
      {| raised := popen e cmd (Some repo_path);
         calls := done ++ [(cmd, Some repo_path)] |}
  | (name, base) :: rest =>
      if Py.truthy_opt (shutil_which e name) then
        let full := full_for base in
        match popen e full None with
        | None => {| raised := None; calls := done ++ [(full, None)] |}
        | Some _ => try_terminals rest (done ++ [(full, None)])
        end
      else try_terminals rest done
  end.

End Launcher.

(** [launch_install_external(repo_path, extra_args)] *)
Definition launch_install_external (e : env) (repo_path : string)
  (extra_args : option (list string)) : outcome :=
  let args := "install" :: Py.or_empty extra_args in
  let cmd := "./setup" :: args in
  try_terminals e repo_path cmd terminals [].

(** No terminal emulator is installed. *)
Definition none_available (e : env) : Prop :=
  forall name base,
    In (name, base) terminals -> Py.truthy_opt (shutil_which e name) = false.

(** The terminal emulators of [ts] that are available, in the order of
    the list: a search that raises counts as nothing found. *)
Definition available (e : env) (ts : list (string * list string))
  : list (string * list string) :=
  filter (fun t => Py.truthy_opt (shutil_which e (fst t))) ts.

(** The command lines for the available terminal emulators, in the order
    of the list. *)
Definition available_command_lines (e : env) (repo_path : string)
  (cmd : list string) : list (list string) :=
  map (fun t => full_for repo_path cmd (snd t)) (available e terminals).

(** Starting that command line raises. *)
Definition fails_to_start (e : env) (full : list string) : Prop :=
  popen e full None <> None.

(** The [Popen] calls for command lines of terminal emulators. *)
Definition in_terminal (fulls : list (list string))
  : list (list string * option string) :=
  map (fun full => (full, None)) fulls.

End Launch.

(** Systems for concrete runs of the launcher. *)
Module SampleLaunch.

(** No terminal emulator, and no [./setup] in the directory. *)
Definition bare_without_setup : Launch.env :=
  {| Launch.which := fun _ => inl None;
     Launch.popen := fun _ _ => Some "[Errno 2] No such file or directory: './setup'" |}.

(** No terminal emulator; the installer starts. *)
Definition bare : Launch.env :=
  {| Launch.which := fun _ => inl None;
     Launch.popen := fun _ _ => None |}.

(** The search for a program raises, [xterm] is found but does not
    start, [foot] starts. *)
Definition foot_only : Launch.env :=
  {| Launch.which := fun name =>
       if String.eqb name "xterm" then inl (Some "/usr/bin/xterm")
       else if String.eqb name "foot" then inl (Some "/usr/bin/foot")
       else inr "search failed";
     Launch.popen := fun argv _ =>
       match argv with
       | "xterm" :: _ => Some "[Errno 8] Exec format error: 'xterm'"
       | _ => None
       end |}.

End SampleLaunch.

(* ================================================================== *)
(** ** Python dictionaries with string keys *)
(* ================================================================== *)

(** A [dict] is the list of its items in insertion order; the keys of a
    dictionary are distinct. *)
Module Dict.

Section Ops.

Variable V : Type.

Definition dict : Type := list (string * V).

(** [d.get(k)] *)
Fixpoint get (k : string) (d : dict) : option V :=
  match d with
  | [] => None
  | (k', v) :: r => if String.eqb k k' then Some v else get k r
  end.

(** [d.get(k, default)] *)
Definition get_default (k : string) (default : V) (d : dict) : V :=
  match get k d with Some v => v | None => default end.

(** [k in d] *)
Definition contains (k : string) (d : dict) : bool :=
  match get k d with Some _ => true | None => false end.

(** [d[k] = v]: a present key keeps its place, a new one goes last. *)
Fixpoint set (k : string) (v : V) (d : dict) : dict :=
  match d with
  | [] => [(k, v)]
  | (k', v') :: r =>
      if String.eqb k k' then (k, v) :: r else (k', v') :: set k v r
  end.

(** [d.pop(k, None)] *)
Fixpoint pop (k : string) (d : dict) : dict :=
  match d with
  | [] => []
  | (k', v') :: r =>
      if String.eqb k k' then pop k r else (k', v') :: pop k r
  end.

(** [d.update(items)]: the items are set one after the other. *)
Fixpoint update (items : list (string * V)) (d : dict) : dict :=
  match items with
  | [] => d
  | (k, v) :: r => update r (set k v d)
  end.

(** [list(d.keys())] *)
Definition keys (d : dict) : list string := map fst d.

End Ops.

Arguments get {V} k d.
Arguments get_default {V} k default d.
Arguments contains {V} k d.
Arguments set {V} k v d.
Arguments pop {V} k d.
Arguments update {V} items d.
Arguments keys {V} d.

End Dict.

(* ================================================================== *)
(** ** utils/process.py: the environment of the child processes *)
(* ================================================================== *)

Module ColorEnv.

(** [build_color_env(base, force_color)], with [os.environ] as
    [environ].  [base or os.environ] takes [os.environ] for [None] and
    for an empty mapping. *)
Definition build_color_env (environ : Dict.dict string)
  (base : option (Dict.dict string)) (force_color : bool) : Dict.dict string :=
  let env :=
    match base with
    | Some (item :: rest) => item :: rest
    | _ => environ
    end in
  if force_color then
    let term :=
      Py.str_or (Dict.get_default "TERM" "xterm-256color" env) "xterm-256color" in
    let env1 :=
      Dict.update
        [ ("FORCE_COLOR", "1"); ("CLICOLOR", "1"); ("CLICOLOR_FORCE", "1");
          ("TERM", term) ] env in
    Dict.pop "NO_COLOR" env1
  else env.

(** The mapping that is copied. *)
Definition chosen (environ : Dict.dict string) (base : option (Dict.dict string))
  : Dict.dict string :=
  match base with
  | Some (item :: rest) => item :: rest
  | _ => environ
  end.

(** The variables [build_color_env] touches. *)
Definition color_keys : list string :=
  ["FORCE_COLOR"; "CLICOLOR"; "CLICOLOR_FORCE"; "TERM"; "NO_COLOR"].

(** An environment for concrete runs. *)
Definition sample_environ : Dict.dict string :=
  [ ("HOME", "/home/me"); ("NO_COLOR", "1"); ("TERM", "foot"); ("LANG", "C") ].

End ColorEnv.

(* ================================================================== *)
(** ** core/app_meta.py: the settings *)
(* ================================================================== *)

Module Settings.

(** The values of a settings mapping: [None], a [bool], an [int], a
    [str], or any other object (a float, a list, ...), given by what
    [bool()], [str()] and [int()] make of it ([None] where [int()]
    raises). *)
Inductive value : Type :=
| VNone
| VBool (b : bool)
| VInt (n : Z)
| VStr (s : string)
| VObject (truth : bool) (text : string) (number : option Z).

(** [bool(v)] *)
Definition truthy (v : value) : bool :=
  match v with
  | VNone => false
  | VBool b => b
  | VInt n => negb (n =? 0)
  | VStr s => Py.truthy s
  | VObject truth _ _ => truth
  end.

(** [str(v)] *)
Definition str (v : value) : string :=
  match v with
  | VNone => "None"
  | VBool true => "True"
  | VBool false => "False"
  | VInt n => Py.str_of_int n
  | VStr s => s
  | VObject _ text _ => text
  end.

(** [int(v)]; [None] stands for the exception it raises. *)
Definition int (v : value) : option Z :=
  match v with
  | VNone => None
  | VBool b => Some (if b then 1 else 0)
  | VInt n => Some n
  | VStr s => Py.int_of_str s
  | VObject _ _ number => number
  end.

Definition DEFAULT_SETTINGS : Dict.dict value :=
  [ ("repo_path", VStr EmptyString);
    ("auto_refresh_seconds", VInt 60);
    ("detached_console", VBool false);
    ("installer_mode", VStr "auto");
    ("use_pty", VBool true);
    ("force_color_env", VBool true);
    ("send_notifications", VBool true);
    ("log_max_lines", VInt 5000);
    ("changes_lazy_load", VBool true);
    ("post_script_path", VStr EmptyString);
    ("show_details_button", VBool true);
    ("keep_fish_config", VBool false) ].

(** What [json.load] gave: a mapping with its items, or something else
    (a list, a number, ...). *)
Inductive json : Type :=
| JMapping (items : Dict.dict value)
| JOther.

(** The settings file when [load_settings] looks at it: not a file,
    a file that cannot be opened or parsed, or a file with its parsed
    content. *)
Inductive settings_file : Type :=
| NoFile
| Unreadable
| Parsed (loaded : json).

(** The dictionary comprehension of [load_settings]: the items of the
    file whose key is a known setting. *)
Definition known_items (items : Dict.dict value) : list (string * value) :=
  filter (fun kv => Dict.contains (fst kv) DEFAULT_SETTINGS) items.

Definition load_settings (f : settings_file) : Dict.dict value :=
  let data := DEFAULT_SETTINGS in
  match f with
  | Parsed (JMapping items) => Dict.update (known_items items) data
  | _ => data
  end.

(** The mapping [save_settings] hands to [json.dump]: every known key
    with [data.get(k)]. *)
Definition serializable (data : Dict.dict value) : Dict.dict value :=
  map (fun k => (k, Dict.get_default k VNone data)) (Dict.keys DEFAULT_SETTINGS).

(** [get_auto_refresh_seconds] *)
Definition get_auto_refresh_seconds (settings : Dict.dict value) : Z :=
  match int (Dict.get_default "auto_refresh_seconds" (VInt 60) settings) with
  | Some v => if 0 <? v then v else 60
  | None => 60
  end.

(** [str(settings.get("repo_path") or <empty string>).strip()] *)
Definition configured_path (settings : Dict.dict value) : string :=
  let configured := Dict.get_default "repo_path" VNone settings in
  Py.strip (str (if truthy configured then configured else VStr EmptyString)).

(** [detect_initial_repo_path]; [isdir] is [os.path.isdir] and [fallback]
    is what [os.path.expanduser] makes of [~/.cache/dots-hyprland].  The
    result is the returned path, the settings mapping as the call leaves
    it, and the mapping passed to [save_settings] if it was called. *)
Definition detect_initial_repo_path (isdir : string -> bool) (fallback : string)
  (settings : Dict.dict value)
  : string * Dict.dict value * option (Dict.dict value) :=
  let p := configured_path settings in
  if Py.truthy p && isdir p then (p, settings, None)
  else if isdir fallback then
    let settings' := Dict.set "repo_path" (VStr fallback) settings in
    (fallback, settings', Some settings')
  else (EmptyString, settings, None).

(** The items of a settings file for concrete runs: one known setting
    and one unknown key. *)
Definition sample_file_items : Dict.dict value :=
  [ ("use_pty", VBool false); ("window_width", VInt 800) ].

(** A directory tree for concrete runs: only the fallback exists. *)
Definition only_fallback (p : string) : bool :=
  String.eqb p "/home/me/.cache/dots-hyprland".

End Settings.

(* ================================================================== *)
(** ** ui/console_panel.py: sending input to the process *)
(* ================================================================== *)

Module Console.

(** [s.endswith("\n")] *)
Fixpoint ends_with_nl (s : string) : bool :=
  match s with
  | EmptyString => false
  | String c EmptyString => Ascii.eqb c LF
  | String _ r => ends_with_nl r
  end.

Section Panel.

Variable World : Type.
Variable os_write : Z -> list Byte.byte -> World -> option string * World.
Variable closed : Z -> World -> bool.

(** [send_to_process(text)] with [self._current_proc] as [current_proc]:
    the writes made and the texts passed to [self.append]. *)
Definition send_to_process (current_proc : option Popen) (text : string)
  (w : World) : Feeder.state World :=
  let st0 := {| Feeder.world := w; Feeder.written := []; Feeder.logged := [] |} in
  match current_proc with
  | None => st0
  | Some p =>
      let master_fd := _pty_master_fd p in
      match Feeder.write_to World os_write closed master_fd (stdin p)
              (Py.encode text) w with
      | None => st0
      | Some (None, w', fd) =>
          {| Feeder.world := w';
             Feeder.written := [(fd, Py.encode text)];
             Feeder.logged := [("[sent] " ++ text)%string] |}
      | Some (Some ex, w', _) =>
          {| Feeder.world := w'; Feeder.written := [];
             Feeder.logged := [("[send error] " ++ ex ++ nl)%string] |}
      end
  end.

(** [_on_entry_activate] with the text of the entry: what is sent, and
    the text the entry is left with. *)
Definition _on_entry_activate (current_proc : option Popen) (entry_text : string)
  (w : World) : Feeder.state World * string :=
  let txt := entry_text in
  let txt :=
    if Py.truthy txt && negb (ends_with_nl txt) then (txt ++ nl)%string else txt in
  let st :=
    if Py.truthy txt then send_to_process current_proc txt w
    else {| Feeder.world := w; Feeder.written := []; Feeder.logged := [] |} in
  (st, EmptyString).

End Panel.

End Console.

(* ================================================================== *)
(** ** Sanity checks of the builtins *)
(* ================================================================== *)

Example strip_ex : Py.strip (" ab c" ++ String "010"%char " ") = "ab c".
Proof. reflexivity. Qed.

Example int_ex1 : Py.int "12" = Some 12. Proof. reflexivity. Qed.

Example int_ex2 : Py.int " -1_0 " = Some (-10). Proof. reflexivity. Qed.

Example int_ex3 : Py.int "1__0" = None. Proof. reflexivity. Qed.

Example int_ex4 : Py.int "abc" = None. Proof. reflexivity. Qed.

Example int_of_str_ex1 : Py.int_of_str " -1_0 " = Some (-10). Proof. reflexivity. Qed.

(** [int()] skips U+0085 and U+00A0 around the literal, not U+001C. *)
Example int_of_str_ex2 :
  Py.int_of_str (String "133"%char ("5" ++ String "160"%char EmptyString)) = Some 5 /\
  Py.int_of_str (String "028"%char "5") = None /\
  Py.int (String "028"%char "5") = Some 5.
Proof. repeat split. Qed.

Example int_of_str_ex3 :
  Py.int_of_str (string_of_list_ascii (repeat "0"%char 4300)) = Some 0 /\
  Py.int_of_str (string_of_list_ascii (repeat "0"%char 4301)) = None /\
  Py.int_of_str (String "-" (string_of_list_ascii (repeat "0"%char 4300))) = Some 0.
Proof. vm_compute. repeat split. Qed.

Example str_ex1 : Py.str_of_int (-9) = "-9". Proof. reflexivity. Qed.

Example str_ex2 : Py.str_of_int 0 = "0". Proof. reflexivity. Qed.

Example splitlines_ex :
  Py.splitlines (" M a" ++ String "010"%char ("?? b" ++ nl))
  = [" M a"; "?? b"].
Proof. reflexivity. Qed.

Example stream_ex :
  Stream.stream_text
    (Stream.Started (Stream.mkProcess
       [Stream.ReadLine ("a" ++ nl)%string; Stream.ReadLine ("b" ++ nl)%string] 3))
  = ([("a" ++ nl)%string; ("b" ++ nl)%string; ("[exit 3]" ++ nl)%string], 3).
Proof. reflexivity. Qed.

Example pty_ex :
  let s0 := PTY.PTYStdout_init
              (PTY.mkStream ["ab"; ("c" ++ nl)%string; "d"] PTY.StillOpen) in
  let (r1, s1) := PTY.readline s0 in
  let (r2, s2) := PTY.readline s1 in
  let (r3, s3) := PTY.readline (PTY.close s2) in
  let (r4, s4) := PTY.readline s3 in
  (r1, r2, r3, r4) =
  (PTY.Returns ("abc" ++ nl)%string, PTY.Blocks, PTY.Returns "d", PTY.Returns EmptyString).
Proof. reflexivity. Qed.

Example pty_hang_up_ex :
  let s0 := PTY.PTYStdout_init
              (PTY.mkStream ["ab"; ("c" ++ nl)%string; "d"] PTY.StillOpen) in
  let (r1, s1) := PTY.readline s0 in
  let (r2, s2) := PTY.readline s1 in
  let (r3, s3) := PTY.readline (PTY.hang_up PTY.EIO_message s2) in
  (r1, r2, r3, PTY._buffer s3) =
  (PTY.Returns ("abc" ++ nl)%string, PTY.Blocks, PTY.Raises PTY.EIO_message, "d").
Proof. reflexivity. Qed.

Example repr_ex1 : Py.repr "yes" = "'yes'". Proof. reflexivity. Qed.

Example repr_ex2 :
  Py.repr ("yesforall" ++ nl) = ("'yesforall" ++ String Py.BACKSLASH "n'")%string.
Proof. reflexivity. Qed.

Example encode_ex :
  Py.encode "2" = [Byte.x32] /\ Py.encode (String (ascii_of_N 233) EmptyString) = [Byte.xc3; Byte.xa9].
Proof. split; reflexivity. Qed.

Example check_offline :
  fst (SampleRepo.check "/repo" SampleRepo.offline) =
  {| Git.ok := true; Git.repo_path := "/repo";
     Git.branch := Some "main"; Git.upstream := Some "origin/main";
     Git.behind := 2; Git.ahead := 1; Git.dirty := 1;
     Git.fetch_error := Some "fatal: unable to access remote";
     Git.error := None |}.
Proof. vm_compute. reflexivity. Qed.

(* ================================================================== *)
(** ** Repository status *)
(* ================================================================== *)

Section StripFacts.

Lemma rstrip_idempotent (s : string) : Py.rstrip (Py.rstrip s) = Py.rstrip s.
Proof.
  induction s as [|c r IH]; simpl; [reflexivity|].
  destruct (Py.rstrip r) as [|c' r'] eqn:E.
  - destruct (Py.isspace c) eqn:Ec; simpl; [reflexivity|].
    rewrite Ec. reflexivity.
  - simpl in IH. cbn [Py.rstrip]. fold Py.rstrip.
    change (Py.rstrip (String c (String c' r'))) with
      (match Py.rstrip (String c' r') with
       | EmptyString => if Py.isspace c then EmptyString else String c EmptyString
       | r'' => String c r''
       end).
    rewrite IH. reflexivity.
Qed.

(** A left-stripped string is empty or starts with a character that is
    not a space. *)
Lemma lstrip_head (s : string) :
  match Py.lstrip s with
  | EmptyString => True
  | String c _ => Py.isspace c = false
  end.
Proof.
  induction s as [|c r IH]; simpl; [exact I|].
  destruct (Py.isspace c) eqn:Ec; [exact IH | exact Ec].
Qed.

Lemma rstrip_keeps_head (c : ascii) (r : string) :
  Py.isspace c = false -> exists r', Py.rstrip (String c r) = String c r'.
Proof.
  intros Hc. simpl. destruct (Py.rstrip r).
  - rewrite Hc. eexists; reflexivity.
  - eexists; reflexivity.
Qed.

Lemma strip_idempotent (s : string) : Py.strip (Py.strip s) = Py.strip s.
Proof.
  unfold Py.strip.
  pose proof (lstrip_head s) as H.
  destruct (Py.lstrip s) as [|c r] eqn:E; [reflexivity|].
  destruct (rstrip_keeps_head c r H) as [r' Hr].
  rewrite Hr. cbn [Py.lstrip]. rewrite H. rewrite <- Hr.
  apply rstrip_idempotent.
Qed.

Lemma int_strip (s : string) : Py.int (Py.strip s) = Py.int s.
Proof. unfold Py.int. rewrite strip_idempotent. reflexivity. Qed.

Lemma int_isspace_isspace (c : ascii) :
  Py.int_isspace c = true -> Py.isspace c = true.
Proof.
  unfold Py.int_isspace, Py.isspace. cbv zeta.
  destruct (N_of_ascii c =? 133)%N, (N_of_ascii c =? 160)%N;
    rewrite ?orb_true_r; try reflexivity.
  rewrite !orb_false_r.
  destruct ((9 <=? N_of_ascii c) && (N_of_ascii c <=? 13))%N; [reflexivity|].
  cbn [orb]. intros H. apply N.eqb_eq in H. rewrite H. reflexivity.
Qed.

Lemma not_isspace_not_int_isspace (c : ascii) :
  Py.isspace c = false -> Py.int_isspace c = false.
Proof.
  intros H. destruct (Py.int_isspace c) eqn:E; [|reflexivity].
  rewrite (int_isspace_isspace c E) in H. discriminate H.
Qed.

Lemma int_rstrip_rstrip (s : string) : Py.int_rstrip (Py.rstrip s) = Py.rstrip s.
Proof.
  induction s as [|c r IH]; [reflexivity|].
  cbn [Py.rstrip].
  destruct (Py.rstrip r) as [|c' r'] eqn:E.
  - destruct (Py.isspace c) eqn:Ec; [reflexivity|].
    cbn. rewrite (not_isspace_not_int_isspace c Ec). reflexivity.
  - change (Py.int_rstrip (String c (String c' r'))) with
      (match Py.int_rstrip (String c' r') with
       | EmptyString => if Py.int_isspace c then EmptyString else String c EmptyString
       | r'' => String c r''
       end).
    rewrite IH. reflexivity.
Qed.

(** [int()] finds nothing to skip around a string that [str.strip] has
    been applied to. *)
Lemma int_strips_nothing_more (s : string) :
  Py.int_rstrip (Py.int_lstrip (Py.strip s)) = Py.strip s.
Proof.
  assert (Hl : Py.int_lstrip (Py.strip s) = Py.strip s).
  { unfold Py.strip. pose proof (lstrip_head s) as H.
    destruct (Py.lstrip s) as [|c r]; [reflexivity|].
    destruct (rstrip_keeps_head c r H) as [r' Hr]. rewrite Hr.
    cbn [Py.int_lstrip]. rewrite (not_isspace_not_int_isspace c H). reflexivity. }
  rewrite Hl. apply int_rstrip_rstrip.
Qed.

Lemma count_digits_nonneg (s : string) : 0 <= Py.count_digits s.
Proof.
  induction s as [|c r IH]; cbn [Py.count_digits]; [lia|].
  destruct (Py.digit_of c); lia.
Qed.

(** Where the source strips before it calls [int()], [Py.int] is what
    [int()] returns, as long as the literal stays within the cap on its
    length. *)
Lemma int_of_str_strip (s : string) :
  Py.count_digits (Py.strip s) <= Py.INT_MAX_STR_DIGITS ->
  Py.int_of_str (Py.strip s) = Py.int s.
Proof.
  intros Hcap. unfold Py.int_of_str, Py.int.
  rewrite int_strips_nothing_more.
  destruct (Py.strip s) as [|c r]; [reflexivity|].
  cbv zeta.
  assert (Hle : Py.count_digits (if Py.is_plus c || Py.is_minus c then r else String c r)
                <= Py.INT_MAX_STR_DIGITS).
  { destruct (Py.is_plus c || Py.is_minus c); [|exact Hcap].
    cbn [Py.count_digits] in Hcap. destruct (Py.digit_of c); lia. }
  destruct (Z.ltb_spec Py.INT_MAX_STR_DIGITS
              (Py.count_digits (if Py.is_plus c || Py.is_minus c then r else String c r)));
    [lia | reflexivity].
Qed.

End StripFacts.

Section RepoStatusFacts.

Variable World : Type.
Variable isdir : string -> World -> bool.
Variable subprocess_run :
  list string -> string -> World -> Git.run_outcome * World.

Local Abbreviation run_git := (Git.run_git World subprocess_run).
Local Abbreviation get_branch := (Git.get_branch World subprocess_run).
Local Abbreviation get_upstream := (Git.get_upstream World subprocess_run).
Local Abbreviation get_dirty_count := (Git.get_dirty_count World subprocess_run).
Local Abbreviation range_counts := (Git.range_counts World subprocess_run).
Local Abbreviation check_repo_status :=
  (Git.check_repo_status World isdir subprocess_run).

(** The source's parsing of a count agrees with the specified one. *)
Lemma parse_count_spec (out : string) :
  Git.parse_count out = match Py.int out with Some n => n | None => 0 end.
Proof.
  unfold Git.parse_count.
  assert (Hor : Py.str_or out EmptyString = out) by (destruct out; reflexivity).
  rewrite Hor.
  destruct (Py.strip out) as [|c r] eqn:E.
  - unfold Py.int at 2. rewrite E. reflexivity.
  - cbn [Py.str_or Py.truthy]. rewrite <- E, int_strip. reflexivity.
Qed.

Lemma counted (rc : Z) (out err : string) :
  (if rc =? 0 then Git.parse_count out else 0) = Git.range_count (rc, out, err).
Proof. unfold Git.range_count. rewrite parse_count_spec. reflexivity. Qed.

(** After a passed validation the status is assembled from the six
    queries, run in this order. *)
Lemma check_repo_status_valid
  (p : string) (w wf wb wu wc wd : World)
  (rc : Z) (out err : string) (br up : option string) (ba : Z * Z) (d : Z) :
  isdir p w = true ->
  isdir (Git.path_join p ".git") w = true ->
  run_git ["fetch"; "--all"; "--prune"] p w = ((rc, out, err), wf) ->
  get_branch p wf = (br, wb) ->
  get_upstream p br wb = (up, wu) ->
  range_counts p up wu = (ba, wc) ->
  get_dirty_count p wc = (d, wd) ->
  check_repo_status p w =
    ({| Git.ok := true; Git.repo_path := p;
        Git.branch := br; Git.upstream := up;
        Git.behind := fst ba; Git.ahead := snd ba; Git.dirty := d;
        Git.fetch_error :=
          if negb (rc =? 0)
          then Some (Py.strip (Py.str_or err "fetch failed")) else None;
        Git.error := None |}, wd).
Proof.
  intros Hd Hg Hf Hb Hu Hc Hdirty.
  unfold Git.check_repo_status.
  rewrite Hd, Hg. cbn [negb].
  unfold Git.bind at 1. rewrite Hf.
  unfold Git.bind at 1. rewrite Hb.
  unfold Git.bind at 1. rewrite Hu.
  unfold Git.range_counts in Hc.
  destruct up as [u|].
  - destruct (Py.truthy u) eqn:Tu.
    + unfold Git.bind at 1. unfold Git.bind at 1.
      unfold Git.bind at 1 in Hc.
      destruct (run_git ["rev-list"; "--count"; ("HEAD.." ++ u)%string] p wu)
        as [[[rcb outb] errb] w1] eqn:Eb.
      unfold Git.bind at 1. unfold Git.bind at 1 in Hc.
      destruct (run_git ["rev-list"; "--count"; (u ++ "..HEAD")%string] p w1)
        as [[[rca outa] erra] w2] eqn:Ea.
      unfold Git.ret in Hc. injection Hc as Hba Hwc. subst ba wc.
      unfold Git.ret at 1. unfold Git.bind at 1. rewrite Hdirty. unfold Git.ret.
      rewrite (counted rcb outb errb), (counted rca outa erra). reflexivity.
    + unfold Git.ret in Hc. injection Hc as Hba Hwc. subst ba wc.
      unfold Git.bind at 1. unfold Git.ret at 1.
      unfold Git.bind at 1. rewrite Hdirty.
      reflexivity.
  - unfold Git.ret in Hc. injection Hc as Hba Hwc. subst ba wc.
    unfold Git.bind at 1. unfold Git.ret at 1.
    unfold Git.bind at 1. rewrite Hdirty.
    reflexivity.
Qed.

(** C2.  In an existing directory that has the [.git] metadata directory,
    a failed fetch (non-zero exit status, or an exception) is recorded in
    [fetch_error] and nothing else changes: [ok] is true, [error] is
    absent, and branch, upstream, behind, ahead and dirty are what the
    remaining queries give, run after the fetch. *)
Theorem C2_failed_fetch_keeps_the_snapshot
  (p : string) (w wf wb wu wc wd : World) (r : Git.run_outcome)
  (br up : option string) (ba : Z * Z) (d : Z) :
  isdir p w = true ->
  isdir (Git.path_join p ".git") w = true ->
  subprocess_run ["git"; "fetch"; "--all"; "--prune"] p w = (r, wf) ->
  Git.fetch_failed r ->
  get_branch p wf = (br, wb) ->
  get_upstream p br wb = (up, wu) ->
  range_counts p up wu = (ba, wc) ->
  get_dirty_count p wc = (d, wd) ->
  check_repo_status p w =
    ({| Git.ok := true; Git.repo_path := p;
        Git.branch := br; Git.upstream := up;
        Git.behind := fst ba; Git.ahead := snd ba; Git.dirty := d;
        Git.fetch_error :=
          Some (Py.strip (Py.str_or (Git.failure_text r) "fetch failed"));
        Git.error := None |}, wd).
Proof.
  intros Hd Hg Hrun Hfail Hb Hu Hc Hdirty.
  destruct r as [rc out err | exc].
  - rewrite (check_repo_status_valid p w wf wb wu wc wd rc out err br up ba d);
      try assumption.
    + simpl in Hfail. apply Z.eqb_neq in Hfail. rewrite Hfail. reflexivity.
    + unfold Git.run_git. rewrite Hrun. reflexivity.
  - rewrite (check_repo_status_valid p w wf wb wu wc wd 1 EmptyString exc br up ba d);
      try assumption.
    + reflexivity.
    + unfold Git.run_git. rewrite Hrun. reflexivity.
Qed.

(** C3.  In a valid repository, when an upstream is resolved (a name that
    is not empty), [behind] is the count of the range query
    [rev-list --count HEAD..<upstream>] and [ahead] the count of the
    separate query [rev-list --count <upstream>..HEAD], each being 0 when
    its own query fails or prints no number; when no upstream is resolved,
    [behind] and [ahead] are 0 and [has_updates] is false. *)
Theorem C3_behind_and_ahead_are_the_range_counts
  (p : string) (w wf wb wu : World) (rf : Z * string * string)
  (br up : option string) :
  isdir p w = true ->
  isdir (Git.path_join p ".git") w = true ->
  run_git ["fetch"; "--all"; "--prune"] p w = (rf, wf) ->
  get_branch p wf = (br, wb) ->
  get_upstream p br wb = (up, wu) ->
  let st := fst (check_repo_status p w) in
  Git.upstream st = up /\
  (forall u rb w1 ra w2,
      up = Some u -> Py.truthy u = true ->
      run_git ["rev-list"; "--count"; ("HEAD.." ++ u)%string] p wu = (rb, w1) ->
      run_git ["rev-list"; "--count"; (u ++ "..HEAD")%string] p w1 = (ra, w2) ->
      Git.behind st = Git.range_count rb /\ Git.ahead st = Git.range_count ra) /\
  (Py.truthy_opt up = false ->
      Git.behind st = 0 /\ Git.ahead st = 0 /\ Git.has_updates st = false).
Proof.
  intros Hd Hg Hf Hb Hu st.
  destruct rf as [[rc out] err].
  destruct (range_counts p up wu) as [ba wc] eqn:Hc.
  destruct (get_dirty_count p wc) as [d wd] eqn:Hdirty.
  assert (Hst : st =
    {| Git.ok := true; Git.repo_path := p;
       Git.branch := br; Git.upstream := up;
       Git.behind := fst ba; Git.ahead := snd ba; Git.dirty := d;
       Git.fetch_error :=
         if negb (rc =? 0)
         then Some (Py.strip (Py.str_or err "fetch failed")) else None;
       Git.error := None |}).
  { unfold st.
    rewrite (check_repo_status_valid p w wf wb wu wc wd rc out err br up ba d);
      try assumption.
    reflexivity. }
  rewrite Hst. cbn [Git.upstream Git.behind Git.ahead].
  split; [reflexivity|]. split.
  - intros u rb w1 ra w2 Hup Tu Hrb Hra. subst up.
    unfold Git.range_counts in Hc. rewrite Tu in Hc.
    unfold Git.bind at 1 in Hc. rewrite Hrb in Hc.
    unfold Git.bind at 1 in Hc. rewrite Hra in Hc.
    unfold Git.ret in Hc. injection Hc as Hba _. subst ba.
    split; reflexivity.
  - intros Hno. unfold Git.range_counts in Hc.
    assert (Hz : ba = (0, 0)).
    { destruct up as [u|]; cbn [Py.truthy_opt] in Hno.
      - rewrite Hno in Hc. unfold Git.ret in Hc. congruence.
      - unfold Git.ret in Hc. congruence. }
    subst ba. repeat split; reflexivity.
Qed.

(** C8.  A path that is not a directory gives [ok = false] and the error
    [Repository path not found]; a directory without a [.git]
    directory gives [ok = false] and the error [Not a git repository];
    both times [behind], [ahead] and [dirty] are 0 and [branch] and
    [upstream] are absent. *)
Theorem C8_validation_failures (p : string) (w : World) :
  (isdir p w = false ->
     let st := fst (check_repo_status p w) in
     Git.ok st = false /\ Git.error st = Some "Repository path not found" /\
     Git.behind st = 0 /\ Git.ahead st = 0 /\ Git.dirty st = 0 /\
     Git.branch st = None /\ Git.upstream st = None) /\
  (isdir p w = true -> isdir (Git.path_join p ".git") w = false ->
     let st := fst (check_repo_status p w) in
     Git.ok st = false /\ Git.error st = Some "Not a git repository" /\
     Git.behind st = 0 /\ Git.ahead st = 0 /\ Git.dirty st = 0 /\
     Git.branch st = None /\ Git.upstream st = None).
Proof.
  split.
  - intros Hd. unfold Git.check_repo_status. rewrite Hd.
    cbn. repeat split; reflexivity.
  - intros Hd Hg. unfold Git.check_repo_status. rewrite Hd, Hg.
    cbn. repeat split; reflexivity.
Qed.

End RepoStatusFacts.

(** C10.  For every status, [has_updates] is true exactly when [ok] is
    true and [behind] is above 0. *)
Theorem C10_has_updates_iff (s : Git.RepoStatus) :
  Git.has_updates s = true <-> (Git.ok s = true /\ 0 < Git.behind s).
Proof.
  unfold Git.has_updates. destruct (Git.ok s).
  - rewrite Z.ltb_lt. tauto.
  - split; [discriminate | intros [H _]; discriminate].
Qed.

Lemma C2_failed_fetch_keeps_the_snapshot_witness :
  SampleRepo.check "/repo" SampleRepo.offline =
    ({| Git.ok := true; Git.repo_path := "/repo";
        Git.branch := Some "main"; Git.upstream := Some "origin/main";
        Git.behind := 2; Git.ahead := 1; Git.dirty := 1;
        Git.fetch_error := Some "fatal: unable to access remote";
        Git.error := None |},
     snd (SampleRepo.check "/repo" SampleRepo.offline)).
Proof.
  etransitivity.
  - unfold SampleRepo.check.
    eapply (C2_failed_fetch_keeps_the_snapshot
              SampleRepo.World SampleRepo.isdir SampleRepo.subprocess_run
              "/repo" SampleRepo.offline).
    + reflexivity.
    + reflexivity.
    + reflexivity.
    + simpl. discriminate.
    + reflexivity.
    + reflexivity.
    + reflexivity.
    + reflexivity.
  - vm_compute. reflexivity.
Defined.

Lemma C3_behind_and_ahead_are_the_range_counts_witness :
  let st := fst (SampleRepo.check "/repo" SampleRepo.offline) in
  Git.upstream st = Some "origin/main" /\ Git.behind st = 2 /\ Git.ahead st = 1.
Proof.
  intros st.
  edestruct (C3_behind_and_ahead_are_the_range_counts
               SampleRepo.World SampleRepo.isdir SampleRepo.subprocess_run
               "/repo" SampleRepo.offline) as [Hup [Hcounts _]].
  - reflexivity.
  - reflexivity.
  - reflexivity.
  - reflexivity.
  - reflexivity.
  - split; [exact Hup|].
    edestruct (Hcounts "origin/main") as [Hb Ha].
    + reflexivity.
    + reflexivity.
    + reflexivity.
    + reflexivity.
    + split; [exact Hb | exact Ha].
Defined.

Lemma C8_validation_failures_witness :
  Git.error (fst (SampleRepo.check "/repo" SampleRepo.nothing))
    = Some "Repository path not found" /\
  Git.error (fst (SampleRepo.check "/repo" SampleRepo.plain_dir))
    = Some "Not a git repository".
Proof.
  split.
  - destruct (C8_validation_failures
                SampleRepo.World SampleRepo.isdir SampleRepo.subprocess_run
                "/repo" SampleRepo.nothing) as [H _].
    destruct (H eq_refl) as [_ [He _]]. exact He.
  - destruct (C8_validation_failures
                SampleRepo.World SampleRepo.isdir SampleRepo.subprocess_run
                "/repo" SampleRepo.plain_dir) as [_ H].
    destruct (H eq_refl eq_refl) as [_ [He _]]. exact He.
Defined.

Lemma C10_has_updates_iff_witness :
  Git.has_updates (fst (SampleRepo.check "/repo" SampleRepo.offline)) = true.
Proof.
  apply (proj2 (C10_has_updates_iff _)).
  split; [reflexivity | reflexivity].
Defined.

(* ================================================================== *)
(** ** The streaming runner *)
(* ================================================================== *)

Section RunnerFacts.

Variable A : Type.
Variable is_empty : A -> bool.
Variable render : A -> string.

Lemma read_loop_spec (reads : list (Stream.read_event A)) :
  forall delivered,
    Stream.read_loop A is_empty render reads delivered =
    delivered ++ map render (Stream.lines_read A is_empty reads)
              ++ Stream.stream_error A is_empty reads.
Proof.
  induction reads as [|ev rest IH]; intros delivered; simpl.
  - rewrite app_nil_r. reflexivity.
  - destruct ev as [line | ex].
    + destruct (is_empty line); simpl.
      * rewrite app_nil_r. reflexivity.
      * rewrite IH, <- app_assoc. reflexivity.
    + reflexivity.
Qed.

(** C1, as the code has it.  When the child starts, [on_line] gets the
    lines read from it in write order, then the diagnostic of a failed
    read if there was one, then one last line [[exit <code>]] with the
    code the call returns; when the spawn fails, [on_line] gets a single
    [[error] failed to spawn: ...] line, no exit line, and the call
    returns 1. *)
Theorem C1_lines_in_order_then_exit_line (po : Stream.popen_outcome A) :
  match po with
  | Stream.Started p =>
      Stream.stream_process_lines A is_empty render po =
        (map render (Stream.lines_read A is_empty (Stream.stdout p))
           ++ Stream.stream_error A is_empty (Stream.stdout p)
           ++ [Stream.exit_line (Stream.wait p)],
         Stream.wait p)
      /\ Stream.ends_with_exit_line (Stream.stream_process_lines A is_empty render po)
  | Stream.PopenRaised ex =>
      Stream.stream_process_lines A is_empty render po =
        ([("[error] failed to spawn: " ++ ex ++ nl)%string], 1)
  end.
Proof.
  destruct po as [p | ex]; [|reflexivity].
  assert (E : Stream.stream_process_lines A is_empty render (Stream.Started p) =
        (map render (Stream.lines_read A is_empty (Stream.stdout p))
           ++ Stream.stream_error A is_empty (Stream.stdout p)
           ++ [Stream.exit_line (Stream.wait p)],
         Stream.wait p)).
  { unfold Stream.stream_process_lines. rewrite read_loop_spec.
    cbn [app]. rewrite <- app_assoc. reflexivity. }
  split; [exact E|].
  rewrite E. unfold Stream.ends_with_exit_line. cbn [fst snd].
  exists (map render (Stream.lines_read A is_empty (Stream.stdout p))
            ++ Stream.stream_error A is_empty (Stream.stdout p)).
  rewrite <- app_assoc. reflexivity.
Qed.

End RunnerFacts.

(** C1 as stated fails when the spawn fails: the only line delivered is
    the spawn diagnostic, and the call returns 1 without an exit line. *)
Lemma C1_spawn_failure_has_no_exit_line :
  let r := Stream.stream_text
             (Stream.PopenRaised "[Errno 2] No such file or directory: 'nosuch'") in
  fst r = [("[error] failed to spawn: [Errno 2] No such file or directory: 'nosuch'"
            ++ nl)%string]
  /\ snd r = 1
  /\ ~ Stream.ends_with_exit_line r.
Proof.
  cbv zeta. split; [reflexivity|]. split; [reflexivity|].
  intros [body Hbody]. cbn [fst snd Stream.stream_text Stream.stream_process_lines] in Hbody.
  destruct body as [|x [|y body]].
  - cbn in Hbody. injection Hbody as H. discriminate H.
  - cbn in Hbody. discriminate Hbody.
  - cbn in Hbody. discriminate Hbody.
Qed.

(* ================================================================== *)
(** ** The line reader of the pseudo-terminal *)
(* ================================================================== *)

Section ReaderFacts.

Lemma read1_none (cs : list string) :
  PTY.read1 cs = None -> PTY.flat cs = EmptyString /\ PTY.pending cs = O.
Proof.
  induction cs as [|c r IH]; simpl; [auto|].
  destruct c as [|a s]; [|discriminate].
  intros H. destruct (IH H) as [Hf Hp]. simpl. auto.
Qed.

Lemma read1_some (cs cs' : list string) (c : ascii) :
  PTY.read1 cs = Some (c, cs') ->
  PTY.flat cs = String c (PTY.flat cs') /\ PTY.pending cs = S (PTY.pending cs').
Proof.
  induction cs as [|x r IH]; simpl; [discriminate|].
  destruct x as [|a s].
  - intros H. destruct (IH H) as [Hf Hp]. simpl. auto.
  - intros H. injection H as Ha Hcs. subst c cs'. simpl. auto.
Qed.

Lemma contains_nl_snoc (b : string) (c : ascii) :
  PTY.contains_nl (b ++ String c EmptyString) = PTY.contains_nl b || Ascii.eqb c LF.
Proof.
  induction b as [|a b IH]; simpl.
  - destruct (Ascii.eqb c LF); reflexivity.
  - destruct (Ascii.eqb a LF); [reflexivity | exact IH].
Qed.

Lemma split_nl_snoc (b : string) :
  PTY.contains_nl b = false ->
  PTY.split_nl (b ++ nl) = (b, EmptyString).
Proof.
  induction b as [|a b IH]; simpl; [reflexivity|].
  destruct (Ascii.eqb a LF); [discriminate|].
  intros H. rewrite (IH H). reflexivity.
Qed.

Lemma first_line_at_newline (b r : string) :
  PTY.contains_nl b = false ->
  PTY.first_line (b ++ String LF r) = Some ((b ++ nl)%string, r).
Proof.
  induction b as [|a b IH]; simpl; [reflexivity|].
  destruct (Ascii.eqb a LF); [discriminate|].
  intros H. rewrite (IH H). reflexivity.
Qed.

Lemma first_line_none (s : string) :
  PTY.contains_nl s = false -> PTY.first_line s = None.
Proof.
  induction s as [|a s IH]; simpl; [reflexivity|].
  destruct (Ascii.eqb a LF); [discriminate|].
  intros H. rewrite (IH H). reflexivity.
Qed.

Lemma append_snoc (b r : string) (c : ascii) :
  ((b ++ String c EmptyString) ++ r)%string = (b ++ String c r)%string.
Proof. induction b as [|a b IH]; simpl; [reflexivity | rewrite IH; reflexivity]. Qed.

Lemma append_empty (b : string) : (b ++ EmptyString)%string = b.
Proof. induction b as [|a b IH]; simpl; [reflexivity | rewrite IH; reflexivity]. Qed.

(** With fuel above the number of arrived characters the loop ends, and
    it ends as [line_spec] says. *)
Lemma readline_loop_spec (fuel : nat) :
  forall self,
    PTY.contains_nl (PTY._buffer self) = false ->
    (PTY.pending (PTY.chunks (PTY._stream self)) < fuel)%nat ->
    exists r self',
      PTY.readline_loop fuel self = Some (r, self') /\
      PTY.line_spec self r self' /\
      PTY.contains_nl (PTY._buffer self') = false.
Proof.
  induction fuel as [|fuel IH]; intros [[cs e] buf] Hbuf Hfuel;
    cbn [PTY._buffer PTY._stream PTY.chunks PTY.ending] in *; [lia|].
  cbn [PTY.readline_loop PTY._buffer PTY._stream PTY.chunks PTY.ending].
  destruct (PTY.read1 cs) as [[c cs']|] eqn:R.
  - destruct (read1_some _ _ _ R) as [Hflat Hpend].
    rewrite contains_nl_snoc, Hbuf. cbn [orb].
    destruct (Ascii.eqb c LF) eqn:Ec.
    + apply Ascii.eqb_eq in Ec. subst c.
      change (String LF EmptyString) with nl.
      rewrite (split_nl_snoc buf Hbuf).
      eexists; eexists; split; [reflexivity|]. split; [|reflexivity].
      unfold PTY.line_spec.
      cbn [PTY._buffer PTY._stream PTY.chunks PTY.ending].
      rewrite Hflat, (first_line_at_newline buf _ Hbuf).
      repeat split.
    + destruct (IH {| PTY._stream := {| PTY.chunks := cs'; PTY.ending := e |};
                      PTY._buffer := (buf ++ String c EmptyString)%string |})
        as (r & self' & Hrun & Hspec & Hnl).
      * cbn [PTY._buffer]. rewrite contains_nl_snoc, Hbuf, Ec. reflexivity.
      * cbn [PTY._stream PTY.chunks]. lia.
      * exists r, self'. split; [exact Hrun|]. split; [|exact Hnl].
        unfold PTY.line_spec in *.
        cbn [PTY._buffer PTY._stream PTY.chunks PTY.ending] in *.
        rewrite Hflat. rewrite append_snoc in Hspec. exact Hspec.
  - destruct (read1_none _ R) as [Hflat _].
    assert (Hdata : (buf ++ PTY.flat cs)%string = buf)
      by (rewrite Hflat; apply append_empty).
    destruct e as [| |ex].
    + (* the stream is open: the read waits *)
      eexists; eexists; split; [reflexivity|]. split; [|exact Hbuf].
      unfold PTY.line_spec.
      cbn [PTY._buffer PTY._stream PTY.chunks PTY.ending].
      rewrite Hdata, (first_line_none _ Hbuf). repeat split; try exact Hflat.
    + (* the read returns the empty string *)
      destruct buf as [|a buf'] eqn:Eb; cbn [Py.truthy].
      * eexists; eexists; split; [reflexivity|]. split; [|reflexivity].
        unfold PTY.line_spec.
        cbn [PTY._buffer PTY._stream PTY.chunks PTY.ending].
        rewrite Hflat. cbn. repeat split; try exact Hflat.
      * eexists; eexists; split; [reflexivity|]. split; [|reflexivity].
        unfold PTY.line_spec.
        cbn [PTY._buffer PTY._stream PTY.chunks PTY.ending].
        rewrite Hdata, (first_line_none _ Hbuf). repeat split; try exact Hflat.
    + (* the read raises *)
      eexists; eexists; split; [reflexivity|]. split; [|exact Hbuf].
      unfold PTY.line_spec.
      cbn [PTY._buffer PTY._stream PTY.chunks PTY.ending].
      rewrite Hdata, (first_line_none _ Hbuf). repeat split; try exact Hflat.
Qed.

(** [readline] is total and meets [line_spec]. *)
Lemma readline_spec (self : PTY.PTYStdout) :
  PTY.contains_nl (PTY._buffer self) = false ->
  PTY.line_spec self (fst (PTY.readline self)) (snd (PTY.readline self)) /\
  PTY.contains_nl (PTY._buffer (snd (PTY.readline self))) = false.
Proof.
  intros Hbuf. unfold PTY.readline.
  destruct (readline_loop_spec (S (PTY.pending (PTY.chunks (PTY._stream self)))) self Hbuf)
    as (r & self' & Hrun & Hspec & Hnl); [lia|].
  rewrite Hrun. cbn [fst snd]. split; assumption.
Qed.

Lemma read1_of_nothing (cs : list string) :
  PTY.flat cs = EmptyString -> PTY.read1 cs = None.
Proof.
  induction cs as [|c r IH]; [reflexivity|].
  simpl. destruct c as [|a s]; [|discriminate].
  exact IH.
Qed.

(** Once the stream has ended with an empty read and nothing is left,
    every call returns the empty string. *)
Lemma readlines_at_end (n : nat) (cs : list string) :
  PTY.flat cs = EmptyString ->
  let self := {| PTY._stream := {| PTY.chunks := cs; PTY.ending := PTY.EndOfFile |};
                 PTY._buffer := EmptyString |} in
  PTY.readlines n self = (repeat (PTY.Returns EmptyString) n, self).
Proof.
  intros Hflat self.
  assert (Hone : PTY.readline self = (PTY.Returns EmptyString, self)).
  { unfold PTY.readline, self.
    cbn [PTY.readline_loop PTY._stream PTY.chunks PTY.ending PTY._buffer].
    rewrite (read1_of_nothing cs Hflat). reflexivity. }
  induction n as [|n IH]; [reflexivity|].
  cbn [PTY.readlines repeat]. rewrite Hone, IH. reflexivity.
Qed.

(** Once the reads raise and no arrived data is left, every call raises
    and the reader stays as it is, whatever it holds in its buffer. *)
Lemma readlines_at_hang_up (n : nat) (cs : list string) (ex buf : string) :
  PTY.flat cs = EmptyString ->
  let self := {| PTY._stream := {| PTY.chunks := cs; PTY.ending := PTY.HangUp ex |};
                 PTY._buffer := buf |} in
  PTY.readlines n self = (repeat (PTY.Raises ex) n, self).
Proof.
  intros Hflat self.
  assert (Hone : PTY.readline self = (PTY.Raises ex, self)).
  { unfold PTY.readline, self.
    cbn [PTY.readline_loop PTY._stream PTY.chunks PTY.ending PTY._buffer].
    rewrite (read1_of_nothing cs Hflat). reflexivity. }
  induction n as [|n IH]; [reflexivity|].
  cbn [PTY.readlines repeat]. rewrite Hone, IH. reflexivity.
Qed.

End ReaderFacts.

(** C4.  [readline] cuts lines at newlines only, wherever the chunk
    boundaries fall: from a buffer without a newline it returns the first
    line of the data taken as one string, and leaves such a buffer.  For
    the data [ab], [c\n], [d] (in these three chunks or any others) the
    first call returns [abc\n] and the next one waits as long as the stream
    is open.  What follows depends on how the end of the stream shows.
    When the read returns the empty string, the call returns [d] without a
    newline and every later call returns the empty string, as the
    specification has it.  When the read raises, which is how the master
    side of a pseudo-terminal ends, the call raises instead of returning
    [d], [d] stays in the buffer, and every later call raises again: [d]
    is never returned. *)
Theorem C4_lines_only_at_newlines :
  (forall self,
      PTY.contains_nl (PTY._buffer self) = false ->
      PTY.line_spec self (fst (PTY.readline self)) (snd (PTY.readline self)) /\
      PTY.contains_nl (PTY._buffer (snd (PTY.readline self))) = false) /\
  (forall cs,
      PTY.flat cs = PTY.flat PTY.three_chunks ->
      let s0 := PTY.PTYStdout_init {| PTY.chunks := cs; PTY.ending := PTY.StillOpen |} in
      let (r1, s1) := PTY.readline s0 in
      let (r2, s2) := PTY.readline s1 in
      r1 = PTY.Returns ("abc" ++ nl)%string /\
      r2 = PTY.Blocks /\
      (let (r3, s3) := PTY.readline (PTY.close s2) in
       r3 = PTY.Returns "d" /\
       forall n, fst (PTY.readlines n s3) = repeat (PTY.Returns EmptyString) n) /\
      (forall ex,
          let (r3, s3) := PTY.readline (PTY.hang_up ex s2) in
          r3 = PTY.Raises ex /\
          PTY._buffer s3 = "d" /\
          forall n, PTY.readlines n s3 = (repeat (PTY.Raises ex) n, s3))).
Proof.
  split; [exact readline_spec|].
  intros cs Hcs s0.
  (* first call *)
  destruct (readline_spec s0 eq_refl) as [[He1 H1] Hn1].
  destruct (PTY.readline s0) as [r1 s1] eqn:E1. cbn [fst snd] in *.
  unfold s0 in H1, He1.
  cbn [PTY.PTYStdout_init PTY._buffer PTY._stream PTY.chunks PTY.ending append] in H1, He1.
  rewrite Hcs in H1. cbn in H1. destruct H1 as [Hr1 Hd1].
  (* second call: the stream is open and the data has no newline *)
  destruct (readline_spec s1 Hn1) as [[He2 H2] Hn2].
  destruct (PTY.readline s1) as [r2 s2] eqn:E2. cbn [fst snd] in *.
  rewrite Hd1, He1 in H2. cbn in H2. destruct H2 as [Hf2 [Hr2 Hb2]].
  split; [exact Hr1|]. split; [exact Hr2|].
  assert (Hdata2 : (PTY._buffer s2 ++ PTY.flat (PTY.chunks (PTY._stream s2)))%string
                   = "d").
  { rewrite Hf2, Hb2. reflexivity. }
  split.
  - (* the end of the stream shows as an empty read *)
    assert (Hnc : PTY.contains_nl (PTY._buffer (PTY.close s2)) = false) by exact Hn2.
    destruct (readline_spec (PTY.close s2) Hnc) as [[He3 H3] Hn3].
    destruct (PTY.readline (PTY.close s2)) as [r3 s3] eqn:E3. cbn [fst snd] in *.
    cbn [PTY.close PTY._buffer PTY._stream PTY.chunks PTY.ending] in H3, He3.
    rewrite Hdata2 in H3. cbn in H3. destruct H3 as [Hf3 [Hr3 Hb3]].
    split; [exact Hr3|].
    intros n.
    destruct s3 as [[cs3 e3] b3].
    cbn [PTY._buffer PTY._stream PTY.chunks PTY.ending] in *.
    subst e3 b3.
    rewrite (readlines_at_end n cs3 Hf3). reflexivity.
  - (* the end of the stream shows as a read that raises *)
    intros ex.
    assert (Hnc : PTY.contains_nl (PTY._buffer (PTY.hang_up ex s2)) = false) by exact Hn2.
    destruct (readline_spec (PTY.hang_up ex s2) Hnc) as [[He3 H3] Hn3].
    destruct (PTY.readline (PTY.hang_up ex s2)) as [r3 s3] eqn:E3. cbn [fst snd] in *.
    cbn [PTY.hang_up PTY._buffer PTY._stream PTY.chunks PTY.ending] in H3, He3.
    rewrite Hdata2 in H3. cbn in H3. destruct H3 as [Hf3 [Hr3 Hb3]].
    split; [exact Hr3|]. split; [exact Hb3|].
    intros n.
    destruct s3 as [[cs3 e3] b3].
    cbn [PTY._buffer PTY._stream PTY.chunks PTY.ending] in *.
    subst e3.
    exact (readlines_at_hang_up n cs3 ex b3 Hf3).
Qed.

Lemma C4_lines_only_at_newlines_witness :
  PTY.line_spec PTY.after_three_writes
    (PTY.Returns ("abc" ++ nl)%string)
    (snd (PTY.readline PTY.after_three_writes)) /\
  (let (r1, s1) := PTY.readline PTY.after_three_writes in
   let (r2, s2) := PTY.readline s1 in
   r1 = PTY.Returns ("abc" ++ nl)%string /\
   r2 = PTY.Blocks /\
   (let (r3, s3) := PTY.readline (PTY.close s2) in
    r3 = PTY.Returns "d" /\
    forall n, fst (PTY.readlines n s3) = repeat (PTY.Returns EmptyString) n) /\
   (forall ex,
       let (r3, s3) := PTY.readline (PTY.hang_up ex s2) in
       r3 = PTY.Raises ex /\
       PTY._buffer s3 = "d" /\
       forall n, PTY.readlines n s3 = (repeat (PTY.Raises ex) n, s3))).
Proof.
  split.
  - exact (proj1 (proj1 C4_lines_only_at_newlines PTY.after_three_writes eq_refl)).
  - exact (proj2 C4_lines_only_at_newlines PTY.three_chunks eq_refl).
Defined.

(* ================================================================== *)
(** ** The input feeder *)
(* ================================================================== *)

Example feed_on_pty :
  Feeder.data_written
    (Feeder._feed SampleTransport.World SampleTransport.os_write
       SampleTransport.never_closed SampleTransport.sleep
       SampleTransport.on_pty ["yes"; "2"] 0)
  = [Py.encode "yes"; Py.encode "2"; Py.encode Feeder.yesforall].
Proof. reflexivity. Qed.

Example feed_on_closing_pipe :
  let st := Feeder._feed SampleTransport.World SampleTransport.os_write
              SampleTransport.closed_at_300 SampleTransport.sleep
              SampleTransport.on_pipe ["yes"; "2"] 0 in
  Feeder.data_written st = [Py.encode "yes"] /\
  Feeder.logged st =
    [ ("[auto-input] 'yes'" ++ nl)%string;
      ("[auto-input] stdin closed; stopping" ++ nl)%string;
      ("[auto-input-error] I/O operation on closed file" ++ nl)%string ].
Proof. split; reflexivity. Qed.

(** A process returned by the spawner has a transport for its input, the
    master descriptor or the pipe, and a feeder thread was started for
    it: the one for the sequence when the sequence is not empty. *)
Lemma spawned_process_has_feeder (e : Spawn.env) (use_pty : bool)
  (auto_input_seq : option (list string)) (cmds : list (list string)) :
  forall log tried p,
    Spawn.result (Spawn.try_cmds e use_pty auto_input_seq cmds log tried) = Some p ->
    Spawn.started (Spawn.try_cmds e use_pty auto_input_seq cmds log tried)
      = Some (Spawn.choose_feeder auto_input_seq) /\
    exists fd, Feeder.active p fd.
Proof.
  induction cmds as [|c rest IH]; intros log tried p; cbn [Spawn.try_cmds].
  - cbn. discriminate.
  - destruct (Spawn.open_transport e use_pty c) as [fds warn].
    destruct (Spawn.popen e c fds) as [sfd | [errno msg | msg]].
    + destruct fds as [[mfd sfd']|]; cbn; intros H; injection H as H; subst p.
      * split; [reflexivity|]. exists mfd. left. reflexivity.
      * split; [reflexivity|]. exists sfd. right. split; reflexivity.
    + destruct (errno =? Spawn.ENOEXEC); [apply IH | cbn; discriminate].
    + cbn. discriminate.
Qed.

Section FeederFacts.

Variable World : Type.
Variable os_write : Z -> list Byte.byte -> World -> option string * World.
Variable closed : Z -> World -> bool.
Variable sleep : Z -> World -> World.

Local Abbreviation write_to := (Feeder.write_to World os_write closed).
Local Abbreviation feed_items := (Feeder.feed_items World os_write closed sleep).
Local Abbreviation send_yesforall := (Feeder.send_yesforall World os_write closed).
Local Abbreviation _feed := (Feeder._feed World os_write closed sleep).

Local Abbreviation healthy := (Feeder.healthy World os_write closed).
Local Abbreviation on_fd := Feeder.on_fd.
Local Abbreviation seen_closed := (Feeder.seen_closed World closed).
Local Abbreviation sentinel_write := (Feeder.sentinel_write World os_write closed).

Lemma write_to_healthy (m pipe : option Z) (fd : Z) (d : list Byte.byte) (w : World) :
  healthy -> on_fd m pipe fd ->
  exists w', write_to m pipe d w = Some (None, w', fd).
Proof.
  intros [Hw Hc] [Hm | [Hm Hp]]; subst; unfold Feeder.write_to.
  - specialize (Hw fd d w). destruct (os_write fd d w) as [r w'].
    cbn in Hw. subst r. eexists; reflexivity.
  - rewrite Hc. specialize (Hw fd d w). destruct (os_write fd d w) as [r w'].
    cbn in Hw. subst r. eexists; reflexivity.
Qed.

Lemma feed_items_healthy (m pipe : option Z) (fd : Z) (items : list string) :
  healthy -> on_fd m pipe fd ->
  forall st,
    Feeder.written (feed_items m pipe items st) =
    Feeder.written st ++ map (fun item => (fd, Py.encode item)) items.
Proof.
  intros Hh Hon. induction items as [|item rest IH]; intros st.
  - cbn. rewrite app_nil_r. reflexivity.
  - cbn [Feeder.feed_items map].
    assert (Hopen : match m with
                    | Some _ => false
                    | None => match pipe with
                              | None => true
                              | Some pfd => closed pfd (Feeder.world st)
                              end
                    end = false).
    { destruct Hon as [Hm | [Hm Hp]]; subst; [reflexivity | apply Hh]. }
    rewrite Hopen.
    destruct (write_to_healthy m pipe fd (Py.encode item) (Feeder.world st) Hh Hon)
      as [w' Hw].
    rewrite Hw, IH. cbn [Feeder.written Feeder.logger].
    rewrite <- app_assoc. reflexivity.
Qed.

(** In every environment the data written is a prefix of the sequence,
    in order, followed by the sentinel or by nothing. *)
Lemma feed_items_prefix (m pipe : option Z) (items : list string) :
  forall st, exists k,
    Feeder.data_written (feed_items m pipe items st) =
    Feeder.data_written st ++ map Py.encode (firstn k items).
Proof.
  induction items as [|item rest IH]; intros st.
  - exists O. cbn. rewrite app_nil_r. reflexivity.
  - cbn [Feeder.feed_items].
    destruct (match m with
              | Some _ => false
              | None => match pipe with
                        | None => true
                        | Some pfd => closed pfd (Feeder.world st)
                        end
              end).
    + exists O. cbn. rewrite app_nil_r. reflexivity.
    + destruct (write_to m pipe (Py.encode item) (Feeder.world st))
        as [[[[ex|] w'] fd]|].
      * exists O. cbn. rewrite app_nil_r. reflexivity.
      * match goal with
        | |- context [feed_items m pipe rest ?s] => destruct (IH s) as [k Hk]
        end.
        exists (S k). rewrite Hk. unfold Feeder.data_written.
        cbn [Feeder.written Feeder.logger firstn map].
        rewrite map_app, <- app_assoc. reflexivity.
      * exists O. cbn. rewrite app_nil_r. reflexivity.
Qed.

Lemma send_yesforall_tail (m pipe : option Z) (st : Feeder.state World) :
  exists tail,
    Feeder.data_written (send_yesforall m pipe st) = Feeder.data_written st ++ tail /\
    (tail = [] \/ tail = [Py.encode Feeder.yesforall]).
Proof.
  unfold Feeder.send_yesforall.
  destruct (write_to m pipe (Py.encode Feeder.yesforall) (Feeder.world st))
    as [[[[ex|] w'] fd]|].
  - exists []. split; [|left; reflexivity].
    unfold Feeder.data_written. cbn. rewrite app_nil_r. reflexivity.
  - exists [Py.encode Feeder.yesforall]. split; [|right; reflexivity].
    unfold Feeder.data_written. cbn [Feeder.written Feeder.logger].
    rewrite map_app. reflexivity.
  - exists []. split; [|left; reflexivity].
    unfold Feeder.data_written. cbn. rewrite app_nil_r. reflexivity.
Qed.

Lemma feed_run_healthy (m q : option Z) (fd : Z) (items : list string) (w : World) :
  healthy -> on_fd m q fd ->
  Feeder.written
    (send_yesforall m q
       (feed_items m q items
          {| Feeder.world := w; Feeder.written := []; Feeder.logged := [] |})) =
  map (fun item => (fd, Py.encode item)) items ++ [(fd, Py.encode Feeder.yesforall)].
Proof.
  intros Hh Hon. unfold Feeder.send_yesforall.
  match goal with
  | |- context [write_to m q ?d ?w0] =>
      destruct (write_to_healthy m q fd d w0 Hh Hon) as [w' Hw]
  end.
  rewrite Hw. cbn [Feeder.written Feeder.logger].
  rewrite (feed_items_healthy m q fd _ Hh Hon). reflexivity.
Qed.


End FeederFacts.



(* ================================================================== *)
(** ** Spawning the installer *)
(* ================================================================== *)

Example spawn_without_shebang :
  let o := SampleSpawn.install SampleSpawn.setup_without_shebang in
  Spawn.attempts o = [["./setup"; "install"]; ["fish"; "./setup"; "install"]] /\
  Spawn.result o =
    Some {| args := ["fish"; "./setup"; "install"]; _pty_master_fd := Some 3;
            stdin := None |} /\
  Spawn.started o = Some Spawn.FeedYesforall /\
  Spawn.logged o =
    [ ("[warn] Exec format error with ./setup install; trying fallback..." ++ nl)%string;
      ("[spawn/pty] fish ./setup install" ++ nl)%string ].
Proof. repeat split. Qed.

Example spawn_nothing_runs :
  let o := SampleSpawn.install SampleSpawn.nothing_runs in
  Spawn.attempts o =
    [["./setup"; "install"]; ["fish"; "./setup"; "install"]; ["sh"; "./setup"; "install"]] /\
  Spawn.result o = None /\
  Spawn.last_logged o = Some ("[error] All setup execution fallbacks failed." ++ nl)%string.
Proof. repeat split. Qed.

Section SpawnerFacts.

Variable e : Spawn.env.
Variable use_pty : bool.
Variable auto_input_seq : option (list string).

Local Abbreviation try_cmds := (Spawn.try_cmds e use_pty auto_input_seq).
Local Abbreviation spawn_setup_install :=
  (Spawn.spawn_setup_install e use_pty auto_input_seq).

Lemma last_logged_snoc (r : option Popen) (s : option Spawn.feeder)
  (log : list string) (msg : string) (tried : list (list string)) :
  Spawn.last_logged
    {| Spawn.result := r; Spawn.started := s; Spawn.logged := log ++ [msg];
       Spawn.attempts := tried |} = Some msg.
Proof. unfold Spawn.last_logged. cbn [Spawn.logged]. rewrite rev_unit. reflexivity. Qed.

(** One turn of the loop on an exec format error: a warning, and on to
    the remaining commands. *)
Lemma try_cmds_exec_format (cmd : list string) (rest : list (list string))
  (log : list string) (tried : list (list string)) (msg : string) :
  Spawn.fails_with e cmd Spawn.ENOEXEC msg ->
  exists log', try_cmds (cmd :: rest) log tried = try_cmds rest log' (tried ++ [cmd]).
Proof.
  intros Hfail. cbn [Spawn.try_cmds].
  destruct (Spawn.open_transport e use_pty cmd) as [fds warn].
  rewrite (Hfail fds). cbn. eexists. reflexivity.
Qed.

(** One turn of the loop on any other exception: the error is logged and
    the call returns [None]. *)
Lemma try_cmds_other_error (cmd : list string) (rest : list (list string))
  (log : list string) (tried : list (list string)) (ex : Spawn.exn) :
  Spawn.raises e cmd ex -> Spawn.is_enoexec ex = false ->
  exists log',
    try_cmds (cmd :: rest) log tried =
    {| Spawn.result := None; Spawn.started := None;
       Spawn.logged := log' ++ [("[error] " ++ Spawn.str_of_exn ex ++ nl)%string];
       Spawn.attempts := tried ++ [cmd] |}.
Proof.
  intros Hfail Hno. cbn [Spawn.try_cmds].
  destruct (Spawn.open_transport e use_pty cmd) as [fds warn].
  rewrite (Hfail fds).
  destruct ex as [errno msg | msg]; cbn in Hno |- *.
  - rewrite Hno. eexists. reflexivity.
  - eexists. reflexivity.
Qed.

Lemma try_cmds_skip (pre : list (list string)) :
  forall rest log tried,
    Forall (fun c => exists msg, Spawn.fails_with e c Spawn.ENOEXEC msg) pre ->
    exists log', try_cmds (pre ++ rest) log tried = try_cmds rest log' (tried ++ pre).
Proof.
  induction pre as [|c pre IH]; intros rest log tried Hall.
  - exists log. rewrite app_nil_r. reflexivity.
  - inversion Hall as [|c' pre' [msg Hc] Hpre]; subst.
    destruct (try_cmds_exec_format c (pre ++ rest) log tried msg Hc) as [log1 H1].
    destruct (IH rest log1 (tried ++ [c]) Hpre) as [log2 H2].
    exists log2. cbn [app]. rewrite H1, H2, <- app_assoc. reflexivity.
Qed.

(** Every command the loop gets to is handed to [Popen]. *)
Lemma try_cmds_attempts (cmds : list (list string)) :
  forall log tried,
    exists more,
      Spawn.attempts (try_cmds cmds log tried) = tried ++ more /\
      match cmds with
      | [] => more = []
      | c :: _ => exists more', more = c :: more'
      end.
Proof.
  induction cmds as [|c rest IH]; intros log tried.
  - exists []. cbn. rewrite app_nil_r. split; reflexivity.
  - cbn [Spawn.try_cmds].
    destruct (Spawn.open_transport e use_pty c) as [fds warn].
    destruct (Spawn.popen e c fds) as [sfd | [errno msg | msg]].
    + exists [c]. destruct fds as [[mfd sfd']|]; cbn; split; eauto.
    + destruct (errno =? Spawn.ENOEXEC).
      * destruct (IH (log ++ warn ++
                        [("[warn] Exec format error with " ++ Py.join " " c
                          ++ "; trying fallback..." ++ nl)%string])
                     (tried ++ [c])) as [more [Hm _]].
        exists (c :: more). split; [|eauto].
        rewrite <- app_assoc in Hm. rewrite <- app_assoc. exact Hm.
      * exists [c]. cbn. split; eauto.
    + exists [c]. cbn. split; eauto.
Qed.

(** One turn of the loop on a command that starts: its process is
    returned and no other command is tried. *)
Lemma try_cmds_spawned (cmd : list string) (rest : list (list string))
  (log : list string) (tried : list (list string)) :
  (forall fds, exists stdin_fd, Spawn.popen e cmd fds = Spawn.Spawned stdin_fd) ->
  Spawn.attempts (try_cmds (cmd :: rest) log tried) = tried ++ [cmd] /\
  exists p,
    Spawn.result (try_cmds (cmd :: rest) log tried) = Some p /\ args p = cmd.
Proof.
  intros Hstart. cbn [Spawn.try_cmds].
  destruct (Spawn.open_transport e use_pty cmd) as [fds warn].
  destruct (Hstart fds) as [stdin_fd Hp]. rewrite Hp.
  destruct fds as [[mfd sfd]|]; (split; [reflexivity|]); eexists; split; reflexivity.
Qed.

(** C6, as the code has it.  When [./setup] fails with an exec format
    error the next attempt is [fish ./setup].  What follows depends on that
    attempt alone: when [fish] starts, its process is returned; when it
    fails in any other way than an exec format error, the error is logged
    and the call returns no process, [sh ./setup] not being tried; when it
    fails with an exec format error too, the one after is [sh ./setup];
    and when that third attempt fails as well, whatever its error, the call
    logs an error as its last message and returns no process. *)
Theorem C6_fallback_order_and_exhaustion
  (extra_args : option (list string)) (msg1 : string) :
  let extra := Py.or_empty extra_args in
  let o := spawn_setup_install extra_args in
  Spawn.fails_with e ("./setup" :: extra) Spawn.ENOEXEC msg1 ->
  (exists more,
      Spawn.attempts o =
        ("./setup" :: extra) :: ("fish" :: "./setup" :: extra) :: more) /\
  ((forall fds, exists stdin_fd,
       Spawn.popen e ("fish" :: "./setup" :: extra) fds = Spawn.Spawned stdin_fd) ->
   Spawn.attempts o = [ "./setup" :: extra; "fish" :: "./setup" :: extra ] /\
   exists p, Spawn.result o = Some p /\ args p = "fish" :: "./setup" :: extra) /\
  (forall ex2,
      Spawn.raises e ("fish" :: "./setup" :: extra) ex2 ->
      Spawn.is_enoexec ex2 = false ->
      Spawn.attempts o = [ "./setup" :: extra; "fish" :: "./setup" :: extra ] /\
      Spawn.result o = None /\
      Spawn.started o = None /\
      Spawn.last_logged o = Some ("[error] " ++ Spawn.str_of_exn ex2 ++ nl)%string) /\
  (forall msg2,
      Spawn.fails_with e ("fish" :: "./setup" :: extra) Spawn.ENOEXEC msg2 ->
      Spawn.attempts o =
        [ "./setup" :: extra; "fish" :: "./setup" :: extra;
          "sh" :: "./setup" :: extra ] /\
      (forall ex3,
          Spawn.raises e ("sh" :: "./setup" :: extra) ex3 ->
          Spawn.result o = None /\
          Spawn.started o = None /\
          Spawn.last_logged o =
            Some (if Spawn.is_enoexec ex3
                  then ("[error] All setup execution fallbacks failed." ++ nl)%string
                  else ("[error] " ++ Spawn.str_of_exn ex3 ++ nl)%string))).
Proof.
  intros extra o H1. unfold o, Spawn.spawn_setup_install, Spawn.base_cmds.
  fold extra.
  destruct (try_cmds_exec_format ("./setup" :: extra)
              [ "fish" :: "./setup" :: extra; "sh" :: "./setup" :: extra ]
              [] [] msg1 H1) as [log1 E1].
  rewrite E1. cbn [app]. split; [|split; [|split]].
  - destruct (try_cmds_attempts
                [ "fish" :: "./setup" :: extra; "sh" :: "./setup" :: extra ]
                log1 ["./setup" :: extra]) as [more [Hm [more' Hhd]]].
    subst more. exists more'. exact Hm.
  - intros Hstart.
    exact (try_cmds_spawned ("fish" :: "./setup" :: extra)
             [ "sh" :: "./setup" :: extra ] log1 ["./setup" :: extra] Hstart).
  - intros ex2 H2 Hno.
    destruct (try_cmds_other_error ("fish" :: "./setup" :: extra)
                [ "sh" :: "./setup" :: extra ]
                log1 ["./setup" :: extra] ex2 H2 Hno) as [log2 E2].
    rewrite E2. cbn [Spawn.result Spawn.started Spawn.attempts].
    rewrite last_logged_snoc. repeat split.
  - intros msg2 H2.
    destruct (try_cmds_exec_format ("fish" :: "./setup" :: extra)
                [ "sh" :: "./setup" :: extra ]
                log1 ["./setup" :: extra] msg2 H2) as [log2 E2].
    rewrite E2. cbn [app]. split.
    + cbn [Spawn.try_cmds].
      destruct (Spawn.open_transport e use_pty ("sh" :: "./setup" :: extra))
        as [fds warn].
      destruct (Spawn.popen e ("sh" :: "./setup" :: extra) fds)
        as [sfd | [errno msg | msg]].
      * destruct fds as [[mfd sfd']|]; reflexivity.
      * destruct (errno =? Spawn.ENOEXEC); reflexivity.
      * reflexivity.
    + intros ex3 H3.
      destruct (Spawn.is_enoexec ex3) eqn:E3.
      * destruct ex3 as [errno msg | msg]; [|discriminate E3].
        cbn in E3. apply Z.eqb_eq in E3. subst errno.
        destruct (try_cmds_exec_format ("sh" :: "./setup" :: extra) []
                    log2 [ "./setup" :: extra; "fish" :: "./setup" :: extra ]
                    msg H3) as [log3 E4].
        rewrite E4. cbn [Spawn.try_cmds Spawn.result Spawn.started].
        rewrite last_logged_snoc. repeat split.
      * destruct (try_cmds_other_error ("sh" :: "./setup" :: extra) []
                    log2 [ "./setup" :: extra; "fish" :: "./setup" :: extra ]
                    ex3 H3 E3) as [log3 E4].
        rewrite E4. cbn [Spawn.result Spawn.started].
        rewrite last_logged_snoc. repeat split.
Qed.

(** C7, as the code has it.  Only an exec format error makes the call go
    on to the next command; any other failure to start a command (a
    missing executable, a permission error, any other exception) ends the
    call at once: the error is logged and no process is returned.  Going
    through the whole chain on exec format errors ends the same way, with
    the message that all fallbacks failed.  Either way the end is a logged
    message and the value [None]. *)
Theorem C7_only_exec_format_errors_fall_back
  (extra_args : option (list string)) (i : nat) (cmd : list string) :
  let cmds := Spawn.base_cmds (Py.or_empty extra_args) in
  let o := spawn_setup_install extra_args in
  nth_error cmds i = Some cmd ->
  Forall (fun c => exists msg, Spawn.fails_with e c Spawn.ENOEXEC msg) (firstn i cmds) ->
  (forall msg,
      Spawn.fails_with e cmd Spawn.ENOEXEC msg ->
      match nth_error cmds (S i) with
      | Some next => exists more, Spawn.attempts o = firstn (S i) cmds ++ next :: more
      | None =>
          Spawn.attempts o = cmds /\ Spawn.result o = None /\
          Spawn.last_logged o =
            Some ("[error] All setup execution fallbacks failed." ++ nl)%string
      end) /\
  (forall ex,
      Spawn.raises e cmd ex -> Spawn.is_enoexec ex = false ->
      Spawn.result o = None /\
      Spawn.attempts o = firstn (S i) cmds /\
      Spawn.last_logged o = Some ("[error] " ++ Spawn.str_of_exn ex ++ nl)%string).
Proof.
  intros cmds o Hnth Hpre.
  destruct (nth_error_split cmds i Hnth) as (pre & rest & Hcmds & Hlen).
  assert (Hfirst : firstn i cmds = pre).
  { rewrite Hcmds, <- Hlen, firstn_app, Nat.sub_diag, firstn_all. cbn.
    apply app_nil_r. }
  assert (Hfirst' : firstn (S i) cmds = pre ++ [cmd]).
  { rewrite Hcmds, <- Hlen, firstn_app, firstn_all2 by lia.
    replace (S (length pre) - length pre)%nat with 1%nat by lia. reflexivity. }
  assert (Hnext : nth_error cmds (S i) = nth_error rest 0).
  { rewrite Hcmds, <- Hlen, nth_error_app2 by lia.
    replace (S (length pre) - length pre)%nat with 1%nat by lia. reflexivity. }
  rewrite Hfirst in Hpre. rewrite Hfirst', Hnext.
  destruct (try_cmds_skip pre (cmd :: rest) [] [] Hpre) as [log0 E0].
  assert (Ho : o = try_cmds (cmd :: rest) log0 pre).
  { unfold o, Spawn.spawn_setup_install. fold cmds. rewrite Hcmds. exact E0. }
  rewrite Ho. split.
  - intros msg Hfail.
    destruct (try_cmds_exec_format cmd rest log0 pre msg Hfail) as [log1 E1].
    rewrite E1. destruct rest as [|next rest'].
    + cbn [nth_error Spawn.try_cmds Spawn.attempts Spawn.result].
      rewrite last_logged_snoc, Hcmds. repeat split.
    + cbn [nth_error].
      destruct (try_cmds_attempts (next :: rest') log1 (pre ++ [cmd]))
        as [more [Hm [more' Hhd]]].
      subst more. exists more'. exact Hm.
  - intros ex Hraise Hno.
    destruct (try_cmds_other_error cmd rest log0 pre ex Hraise Hno) as [log1 E1].
    rewrite E1. cbn [Spawn.result Spawn.attempts].
    rewrite last_logged_snoc. repeat split.
Qed.

End SpawnerFacts.

Lemma C6_fallback_order_and_exhaustion_witness :
  let o := SampleSpawn.install SampleSpawn.nothing_runs in
  Spawn.attempts o =
    [["./setup"; "install"]; ["fish"; "./setup"; "install"]; ["sh"; "./setup"; "install"]] /\
  Spawn.result o = None /\
  Spawn.last_logged o = Some ("[error] All setup execution fallbacks failed." ++ nl)%string.
Proof.
  intros o.
  destruct (C6_fallback_order_and_exhaustion SampleSpawn.nothing_runs true None
              (Some ["install"]) "[Errno 8] Exec format error")
    as [_ [_ [_ Hthen]]].
  - intros fds. reflexivity.
  - destruct (Hthen "[Errno 8] Exec format error") as [Hatt Hall].
    + intros fds. reflexivity.
    + destruct (Hall (Spawn.OSError Spawn.ENOEXEC "[Errno 8] Exec format error"))
        as [Hres [_ Hlog]].
      * intros fds. reflexivity.
      * split; [exact Hatt|]. split; [exact Hres | exact Hlog].
Defined.

(** C6 as stated fails: [./setup] fails with an exec format error and
    [fish] is not installed; the call ends on the error of [fish ./setup]
    and returns no process, and [sh ./setup], which would have started, is
    never tried. *)
Lemma C6_missing_fish_ends_the_chain :
  Spawn.fails_with SampleSpawn.fish_missing ["./setup"; "install"] Spawn.ENOEXEC
    "[Errno 8] Exec format error: './setup'" /\
  (forall fds,
      Spawn.popen SampleSpawn.fish_missing ["sh"; "./setup"; "install"] fds
        = Spawn.Spawned 5) /\
  let o := SampleSpawn.install SampleSpawn.fish_missing in
  Spawn.attempts o = [["./setup"; "install"]; ["fish"; "./setup"; "install"]] /\
  Spawn.result o = None /\
  Spawn.last_logged o =
    Some ("[error] [Errno 2] No such file or directory: 'fish'" ++ nl)%string /\
  ~ In ["sh"; "./setup"; "install"] (Spawn.attempts o).
Proof.
  split; [intros fds; reflexivity|]. split; [intros fds; reflexivity|].
  cbv zeta. split; [reflexivity|]. split; [reflexivity|]. split; [reflexivity|].
  cbn. intros [H | [H | H]]; [discriminate H | discriminate H | exact H].
Qed.

(** C7 as stated fails: a missing [./setup] and a [./setup] without
    execute permission both end the call at the first command, although
    [fish ./setup] and [sh ./setup] would have started. *)
Lemma C7_missing_or_forbidden_setup_aborts :
  (Spawn.fails_with SampleSpawn.setup_missing ["./setup"; "install"] Spawn.ENOENT
     "[Errno 2] No such file or directory: './setup'" /\
   let o := SampleSpawn.install SampleSpawn.setup_missing in
   Spawn.attempts o = [["./setup"; "install"]] /\
   Spawn.result o = None /\
   ~ (exists more,
        Spawn.attempts o =
          ["./setup"; "install"] :: ["fish"; "./setup"; "install"] :: more)) /\
  (Spawn.fails_with SampleSpawn.setup_not_executable ["./setup"; "install"] Spawn.EACCES
     "[Errno 13] Permission denied: './setup'" /\
   let o := SampleSpawn.install SampleSpawn.setup_not_executable in
   Spawn.attempts o = [["./setup"; "install"]] /\
   Spawn.result o = None /\
   ~ (exists more,
        Spawn.attempts o =
          ["./setup"; "install"] :: ["fish"; "./setup"; "install"] :: more)).
Proof.
  split; (split; [intros fds; reflexivity|]);
    cbv zeta; (split; [reflexivity|]); (split; [reflexivity|]);
    intros [more H]; discriminate H.
Qed.

Lemma C7_only_exec_format_errors_fall_back_witness :
  let o := SampleSpawn.install SampleSpawn.setup_missing in
  Spawn.result o = None /\
  Spawn.attempts o = [["./setup"; "install"]] /\
  Spawn.last_logged o =
    Some ("[error] [Errno 2] No such file or directory: './setup'" ++ nl)%string.
Proof.
  intros o.
  destruct (C7_only_exec_format_errors_fall_back SampleSpawn.setup_missing true None
              (Some ["install"]) 0 ["./setup"; "install"] eq_refl (Forall_nil _))
    as [_ Hother].
  exact (Hother
           (Spawn.OSError Spawn.ENOENT "[Errno 2] No such file or directory: './setup'")
           (fun fds => eq_refl) eq_refl).
Defined.

(* ================================================================== *)
(** ** The external terminal launcher *)
(* ================================================================== *)

Example launch_foot_only :
  Launch.launch_install_external SampleLaunch.foot_only "/home/me/dots" (Some ["--fast"]) =
  {| Launch.raised := None;
     Launch.calls :=
       [ (["xterm"; "-e"; "sh"; "-c"; "cd /home/me/dots && ./setup install --fast"], None);
         (["foot"; "sh"; "-c"; "cd /home/me/dots && ./setup install --fast"], None) ] |}.
Proof. reflexivity. Qed.

Example quote_ex :
  Launch.quote "my dots" = "'my dots'" /\ Launch.quote "a_b-c/d.e" = "a_b-c/d.e".
Proof. split; reflexivity. Qed.

Section LauncherFacts.

Variable e : Launch.env.
Variable repo_path : string.
Variable cmd : list string.

Local Abbreviation try_terminals := (Launch.try_terminals e repo_path cmd).

(** An exception leaves the loop only from the direct start after it. *)
Lemma try_terminals_raised (ts : list (string * list string)) :
  forall done ex,
    Launch.raised (try_terminals ts done) = Some ex ->
    Launch.popen e cmd (Some repo_path) = Some ex /\
    exists pre, Launch.calls (try_terminals ts done) = pre ++ [(cmd, Some repo_path)].
Proof.
  induction ts as [|[name base] rest IH]; intros done ex; cbn [Launch.try_terminals].
  - cbn. intros H. split; [exact H|]. exists done. reflexivity.
  - destruct (Py.truthy_opt (Launch.shutil_which e name)).
    + destruct (Launch.popen e (Launch.full_for repo_path cmd base) None).
      * apply IH.
      * cbn. discriminate.
    + apply IH.
Qed.

Lemma try_terminals_direct_ok (ts : list (string * list string)) :
  forall done,
    Launch.popen e cmd (Some repo_path) = None ->
    Launch.raised (try_terminals ts done) = None.
Proof.
  induction ts as [|[name base] rest IH]; intros done Hok; cbn [Launch.try_terminals].
  - exact Hok.
  - destruct (Py.truthy_opt (Launch.shutil_which e name)).
    + destruct (Launch.popen e (Launch.full_for repo_path cmd base) None).
      * apply IH, Hok.
      * reflexivity.
    + apply IH, Hok.
Qed.

Lemma try_terminals_none_found (ts : list (string * list string)) :
  forall done,
    (forall name base, In (name, base) ts ->
        Py.truthy_opt (Launch.shutil_which e name) = false) ->
    try_terminals ts done =
    {| Launch.raised := Launch.popen e cmd (Some repo_path);
       Launch.calls := done ++ [(cmd, Some repo_path)] |}.
Proof.
  induction ts as [|[name base] rest IH]; intros done Hnone; cbn [Launch.try_terminals].
  - reflexivity.
  - rewrite (Hnone name base (or_introl eq_refl)).
    apply IH. intros n b Hin. apply (Hnone n b). right. exact Hin.
Qed.

(** The loop tries the available terminal emulators in the order of the
    list, each after the one before it failed to start, and stops at the
    first that starts; the direct start follows only when none did. *)
Lemma try_terminals_cases (ts : list (string * list string)) :
  forall done,
    let fulls := map (fun t => Launch.full_for repo_path cmd (snd t))
                     (Launch.available e ts) in
    (exists before full after,
        fulls = before ++ full :: after /\
        Forall (Launch.fails_to_start e) before /\
        Launch.popen e full None = None /\
        try_terminals ts done =
        {| Launch.raised := None;
           Launch.calls := done ++ Launch.in_terminal (before ++ [full]) |}) \/
    (Forall (Launch.fails_to_start e) fulls /\
     try_terminals ts done =
     {| Launch.raised := Launch.popen e cmd (Some repo_path);
        Launch.calls := done ++ Launch.in_terminal fulls ++ [(cmd, Some repo_path)] |}).
Proof.
  induction ts as [|[name base] rest IH]; intros done; cbn zeta.
  - right. split; [constructor | reflexivity].
  - unfold Launch.available. cbn [filter fst Launch.try_terminals].
    fold (Launch.available e rest).
    destruct (Py.truthy_opt (Launch.shutil_which e name)); [|apply IH].
    cbn [map snd].
    destruct (Launch.popen e (Launch.full_for repo_path cmd base) None) as [ex|] eqn:Ep.
    + assert (Hfail : Launch.fails_to_start e (Launch.full_for repo_path cmd base)).
      { unfold Launch.fails_to_start. rewrite Ep. discriminate. }
      destruct (IH (done ++ [(Launch.full_for repo_path cmd base, None)]))
        as [(before & full & after & Hf & Hall & Hok & Hrun) | [Hall Hrun]].
      * left. exists (Launch.full_for repo_path cmd base :: before), full, after.
        split; [cbn; rewrite Hf; reflexivity|].
        split; [constructor; assumption|]. split; [exact Hok|].
        rewrite Hrun, <- app_assoc. reflexivity.
      * right. split; [constructor; assumption|].
        rewrite Hrun, <- app_assoc. reflexivity.
    + left. exists [], (Launch.full_for repo_path cmd base),
        (map (fun t => Launch.full_for repo_path cmd (snd t)) (Launch.available e rest)).
      split; [reflexivity|]. split; [constructor|]. split; [exact Ep | reflexivity].
Qed.

End LauncherFacts.

(** C9, as the code has it.  Nothing raised while looking for or starting
    a terminal emulator leaves the call.  The available terminal emulators
    (a search that raises counts as nothing found) are started in the order
    of the list, each after the one before it failed to start; the first
    that starts ends the call, normally and with nothing else started.
    When none is available, or none of the available ones starts, the
    installer is started directly, once, as a child in [repo_path], and the
    call ends as that start does: an exception can only come from this
    direct start, and whenever it does not raise the call returns
    normally. *)
Theorem C9_terminal_failures_are_swallowed
  (e : Launch.env) (repo_path : string) (extra_args : option (list string)) :
  let cmd := "./setup" :: "install" :: Py.or_empty extra_args in
  let o := Launch.launch_install_external e repo_path extra_args in
  let fulls := Launch.available_command_lines e repo_path cmd in
  ((exists before full after,
       fulls = before ++ full :: after /\
       Forall (Launch.fails_to_start e) before /\
       Launch.popen e full None = None /\
       Launch.calls o = Launch.in_terminal (before ++ [full]) /\
       Launch.raised o = None) \/
   (Forall (Launch.fails_to_start e) fulls /\
    Launch.calls o = Launch.in_terminal fulls ++ [(cmd, Some repo_path)] /\
    Launch.raised o = Launch.popen e cmd (Some repo_path))) /\
  (forall ex,
      Launch.raised o = Some ex ->
      Launch.popen e cmd (Some repo_path) = Some ex /\
      exists pre, Launch.calls o = pre ++ [(cmd, Some repo_path)]) /\
  (Launch.none_available e -> Launch.calls o = [(cmd, Some repo_path)]) /\
  (Launch.popen e cmd (Some repo_path) = None -> Launch.raised o = None).
Proof.
  intros cmd o fulls. unfold o, Launch.launch_install_external. fold cmd.
  split; [|split; [|split]].
  - destruct (try_terminals_cases e repo_path cmd Launch.terminals [])
      as [(before & full & after & Hf & Hall & Hok & Hrun) | [Hall Hrun]].
    + left. exists before, full, after. rewrite Hrun.
      split; [exact Hf|]. split; [exact Hall|]. split; [exact Hok|].
      split; reflexivity.
    + right. rewrite Hrun. split; [exact Hall|]. split; reflexivity.
  - intros ex. apply try_terminals_raised.
  - intros Hnone. rewrite (try_terminals_none_found e repo_path cmd _ [] Hnone).
    reflexivity.
  - apply try_terminals_direct_ok.
Qed.

Lemma C9_terminal_failures_are_swallowed_witness :
  Launch.calls (Launch.launch_install_external SampleLaunch.bare "/home/me/dots" None)
    = [(["./setup"; "install"], Some "/home/me/dots")] /\
  Launch.raised (Launch.launch_install_external SampleLaunch.foot_only "/home/me/dots" None)
    = None.
Proof.
  split.
  - apply (proj1 (proj2 (proj2 (C9_terminal_failures_are_swallowed
                                  SampleLaunch.bare "/home/me/dots" None)))).
    intros name base Hin. reflexivity.
  - apply (proj2 (proj2 (proj2 (C9_terminal_failures_are_swallowed
                                  SampleLaunch.foot_only "/home/me/dots" None)))).
    reflexivity.
Defined.

(** C9 as stated fails: with no terminal emulator and no [./setup] to
    start, the exception of the direct start reaches the caller. *)
Lemma C9_direct_start_failure_escapes :
  Launch.launch_install_external SampleLaunch.bare_without_setup "/home/me/dots" None =
  {| Launch.raised := Some "[Errno 2] No such file or directory: './setup'";
     Launch.calls := [(["./setup"; "install"], Some "/home/me/dots")] |}
  /\ Launch.raised
       (Launch.launch_install_external SampleLaunch.bare_without_setup "/home/me/dots" None)
     <> None.
Proof. split; [reflexivity | discriminate]. Qed.

(* ================================================================== *)
(** ** Printing and reading integers *)
(* ================================================================== *)

Section DecimalFacts.

Lemma int_digits_of_uint (d : Decimal.uint) :
  forall acc prev,
    Py.int_digits (NilEmpty.string_of_uint d) acc prev =
    match d with
    | Decimal.Nil => if prev then Some acc else None
    | _ => Some (Py.uint_value d acc)
    end.
Proof.
  induction d; intros acc prev; cbn [NilEmpty.string_of_uint];
    try reflexivity;
    (cbn [Py.int_digits]; cbn; rewrite IHd; destruct d; reflexivity).
Qed.

Lemma uint_value_acc (d : Decimal.uint) :
  forall acc, Z.pos (Pos.of_uint_acc d acc) = Py.uint_value d (Z.pos acc).
Proof.
  induction d; intros acc; cbn [Pos.of_uint_acc Py.uint_value];
    try reflexivity; rewrite IHd; f_equal; lia.
Qed.

Lemma uint_value_of_uint (d : Decimal.uint) :
  Z.of_N (Pos.of_uint d) = Py.uint_value d 0.
Proof.
  induction d; cbn [Pos.of_uint Py.uint_value Z.of_N];
    try reflexivity; try exact IHd; apply uint_value_acc.
Qed.

Lemma no_space_lstrip (s : string) : Py.no_space s = true -> Py.lstrip s = s.
Proof.
  destruct s as [|c r]; [reflexivity|]. cbn. destruct (Py.isspace c); [discriminate|].
  reflexivity.
Qed.

Lemma no_space_rstrip (s : string) : Py.no_space s = true -> Py.rstrip s = s.
Proof.
  induction s as [|c r IH]; [reflexivity|]. cbn [Py.no_space Py.rstrip].
  intros H. apply andb_prop in H. destruct H as [Hc Hr].
  rewrite (IH Hr). destruct r; [|reflexivity].
  apply negb_true_iff in Hc. rewrite Hc. reflexivity.
Qed.

Lemma no_space_strip (s : string) : Py.no_space s = true -> Py.strip s = s.
Proof.
  intros H. unfold Py.strip. rewrite (no_space_lstrip s H). apply no_space_rstrip, H.
Qed.

Lemma no_space_digits (d : Decimal.uint) :
  Py.no_space (NilEmpty.string_of_uint d) = true.
Proof. induction d; cbn; auto. Qed.

Lemma no_space_append (a b : string) :
  Py.no_space (a ++ b) = Py.no_space a && Py.no_space b.
Proof.
  induction a as [|c r IH]; [reflexivity|]. cbn. rewrite IH, andb_assoc. reflexivity.
Qed.

(** The digits of a positive number start with a digit that is neither
    a sign nor empty. *)
Lemma digits_of_pos (p : positive) :
  Py.int (NilEmpty.string_of_uint (Pos.to_uint p)) = Some (Z.pos p).
Proof.
  pose proof (DecimalPos.Unsigned.to_uint_nonnil p) as Hnil.
  pose proof (DecimalPos.Unsigned.of_to p) as Hof.
  pose proof (uint_value_of_uint (Pos.to_uint p)) as Hval.
  rewrite Hof in Hval. cbn [Z.of_N] in Hval.
  pose proof (int_digits_of_uint (Pos.to_uint p) 0 false) as Hd.
  pose proof (no_space_strip _ (no_space_digits (Pos.to_uint p))) as Hs.
  unfold Py.int. rewrite Hs.
  destruct (Pos.to_uint p) as [|l|l|l|l|l|l|l|l|l|l] eqn:E; [congruence| | | | | | | | | |];
    rewrite Hval; exact Hd.
Qed.

(** Reading back what [str] printed gives the number. *)
Lemma int_str_of_int (n : Z) : Py.int (Py.str_of_int n) = Some n.
Proof.
  unfold Py.str_of_int. destruct n as [|p|p]; cbn [Z.to_int NilZero.string_of_int].
  - reflexivity.
  - pose proof (DecimalPos.Unsigned.to_uint_nonnil p) as Hnil.
    unfold NilZero.string_of_uint.
    destruct (Pos.to_uint p) eqn:E; [congruence| | | | | | | | | |];
      rewrite <- E; apply digits_of_pos.
  - pose proof (DecimalPos.Unsigned.to_uint_nonnil p) as Hnil.
    pose proof (digits_of_pos p) as Hp.
    pose proof (no_space_strip _ (no_space_digits (Pos.to_uint p))) as Hs.
    unfold NilZero.string_of_uint.
    assert (Hstr : (match Pos.to_uint p with
                    | Decimal.Nil => "0"
                    | _ => NilEmpty.string_of_uint (Pos.to_uint p)
                    end) = NilEmpty.string_of_uint (Pos.to_uint p))
      by (destruct (Pos.to_uint p); [congruence| | | | | | | | | |]; reflexivity).
    rewrite Hstr.
    unfold Py.int in *. rewrite Hs in Hp.
    assert (Hs' : Py.strip (String "-" (NilEmpty.string_of_uint (Pos.to_uint p)))
                  = String "-" (NilEmpty.string_of_uint (Pos.to_uint p))).
    { apply no_space_strip. cbn. apply no_space_digits. }
    rewrite Hs'. cbn [Py.is_plus Py.is_minus N_of_ascii N.eqb]. cbn.
    pose proof (int_digits_of_uint (Pos.to_uint p) 0 false) as Hd.
    pose proof (uint_value_of_uint (Pos.to_uint p)) as Hval.
    rewrite (DecimalPos.Unsigned.of_to p) in Hval. cbn [Z.of_N] in Hval.
    rewrite Hd.
    destruct (Pos.to_uint p); [congruence| | | | | | | | | |];
      rewrite <- Hval; reflexivity.
Qed.

Lemma str_of_int_injective (a b : Z) : Py.str_of_int a = Py.str_of_int b -> a = b.
Proof.
  intros H. pose proof (int_str_of_int a) as Ha. rewrite H, int_str_of_int in Ha.
  congruence.
Qed.

End DecimalFacts.

(* ================================================================== *)
(** ** More on the repository status *)
(* ================================================================== *)

Section StatusFacts.

Variable World : Type.
Variable isdir : string -> World -> bool.
Variable subprocess_run :
  list string -> string -> World -> Git.run_outcome * World.

Local Abbreviation run_git := (Git.run_git World subprocess_run).
Local Abbreviation get_branch := (Git.get_branch World subprocess_run).
Local Abbreviation get_upstream := (Git.get_upstream World subprocess_run).
Local Abbreviation get_dirty_count := (Git.get_dirty_count World subprocess_run).
Local Abbreviation range_counts := (Git.range_counts World subprocess_run).
Local Abbreviation check_repo_status :=
  (Git.check_repo_status World isdir subprocess_run).

Lemma len_filter_bounds {A} (f : A -> bool) (l : list A) :
  0 <= Py.len (filter f l) <= Py.len l.
Proof.
  unfold Py.len. pose proof (filter_length_le f l). lia.
Qed.

Lemma get_dirty_count_range (p : string) (w w' : World)
  (rc : Z) (out err : string) :
  run_git ["status"; "--porcelain"] p w = ((rc, out, err), w') ->
  let d := fst (get_dirty_count p w) in
  0 <= d <= Py.len (Py.splitlines out) /\
  (rc <> 0 -> d = 0) /\
  snd (get_dirty_count p w) = w'.
Proof.
  intros Hrun d. unfold d, Git.get_dirty_count, Git.bind. rewrite Hrun.
  cbn [fst snd Git.ret]. split; [|split].
  - destruct (rc =? 0); cbn [negb].
    + apply len_filter_bounds.
    + pose proof (len_filter_bounds (fun _ : string => true) (Py.splitlines out)).
      lia.
  - intros Hrc. apply Z.eqb_neq in Hrc. rewrite Hrc. reflexivity.
  - reflexivity.
Qed.

(** The number of changed files is never negative, never more than the
    number of lines the status query printed, and 0 when the query
    failed. *)
Theorem get_dirty_count_bounds (p : string) (w w' : World)
  (rc : Z) (out err : string) :
  run_git ["status"; "--porcelain"] p w = ((rc, out, err), w') ->
  let d := fst (get_dirty_count p w) in
  0 <= d <= Py.len (Py.splitlines out) /\
  (rc <> 0 -> d = 0) /\
  snd (get_dirty_count p w) = w'.
Proof. apply get_dirty_count_range. Qed.

(** Whatever the path and the state of the system: the status names the
    path it was asked about; [ok] holds exactly when the path and its
    [.git] are directories, and exactly when [error] is absent; a status
    that is not [ok] was made without running any command and carries no
    fetch error; and [dirty] is never negative. *)
Theorem check_repo_status_invariants (p : string) (w : World) :
  let st := fst (check_repo_status p w) in
  Git.repo_path st = p /\
  (Git.ok st = true <->
     isdir p w = true /\ isdir (Git.path_join p ".git") w = true) /\
  (Git.ok st = true <-> Git.error st = None) /\
  (Git.ok st = false ->
     snd (check_repo_status p w) = w /\ Git.fetch_error st = None) /\
  0 <= Git.dirty st.
Proof.
  intros st. unfold st.
  destruct (isdir p w) eqn:Hd.
  - destruct (isdir (Git.path_join p ".git") w) eqn:Hg.
    + destruct (run_git ["fetch"; "--all"; "--prune"] p w) as [[[rc out] err] wf] eqn:Hf.
      destruct (get_branch p wf) as [br wb] eqn:Hb.
      destruct (get_upstream p br wb) as [up wu] eqn:Hu.
      destruct (range_counts p up wu) as [ba wc] eqn:Hc.
      destruct (get_dirty_count p wc) as [d wd] eqn:Hdirty.
      rewrite (check_repo_status_valid World isdir subprocess_run
                 p w wf wb wu wc wd rc out err br up ba d Hd Hg Hf Hb Hu Hc Hdirty).
      cbn [fst snd Git.repo_path Git.ok Git.error Git.dirty Git.fetch_error].
      repeat split; try discriminate; try reflexivity.
      destruct (run_git ["status"; "--porcelain"] p wc) as [[[rcs outs] errs] ws] eqn:Hs.
      pose proof (get_dirty_count_range p wc ws rcs outs errs Hs) as [Hbound _].
      rewrite Hdirty in Hbound. cbn [fst] in Hbound. lia.
    + unfold Git.check_repo_status. rewrite Hd, Hg. cbn.
      repeat split; try discriminate; try reflexivity; try lia;
        try (intros [_ H]; discriminate H).
  - unfold Git.check_repo_status. rewrite Hd. cbn.
    repeat split; try discriminate; try reflexivity; try lia;
      try (intros [H _]; discriminate H).
Qed.

(** In a valid repository the fetch error is absent exactly when the
    fetch ended with status 0. *)
Theorem fetch_error_iff_fetch_failed (p : string) (w wf : World)
  (rc : Z) (out err : string) :
  isdir p w = true ->
  isdir (Git.path_join p ".git") w = true ->
  run_git ["fetch"; "--all"; "--prune"] p w = ((rc, out, err), wf) ->
  (Git.fetch_error (fst (check_repo_status p w)) = None <-> rc = 0).
Proof.
  intros Hd Hg Hf.
  destruct (get_branch p wf) as [br wb] eqn:Hb.
  destruct (get_upstream p br wb) as [up wu] eqn:Hu.
  destruct (range_counts p up wu) as [ba wc] eqn:Hc.
  destruct (get_dirty_count p wc) as [d wd] eqn:Hdirty.
  rewrite (check_repo_status_valid World isdir subprocess_run
             p w wf wb wu wc wd rc out err br up ba d Hd Hg Hf Hb Hu Hc Hdirty).
  cbn [fst Git.fetch_error].
  destruct (Z.eqb_spec rc 0) as [E|E]; cbn [negb]; split; intros H;
    try reflexivity; try assumption; try discriminate; contradiction.
Qed.

(** In a valid repository with a resolved upstream, when the two range
    queries end with status 0 and print the numbers [b] and [a] in
    decimal, with any white space around them, [behind] is [b], [ahead] is
    [a], and updates are reported exactly when [b] is positive. *)
Theorem printed_counts_are_read_back
  (p : string) (w wf wb wu w1 w2 : World) (rf : Z * string * string)
  (br : option string) (u : string) (b a : Z) (out_b err_b out_a err_a : string) :
  isdir p w = true ->
  isdir (Git.path_join p ".git") w = true ->
  run_git ["fetch"; "--all"; "--prune"] p w = (rf, wf) ->
  get_branch p wf = (br, wb) ->
  get_upstream p br wb = (Some u, wu) ->
  Py.truthy u = true ->
  run_git ["rev-list"; "--count"; ("HEAD.." ++ u)%string] p wu = ((0, out_b, err_b), w1) ->
  run_git ["rev-list"; "--count"; (u ++ "..HEAD")%string] p w1 = ((0, out_a, err_a), w2) ->
  Py.strip out_b = Py.str_of_int b ->
  Py.strip out_a = Py.str_of_int a ->
  let st := fst (check_repo_status p w) in
  Git.behind st = b /\ Git.ahead st = a /\
  (Git.has_updates st = true <-> 0 < b).
Proof.
  intros Hd Hg Hf Hb Hu Tu Hrb Hra Hsb Hsa st.
  destruct rf as [[rc out] err].
  assert (Hc : range_counts p (Some u) wu = ((b, a), w2)).
  { unfold Git.range_counts. rewrite Tu.
    unfold Git.bind at 1. rewrite Hrb. unfold Git.bind at 1. rewrite Hra.
    unfold Git.ret, Git.range_count. cbn [Z.eqb].
    rewrite <- (int_strip out_b), <- (int_strip out_a), Hsb, Hsa, !int_str_of_int.
    reflexivity. }
  destruct (get_dirty_count p w2) as [d wd] eqn:Hdirty.
  unfold st.
  rewrite (check_repo_status_valid World isdir subprocess_run
             p w wf wb wu w2 wd rc out err br (Some u) (b, a) d
             Hd Hg Hf Hb Hu Hc Hdirty).
  cbn [fst snd Git.behind Git.ahead]. split; [reflexivity|]. split; [reflexivity|].
  unfold Git.has_updates. cbn [Git.ok Git.behind]. apply Z.ltb_lt.
Qed.

(** In a valid repository whose tracking reference cannot be resolved:
    with a known branch the upstream is assumed to be [origin/<branch>],
    and the two counts are those of the range queries against that
    reference; without a branch there is no upstream and both counts
    are 0. *)
Theorem upstream_falls_back_to_origin_branch
  (p : string) (w wf wb wu : World) (rf : Z * string * string)
  (br : option string) (rc : Z) (out err : string) :
  isdir p w = true ->
  isdir (Git.path_join p ".git") w = true ->
  run_git ["fetch"; "--all"; "--prune"] p w = (rf, wf) ->
  get_branch p wf = (br, wb) ->
  run_git ["rev-parse"; "--abbrev-ref"; "--symbolic-full-name"; "@{u}"] p wb
    = ((rc, out, err), wu) ->
  rc <> 0 ->
  let st := fst (check_repo_status p w) in
  Git.branch st = br /\
  (forall b rb w1 ra w2,
      br = Some b -> Py.truthy b = true ->
      run_git ["rev-list"; "--count"; ("HEAD..origin/" ++ b)%string] p wu = (rb, w1) ->
      run_git ["rev-list"; "--count"; ("origin/" ++ b ++ "..HEAD")%string] p w1 = (ra, w2) ->
      Git.upstream st = Some ("origin/" ++ b)%string /\
      Git.behind st = Git.range_count rb /\ Git.ahead st = Git.range_count ra) /\
  (Py.truthy_opt br = false ->
      Git.upstream st = None /\ Git.behind st = 0 /\ Git.ahead st = 0).
Proof.
  intros Hd Hg Hf Hb Hu Hrc st.
  destruct rf as [[rcf outf] errf].
  apply Z.eqb_neq in Hrc.
  set (up := match br with
             | Some b => if Py.truthy b then Some ("origin/" ++ b)%string else None
             | None => None
             end).
  assert (Hup : get_upstream p br wb = (up, wu)).
  { unfold Git.get_upstream, Git.bind. rewrite Hu. unfold Git.ret. rewrite Hrc.
    reflexivity. }
  destruct (range_counts p up wu) as [ba wc] eqn:Hc.
  destruct (get_dirty_count p wc) as [d wd] eqn:Hdirty.
  unfold st.
  rewrite (check_repo_status_valid World isdir subprocess_run
             p w wf wb wu wc wd rcf outf errf br up ba d Hd Hg Hf Hb Hup Hc Hdirty).
  cbn [fst Git.branch Git.upstream Git.behind Git.ahead].
  split; [reflexivity|]. split.
  - intros b rb w1 ra w2 Hbr Tb Hrb Hra. subst br. unfold up in *. rewrite Tb in *.
    split; [reflexivity|].
    unfold Git.range_counts in Hc. cbn [Py.truthy append] in Hc, Hrb, Hra.
    unfold Git.bind at 1 in Hc. rewrite Hrb in Hc.
    unfold Git.bind at 1 in Hc.
    rewrite Hra in Hc. unfold Git.ret in Hc. injection Hc as Hba _. subst ba.
    split; reflexivity.
  - intros Hno.
    assert (Hnone : up = None).
    { unfold up. destruct br as [b|]; [|reflexivity].
      cbn [Py.truthy_opt] in Hno. rewrite Hno. reflexivity. }
    rewrite Hnone in *. unfold Git.range_counts, Git.ret in Hc.
    injection Hc as Hba _. subst ba. repeat split.
Qed.

End StatusFacts.

(* ================================================================== *)
(** ** More on the streaming runner *)
(* ================================================================== *)

Section SentinelFacts.

Lemma string_length_append (a b : string) :
  String.length (a ++ b) = (String.length a + String.length b)%nat.
Proof. induction a as [|c a IH]; cbn; [reflexivity | rewrite IH; reflexivity]. Qed.

Lemma append_cancel_right (c : string) :
  forall a b : string, (a ++ c)%string = (b ++ c)%string -> a = b.
Proof.
  induction a as [|x a IH]; intros [|y b] H; cbn in H.
  - reflexivity.
  - apply (f_equal String.length) in H. cbn in H.
    rewrite string_length_append in H. lia.
  - apply (f_equal String.length) in H. cbn in H.
    rewrite string_length_append in H. lia.
  - injection H as Hx Hab. subst y. f_equal. apply IH, Hab.
Qed.

Lemma exit_line_injective (a b : Z) : Stream.exit_line a = Stream.exit_line b -> a = b.
Proof.
  unfold Stream.exit_line. cbn [append]. intros H.
  injection H as H. apply append_cancel_right in H.
  apply str_of_int_injective, H.
Qed.

Variable A : Type.
Variable is_empty : A -> bool.
Variable render : A -> string.

(** The exit line tells the outcome apart: whenever the last line
    delivered is the exit line of some code, the process had been
    started and that code is its exit status, the value returned. *)
Theorem exit_line_identifies_the_exit_code
  (po : Stream.popen_outcome A) (body : list string) (rc : Z) :
  fst (Stream.stream_process_lines A is_empty render po)
    = body ++ [Stream.exit_line rc] ->
  exists p, po = Stream.Started p /\ Stream.wait p = rc /\
            snd (Stream.stream_process_lines A is_empty render po) = rc.
Proof.
  destruct po as [p | ex]; cbn [Stream.stream_process_lines fst snd]; intros H.
  - apply app_inj_tail in H. destruct H as [_ H].
    exists p. apply exit_line_injective in H. auto.
  - exfalso. change [("[error] failed to spawn: " ++ ex ++ nl)%string]
      with ([] ++ [("[error] failed to spawn: " ++ ex ++ nl)%string]) in H.
    apply app_inj_tail in H. destruct H as [_ H].
    unfold Stream.exit_line in H. cbn [append] in H. discriminate H.
Qed.

End SentinelFacts.

(* ================================================================== *)
(** ** More on the line reader *)
(* ================================================================== *)

Section MoreReaderFacts.

Lemma first_line_shape (s l rest : string) :
  PTY.first_line s = Some (l, rest) ->
  s = (l ++ rest)%string /\ PTY.is_full_line l.
Proof.
  revert l rest. induction s as [|c s IH]; intros l rest; cbn; [discriminate|].
  destruct (Ascii.eqb c LF) eqn:Ec.
  - apply Ascii.eqb_eq in Ec. subst c. intros H. injection H as Hl Hr. subst l rest.
    split; [reflexivity|]. exists EmptyString. split; reflexivity.
  - destruct (PTY.first_line s) as [[l' rest']|]; [|discriminate].
    intros H. injection H as Hl Hr. subst l rest.
    destruct (IH l' rest' eq_refl) as [Hs [pre [Hpre Hnl]]].
    split; [cbn; rewrite <- Hs; reflexivity|].
    exists (String c pre). split; [cbn; rewrite Hpre; reflexivity|].
    cbn. rewrite Ec. exact Hnl.
Qed.

Lemma first_line_none_inv (s : string) :
  PTY.first_line s = None -> PTY.contains_nl s = false.
Proof.
  induction s as [|c s IH]; cbn; [reflexivity|].
  destruct (Ascii.eqb c LF); [discriminate|].
  destruct (PTY.first_line s) as [[l rest]|]; [discriminate|].
  intros _. apply IH. reflexivity.
Qed.

Lemma append_is_empty (a b : string) :
  (a ++ b)%string = EmptyString -> a = EmptyString /\ b = EmptyString.
Proof. destruct a; cbn; [auto | discriminate]. Qed.

(** What a returned string tells the caller.  The empty string is
    returned only when the stream has ended and nothing is buffered or
    unread; any other returned string is a full line, ending with its
    only newline, or else the stream has ended and the string is the
    unterminated rest of the data. *)
Theorem readline_result_meaning (self : PTY.PTYStdout) (line : string) :
  PTY.contains_nl (PTY._buffer self) = false ->
  fst (PTY.readline self) = PTY.Returns line ->
  let stream := PTY._stream self in
  (line = EmptyString ->
     PTY.eof stream = true /\ PTY._buffer self = EmptyString /\
     PTY.flat (PTY.chunks stream) = EmptyString) /\
  (line <> EmptyString ->
     PTY.is_full_line line \/
     (PTY.eof stream = true /\ PTY.contains_nl line = false /\
      line = (PTY._buffer self ++ PTY.flat (PTY.chunks stream))%string)).
Proof.
  intros Hbuf Hret stream.
  destruct (readline_spec self Hbuf) as [[_ Hspec] _].
  rewrite Hret in Hspec. fold stream in Hspec.
  destruct (PTY.first_line (PTY._buffer self ++ PTY.flat (PTY.chunks stream)))
    as [[l rest]|] eqn:E.
  - destruct Hspec as [Hl _]. injection Hl as Hl. subst l.
    destruct (first_line_shape _ _ _ E) as [_ Hfull].
    split.
    + intros Hempty. subst line. destruct Hfull as [pre [Hpre _]].
      destruct pre; discriminate Hpre.
    + intros _. left. exact Hfull.
  - destruct Hspec as [_ Hr]. unfold PTY.eof.
    destruct (PTY.ending stream) as [| |ex];
      [destruct Hr as [Hr _]; discriminate Hr | | destruct Hr as [Hr _]; discriminate Hr].
    destruct Hr as [Hr _]. injection Hr as Hr. split.
    + intros Hempty. rewrite Hempty in Hr. symmetry in Hr.
      destruct (append_is_empty _ _ Hr) as [Hb Hf]. auto.
    + intros _. right. split; [reflexivity|]. split; [|exact Hr].
      rewrite Hr. apply first_line_none_inv, E.
Qed.

Lemma concat_cons (x : string) (xs : list string) :
  String.concat EmptyString (x :: xs) = (x ++ String.concat EmptyString xs)%string.
Proof. destruct xs; cbn; [symmetry; apply append_empty | reflexivity]. Qed.

Lemma append_append (a b c : string) :
  ((a ++ b) ++ c)%string = (a ++ (b ++ c))%string.
Proof. induction a as [|x a IH]; cbn; [reflexivity | rewrite IH; reflexivity]. Qed.

(** The reading loop neither loses, repeats nor reorders data, and it
    delivers an unterminated rest only at an end of the stream that shows
    as an empty read.  The lines delivered, put end to end and followed by
    what is left in the reader's buffer, are the data that was buffered and
    unread, whatever the chunks it came in, and nothing stays unread in the
    stream.  After an empty read at the end the buffer is left empty, so
    the lines are all the data.  When the read raises at the end (the
    pseudo-terminal after a hang-up), or while the stream is open, every
    line delivered is a full line, the rest without a newline stays in the
    buffer, and the next call raises (or waits) again. *)
Theorem read_all_reassembles_the_data (fuel : nat) :
  forall self,
    PTY.contains_nl (PTY._buffer self) = false ->
    (String.length (PTY._buffer self ++ PTY.flat (PTY.chunks (PTY._stream self)))
       < fuel)%nat ->
    let lines := fst (PTY.read_all fuel self) in
    let self' := snd (PTY.read_all fuel self) in
    (String.concat EmptyString lines ++ PTY._buffer self')%string =
      (PTY._buffer self ++ PTY.flat (PTY.chunks (PTY._stream self)))%string /\
    PTY.flat (PTY.chunks (PTY._stream self')) = EmptyString /\
    PTY.contains_nl (PTY._buffer self') = false /\
    match PTY.ending (PTY._stream self) with
    | PTY.EndOfFile => PTY._buffer self' = EmptyString
    | PTY.StillOpen =>
        Forall PTY.is_full_line lines /\ fst (PTY.readline self') = PTY.Blocks
    | PTY.HangUp ex =>
        Forall PTY.is_full_line lines /\ fst (PTY.readline self') = PTY.Raises ex
    end.
Proof.
  induction fuel as [|fuel IH]; intros self Hbuf Hfuel; [lia|].
  cbn zeta. cbn [PTY.read_all].
  destruct (readline_spec self Hbuf) as [[He Hspec] Hnl].
  destruct (PTY.readline self) as [r self1] eqn:E. cbn [fst snd] in *.
  set (data := (PTY._buffer self ++ PTY.flat (PTY.chunks (PTY._stream self)))%string) in *.
  destruct (PTY.first_line data) as [[l rest]|] eqn:F.
  - (* a full line is delivered and the loop goes on *)
    destruct Hspec as [Hr Hrest]. subst r.
    destruct (first_line_shape _ _ _ F) as [Hdata Hfull].
    assert (Hlen : (1 <= String.length l)%nat).
    { destruct Hfull as [pre [Hpre _]]. rewrite Hpre, string_length_append. cbn. lia. }
    assert (Ht : Py.truthy l = true) by (destruct l; [cbn in Hlen; lia | reflexivity]).
    rewrite Ht.
    assert (Hfuel1 : (String.length
                        (PTY._buffer self1 ++ PTY.flat (PTY.chunks (PTY._stream self1)))
                      < fuel)%nat).
    { rewrite Hrest. rewrite Hdata, string_length_append in Hfuel. lia. }
    specialize (IH self1 Hnl Hfuel1). cbn zeta in IH.
    destruct (PTY.read_all fuel self1) as [lines self2]. cbn [fst snd] in *.
    destruct IH as (Hcat & Hflat & Hnl2 & Hend).
    rewrite He in Hend.
    split; [|split; [exact Hflat | split; [exact Hnl2|]]].
    + rewrite concat_cons, append_append, Hcat, Hrest. symmetry. exact Hdata.
    + destruct (PTY.ending (PTY._stream self)) as [| |ex].
      * destruct Hend as [Hall Hnext]. split; [constructor; assumption | exact Hnext].
      * exact Hend.
      * destruct Hend as [Hall Hnext]. split; [constructor; assumption | exact Hnext].
  - (* no newline is left in the data *)
    destruct Hspec as [Hflat1 Hspec].
    assert (Hnext : forall r1,
               PTY._buffer self1 = data ->
               (forall q, PTY.line_spec self1 r1 q ->
                          match PTY.ending (PTY._stream self) with
                          | PTY.EndOfFile => True
                          | PTY.StillOpen => r1 = PTY.Blocks
                          | PTY.HangUp ex => r1 = PTY.Raises ex
                          end)).
    { intros r1 Hb1 q [_ Hq]. rewrite Hflat1, append_empty, Hb1, F, He in Hq.
      destruct (PTY.ending (PTY._stream self)); [apply Hq | exact I | apply Hq]. }
    destruct (PTY.ending (PTY._stream self)) as [| |ex] eqn:End.
    + destruct Hspec as [Hr Hb1]. subst r. cbn [fst snd].
      split; [exact Hb1|]. split; [exact Hflat1|]. split; [exact Hnl|].
      split; [constructor|].
      exact (Hnext _ Hb1 _ (proj1 (readline_spec self1 Hnl))).
    + destruct Hspec as [Hr Hb1]. subst r.
      destruct data as [|c data'] eqn:D; cbn [Py.truthy fst snd].
      * split; [rewrite Hb1; reflexivity|]. split; [exact Hflat1|].
        split; [exact Hnl | exact Hb1].
      * assert (Hfuel1 : (String.length
                            (PTY._buffer self1 ++ PTY.flat (PTY.chunks (PTY._stream self1)))
                          < fuel)%nat).
        { rewrite Hb1, Hflat1. cbn in Hfuel |- *. lia. }
        specialize (IH self1 Hnl Hfuel1). cbn zeta in IH.
        destruct (PTY.read_all fuel self1) as [lines self2]. cbn [fst snd] in *.
        destruct IH as (Hcat & Hflat & Hnl2 & Hend).
        rewrite He in Hend. rewrite Hb1, Hflat1 in Hcat. cbn in Hcat.
        destruct (append_is_empty _ _ Hcat) as [Hlines Hb2].
        split; [|split; [exact Hflat | split; [exact Hnl2 | exact Hend]]].
        rewrite concat_cons, Hlines, Hb2. rewrite !append_empty. reflexivity.
    + destruct Hspec as [Hr Hb1]. subst r. cbn [fst snd].
      split; [exact Hb1|]. split; [exact Hflat1|]. split; [exact Hnl|].
      split; [constructor|].
      exact (Hnext _ Hb1 _ (proj1 (readline_spec self1 Hnl))).
Qed.

End MoreReaderFacts.

(* ================================================================== *)
(** ** More on the input feeder *)
(* ================================================================== *)

Section MoreFeederFacts.

Variable World : Type.
Variable os_write : Z -> list Byte.byte -> World -> option string * World.
Variable closed : Z -> World -> bool.
Variable sleep : Z -> World -> World.

Local Abbreviation write_to := (Feeder.write_to World os_write closed).
Local Abbreviation feed_items := (Feeder.feed_items World os_write closed sleep).
Local Abbreviation send_yesforall := (Feeder.send_yesforall World os_write closed).
Local Abbreviation _feed := (Feeder._feed World os_write closed sleep).
Local Abbreviation _feed_yesforall := (Feeder._feed_yesforall World os_write closed sleep).
Local Abbreviation healthy := (Feeder.healthy World os_write closed).

(** The transport of a process, as the two feeders compute it. *)
Lemma active_cases (p : Popen) (fd : Z) :
  Feeder.active p fd ->
  (_pty_master_fd p = Some fd /\
   Feeder.on_fd (Some fd) None fd) \/
  (_pty_master_fd p = None /\ stdin p = Some fd /\
   Feeder.on_fd None (Some fd) fd).
Proof.
  unfold Feeder.active, Feeder.on_fd.
  destruct (_pty_master_fd p) as [m|]; intros [H | [H1 H2]]; try discriminate.
  - injection H as H. subst m. left. auto.
  - right. auto.
Qed.

Lemma feed_yesforall_healthy (p : Popen) (w : World) (fd : Z) :
  healthy -> Feeder.active p fd ->
  Feeder.written (_feed_yesforall p w) = [(fd, Py.encode Feeder.yesforall)].
Proof.
  intros Hh Hact. unfold Feeder._feed_yesforall, Feeder.send_yesforall.
  destruct (active_cases p fd Hact) as [[Hm Hon] | [Hm [Hq Hon]]]; rewrite Hm;
    try rewrite Hq;
    match goal with
    | |- context [write_to ?m ?q ?d ?w0] =>
        destruct (write_to_healthy World os_write closed m q fd d w0 Hh Hon)
          as [w' Hw]; rewrite Hw
    end; reflexivity.
Qed.

Lemma feed_healthy (p : Popen) (items : list string) (w : World) (fd : Z) :
  healthy -> Feeder.active p fd ->
  Feeder.written (_feed p items w) =
    map (fun item => (fd, Py.encode item)) items ++ [(fd, Py.encode Feeder.yesforall)].
Proof.
  intros Hh Hact. unfold Feeder._feed.
  destruct (active_cases p fd Hact) as [[Hm Hon] | [Hm [Hq Hon]]]; rewrite Hm.
  - exact (feed_run_healthy World os_write closed sleep (Some fd) None fd items
             (sleep 200 w) Hh Hon).
  - rewrite Hq.
    exact (feed_run_healthy World os_write closed sleep None (Some fd) fd items
             (sleep 200 w) Hh Hon).
Qed.

(** For every sequence: when every write is accepted and the transport
    is not closed, the feeder writes the items in order and then the
    sentinel, all to the transport of the process. *)
Theorem feed_writes_items_then_sentinel
  (p : Popen) (items : list string) (w : World) (fd : Z) :
  healthy -> Feeder.active p fd ->
  Feeder.written (_feed p items w) =
    map (fun item => (fd, Py.encode item)) items ++ [(fd, Py.encode Feeder.yesforall)].
Proof. intros Hh Hact. apply feed_healthy; assumption. Qed.

(** The baseline feeder writes the sentinel once when the write is
    accepted; for an object without any input transport it writes nothing
    and still logs the sentinel as sent. *)
Theorem feed_yesforall_baseline (p : Popen) (w : World) :
  (forall fd,
      healthy -> Feeder.active p fd ->
      Feeder.written (_feed_yesforall p w) = [(fd, Py.encode Feeder.yesforall)]) /\
  (_pty_master_fd p = None -> stdin p = None ->
      Feeder.written (_feed_yesforall p w) = [] /\
      Feeder.logged (_feed_yesforall p w) = [Feeder.sent_message Feeder.yesforall]).
Proof.
  split.
  - intros fd Hh Hact. apply feed_yesforall_healthy; assumption.
  - intros Hm Hq. unfold Feeder._feed_yesforall, Feeder.send_yesforall.
    rewrite Hm, Hq. split; reflexivity.
Qed.

Lemma write_to_fd (m q : option Z) (fd fd' : Z) (d : list Byte.byte)
  (w w' : World) (r : option string) :
  Feeder.on_fd m q fd -> write_to m q d w = Some (r, w', fd') -> fd' = fd.
Proof.
  unfold Feeder.write_to. intros [Hm | [Hm Hq]]; subst.
  - destruct (os_write fd d w). intros H. injection H as _ _ H. auto.
  - destruct (closed fd w); [|destruct (os_write fd d w)];
      intros H; injection H as _ _ H; auto.
Qed.

Lemma feed_items_on_fd (m q : option Z) (fd : Z) (items : list string) :
  Feeder.on_fd m q fd ->
  forall st, exists k,
    Feeder.written (feed_items m q items st) =
    Feeder.written st ++ map (fun item => (fd, Py.encode item)) (firstn k items).
Proof.
  intros Hon. induction items as [|item rest IH]; intros st.
  - exists O. cbn. rewrite app_nil_r. reflexivity.
  - cbn [Feeder.feed_items].
    destruct (match m with
              | Some _ => false
              | None => match q with
                        | None => true
                        | Some pfd => closed pfd (Feeder.world st)
                        end
              end).
    + exists O. cbn. rewrite app_nil_r. reflexivity.
    + destruct (write_to m q (Py.encode item) (Feeder.world st))
        as [[[[ex|] w'] fd']|] eqn:Hw.
      * exists O. cbn. rewrite app_nil_r. reflexivity.
      * rewrite (write_to_fd m q fd fd' _ _ _ _ Hon Hw).
        match goal with
        | |- context [feed_items m q rest ?s] => destruct (IH s) as [k Hk]
        end.
        exists (S k). rewrite Hk. cbn [Feeder.written Feeder.logger firstn map].
        rewrite <- app_assoc. reflexivity.
      * exists O. cbn. rewrite app_nil_r. reflexivity.
Qed.

(** In every environment, whatever fails: the feeder writes to the
    transport of the process only, and what it writes is the first items
    of the sequence, in order, followed by the sentinel or by nothing.
    Without a transport it writes nothing. *)
Theorem feeder_writes_only_its_sequence
  (p : Popen) (items : list string) (w : World) :
  (forall fd,
      Feeder.active p fd ->
      exists k tail,
        Feeder.written (_feed p items w) =
          map (fun item => (fd, Py.encode item)) (firstn k items) ++ tail /\
        (tail = [] \/ tail = [(fd, Py.encode Feeder.yesforall)])) /\
  (_pty_master_fd p = None -> stdin p = None ->
      Feeder.written (_feed p items w) = []).
Proof.
  split.
  - intros fd Hact. unfold Feeder._feed.
    assert (Hgen : forall m q, Feeder.on_fd m q fd ->
      exists k tail,
        Feeder.written
          (send_yesforall m q
             (feed_items m q items
                {| Feeder.world := sleep 200 w; Feeder.written := [];
                   Feeder.logged := [] |})) =
          map (fun item => (fd, Py.encode item)) (firstn k items) ++ tail /\
        (tail = [] \/ tail = [(fd, Py.encode Feeder.yesforall)])).
    { intros m q Hon.
      destruct (feed_items_on_fd m q fd items Hon
                  {| Feeder.world := sleep 200 w; Feeder.written := [];
                     Feeder.logged := [] |}) as [k Hk].
      cbn [Feeder.written app] in Hk.
      unfold Feeder.send_yesforall.
      destruct (write_to m q (Py.encode Feeder.yesforall) _)
        as [[[[ex|] w'] fd']|] eqn:Hw.
      - exists k, []. cbn [Feeder.written Feeder.logger]. rewrite Hk, app_nil_r. auto.
      - rewrite (write_to_fd m q fd fd' _ _ _ _ Hon Hw).
        exists k, [(fd, Py.encode Feeder.yesforall)].
        cbn [Feeder.written Feeder.logger]. rewrite Hk. auto.
      - exists k, []. cbn [Feeder.written Feeder.logger]. rewrite Hk, app_nil_r. auto. }
    destruct (active_cases p fd Hact) as [[Hm Hon] | [Hm [Hq Hon]]]; rewrite Hm.
    + apply Hgen, Hon.
    + rewrite Hq. apply Hgen, Hon.
  - intros Hm Hq. unfold Feeder._feed. rewrite Hm, Hq. reflexivity.
Qed.

(** A write of an item that raises ends the loop over the items, not the
    feeder: the sentinel is still attempted, and it is written when that
    write is accepted. *)
Theorem failed_item_does_not_stop_the_sentinel
  (p : Popen) (mfd : Z) (item : string) (rest : list string)
  (w w1 w2 : World) (ex : string) :
  _pty_master_fd p = Some mfd ->
  os_write mfd (Py.encode item) (sleep 200 w) = (Some ex, w1) ->
  os_write mfd (Py.encode Feeder.yesforall) w1 = (None, w2) ->
  Feeder.written (_feed p (item :: rest) w) = [(mfd, Py.encode Feeder.yesforall)] /\
  Feeder.logged (_feed p (item :: rest) w) =
    [Feeder.error_message ex; Feeder.sent_message Feeder.yesforall].
Proof.
  intros Hm H1 H2. unfold Feeder._feed. rewrite Hm.
  assert (E1 :
    feed_items (Some mfd) None (item :: rest)
      {| Feeder.world := sleep 200 w; Feeder.written := []; Feeder.logged := [] |} =
    {| Feeder.world := w1; Feeder.written := [];
       Feeder.logged := [Feeder.error_message ex] |}).
  { cbn [Feeder.feed_items Feeder.world]. unfold Feeder.write_to.
    rewrite H1. reflexivity. }
  rewrite E1. unfold Feeder.send_yesforall, Feeder.write_to.
  cbn [Feeder.world]. rewrite H2. split; reflexivity.
Qed.

Lemma closed_message_not_sent (item : string) :
  Feeder.closed_message <> Feeder.sent_message item.
Proof.
  unfold Feeder.closed_message, Feeder.sent_message, Py.repr. cbn [append].
  intros H. injection H as H.
  destruct (Py.contains_char Py.SQUOTE item && negb (Py.contains_char Py.DQUOTE item));
    discriminate H.
Qed.

Lemma closed_message_not_error (ex : string) :
  Feeder.closed_message <> Feeder.error_message ex.
Proof.
  unfold Feeder.closed_message, Feeder.error_message. cbn [append].
  intros H. discriminate H.
Qed.

(** The loop over the items on a pipe: the closed message is logged only
    when the pipe was found closed before an item, and the pipe is then
    still closed when the loop is left. *)
Lemma feed_items_closed (pfd : Z) (items : list string) :
  forall st,
    ~ In Feeder.closed_message (Feeder.logged st) ->
    exists k,
      Feeder.written (feed_items None (Some pfd) items st) =
        Feeder.written st ++ map (fun item => (pfd, Py.encode item)) (firstn k items) /\
      (In Feeder.closed_message (Feeder.logged (feed_items None (Some pfd) items st)) ->
         (k < length items)%nat /\
         closed pfd (Feeder.world (feed_items None (Some pfd) items st)) = true).
Proof.
  induction items as [|item rest IH]; intros st Hlog.
  - exists O. cbn. rewrite app_nil_r. split; [reflexivity | intros H; contradiction].
  - cbn [Feeder.feed_items].
    destruct (closed pfd (Feeder.world st)) eqn:Hc.
    + exists O. cbn [Feeder.logger Feeder.written Feeder.world firstn map length].
      rewrite app_nil_r. split; [reflexivity|]. intros _. split; [lia | exact Hc].
    + unfold Feeder.write_to. rewrite Hc.
      destruct (os_write pfd (Py.encode item) (Feeder.world st)) as [[ex|] w'].
      * exists O. cbn [Feeder.logger Feeder.written Feeder.logged firstn map].
        rewrite app_nil_r. split; [reflexivity|].
        intros H. apply in_app_or in H. destruct H as [H | [H | []]];
          [contradiction | exfalso; exact (closed_message_not_error ex (eq_sym H))].
      * match goal with
        | |- context [feed_items None (Some pfd) rest ?s] =>
            destruct (IH s) as [k [Hk Hstop]]
        end.
        { cbn [Feeder.logger Feeder.logged]. intros H. apply in_app_or in H.
          destruct H as [H | [H | []]];
            [contradiction | exact (closed_message_not_sent item (eq_sym H))]. }
        exists (S k). split.
        -- rewrite Hk. cbn [Feeder.logger Feeder.written firstn map].
           rewrite <- app_assoc. reflexivity.
        -- intros H. destruct (Hstop H) as [Hlt Hcl]. split; [cbn; lia | exact Hcl].
Qed.

(** For every sequence on a pipe: once the feeder has reported the pipe
    closed, it writes nothing more, the sentinel included; what was
    written is the items before the one at which the pipe was found
    closed. *)
Theorem closed_pipe_stops_every_sequence
  (p : Popen) (pfd : Z) (items : list string) (w : World) :
  _pty_master_fd p = None -> stdin p = Some pfd ->
  In Feeder.closed_message (Feeder.logged (_feed p items w)) ->
  exists k,
    (k < length items)%nat /\
    Feeder.written (_feed p items w) =
      map (fun item => (pfd, Py.encode item)) (firstn k items).
Proof.
  intros Hm Hq. unfold Feeder._feed. rewrite Hm, Hq.
  set (st1 := {| Feeder.world := sleep 200 w; Feeder.written := [];
                 Feeder.logged := [] |}).
  destruct (feed_items_closed pfd items st1 (fun H => H)) as [k [Hk Hstop]].
  set (st2 := feed_items None (Some pfd) items st1) in *.
  unfold Feeder.send_yesforall, Feeder.write_to.
  destruct (closed pfd (Feeder.world st2)) eqn:Hc.
  - cbn [Feeder.logger Feeder.logged Feeder.written].
    intros H. apply in_app_or in H. destruct H as [H | [H | []]].
    + destruct (Hstop H) as [Hlt _]. exists k. split; [exact Hlt | exact Hk].
    + exfalso. exact (closed_message_not_error _ (eq_sym H)).
  - destruct (os_write pfd (Py.encode Feeder.yesforall) (Feeder.world st2))
      as [[ex|] w'];
      cbn [Feeder.logger Feeder.logged Feeder.written];
      intros H; apply in_app_or in H; destruct H as [H | [H | []]].
    + destruct (Hstop H) as [_ Hcl]. congruence.
    + exfalso. exact (closed_message_not_error _ (eq_sym H)).
    + destruct (Hstop H) as [_ Hcl]. congruence.
    + exfalso. exact (closed_message_not_sent _ (eq_sym H)).
Qed.

End MoreFeederFacts.

(* ================================================================== *)
(** ** More on spawning the installer *)
(* ================================================================== *)

Section MoreSpawnerFacts.

Variable e : Spawn.env.
Variable use_pty : bool.
Variable auto_input_seq : option (list string).

Local Abbreviation try_cmds := (Spawn.try_cmds e use_pty auto_input_seq).
Local Abbreviation spawn_setup_install :=
  (Spawn.spawn_setup_install e use_pty auto_input_seq).

(** What the loop leaves behind, for any list of commands. *)
Lemma try_cmds_outcome (cmds : list (list string)) :
  forall log tried,
    let o := try_cmds cmds log tried in
    exists done,
      Spawn.attempts o = tried ++ done /\
      done = firstn (length done) cmds /\
      match Spawn.result o with
      | Some p =>
          Spawn.started o = Some (Spawn.choose_feeder auto_input_seq) /\
          (exists pre, done = pre ++ [args p] /\
                       Forall (Spawn.exec_format_failure e use_pty) pre) /\
          Spawn.transport_matches e use_pty p /\
          Spawn.last_logged o = Some (Spawn.spawn_message p)
      | None =>
          Spawn.started o = None /\
          exists msg, Spawn.last_logged o = Some ("[error] " ++ msg ++ nl)%string
      end.
Proof.
  induction cmds as [|c rest IH]; intros log tried; cbn zeta.
  - cbn [Spawn.try_cmds]. exists []. rewrite app_nil_r.
    cbn [Spawn.attempts Spawn.result Spawn.started]. rewrite last_logged_snoc.
    repeat split. eexists. reflexivity.
  - cbn [Spawn.try_cmds].
    destruct (Spawn.open_transport e use_pty c) as [fds warn] eqn:Ht.
    destruct (Spawn.popen e c fds) as [sfd | [errno msg | msg]] eqn:Hp.
    + exists [c]. destruct fds as [[mfd sfd']|];
        cbn [Spawn.attempts Spawn.result Spawn.started]; rewrite last_logged_snoc;
        (split; [reflexivity|]); (split; [reflexivity|]);
        (split; [reflexivity|]);
        (split; [exists []; split; [reflexivity | constructor]|]);
        (split; [|reflexivity]);
        unfold Spawn.transport_matches; cbn [args]; rewrite Ht; cbn [fst];
        cbn [_pty_master_fd stdin]; eauto.
    + destruct (errno =? Spawn.ENOEXEC) eqn:Ee.
      * apply Z.eqb_eq in Ee. subst errno.
        match goal with
        | |- context [try_cmds rest ?l ?t] => destruct (IH l t) as [done [Hatt [Hpre Hres]]]
        end.
        exists (c :: done). split; [rewrite Hatt, <- app_assoc; reflexivity|].
        split; [cbn [length firstn]; f_equal; exact Hpre|].
        match goal with
        | |- match Spawn.result ?o with _ => _ end =>
            destruct (Spawn.result o) as [p|]
        end.
        -- destruct Hres as [Hs [[pre [Hd Hall]] [Htr Hlog]]].
           split; [exact Hs|]. split; [|split; assumption].
           exists (c :: pre). split; [rewrite Hd; reflexivity|].
           constructor; [|exact Hall].
           exists msg. rewrite Ht. exact Hp.
        -- exact Hres.
      * exists [c]. cbn [Spawn.attempts Spawn.result Spawn.started].
        rewrite last_logged_snoc. repeat split. eexists. reflexivity.
    + exists [c]. cbn [Spawn.attempts Spawn.result Spawn.started].
      rewrite last_logged_snoc. repeat split. eexists. reflexivity.
Qed.

(** Every call of the spawner, whatever the system does: the commands
    handed to [Popen] are the first ones of the chain, in its order.  A
    returned process is the last command tried, every command before it
    having ended on an exec format error; it runs on the pseudo-terminal
    opened for it or else on a pipe, never both; its feeder was started;
    and the last message names it.  Without a returned process no feeder
    was started and the last message is an [[error]] line. *)
Theorem spawn_outcome_explained (extra_args : option (list string)) :
  let cmds := Spawn.base_cmds (Py.or_empty extra_args) in
  let o := spawn_setup_install extra_args in
  Spawn.attempts o = firstn (length (Spawn.attempts o)) cmds /\
  (length (Spawn.attempts o) <= 3)%nat /\
  match Spawn.result o with
  | Some p =>
      Spawn.started o = Some (Spawn.choose_feeder auto_input_seq) /\
      (exists pre, Spawn.attempts o = pre ++ [args p] /\
                   Forall (Spawn.exec_format_failure e use_pty) pre) /\
      Spawn.transport_matches e use_pty p /\
      Spawn.last_logged o = Some (Spawn.spawn_message p)
  | None =>
      Spawn.started o = None /\
      exists msg, Spawn.last_logged o = Some ("[error] " ++ msg ++ nl)%string
  end.
Proof.
  intros cmds o. unfold o, Spawn.spawn_setup_install. fold cmds.
  destruct (try_cmds_outcome cmds [] []) as [done [Hatt [Hpre Hres]]].
  cbn [app] in Hatt. rewrite Hatt.
  split; [exact Hpre|]. split; [|exact Hres].
  rewrite Hpre, length_firstn. unfold cmds, Spawn.base_cmds. cbn [length]. lia.
Qed.

(** A pseudo-terminal that cannot be opened does not abort the spawn:
    the command is started on pipes, after a warning. *)
Theorem pty_failure_degrades_to_pipes
  (extra_args : option (list string)) (ex : string) (stdin_fd : Z) :
  let cmd := "./setup" :: Py.or_empty extra_args in
  let o := Spawn.spawn_setup_install e true auto_input_seq extra_args in
  Spawn.openpty e cmd = inr ex ->
  Spawn.popen e cmd None = Spawn.Spawned stdin_fd ->
  Spawn.result o =
    Some {| args := cmd; _pty_master_fd := None; stdin := Some stdin_fd |} /\
  Spawn.attempts o = [cmd] /\
  Spawn.logged o =
    [ ("[pty-warn] failed to open pty: " ++ ex ++ "; fallback no-pty" ++ nl)%string;
      ("[spawn] " ++ Py.join " " cmd ++ nl)%string ].
Proof.
  intros cmd o Hpty Hpopen. unfold o, Spawn.spawn_setup_install, Spawn.base_cmds.
  fold cmd. cbn [Spawn.try_cmds]. unfold Spawn.open_transport.
  rewrite Hpty, Hpopen. repeat split.
Qed.

End MoreSpawnerFacts.

(** The spawner and its feeder together: whatever sequence was asked for
    (none, an empty one, or some items), the input a returned process gets
    over a transport that accepts every write is that sequence followed
    by the sentinel, on the descriptor of its transport. *)
Theorem spawned_installer_input
  (e : Spawn.env) (use_pty : bool) (auto_input_seq extra_args : option (list string))
  (World : Type) (os_write : Z -> list Byte.byte -> World -> option string * World)
  (closed : Z -> World -> bool) (sleep : Z -> World -> World)
  (p : Popen) (f : Spawn.feeder) (w : World) :
  let o := Spawn.spawn_setup_install e use_pty auto_input_seq extra_args in
  Spawn.result o = Some p ->
  Spawn.started o = Some f ->
  Feeder.healthy World os_write closed ->
  exists fd,
    Feeder.active p fd /\
    Feeder.written (Spawn.run_feeder World os_write closed sleep f p w) =
      map (fun item => (fd, Py.encode item)) (Py.or_empty auto_input_seq)
        ++ [(fd, Py.encode Feeder.yesforall)].
Proof.
  intros o Hres Hstart Hh.
  unfold o, Spawn.spawn_setup_install in Hres, Hstart.
  destruct (spawned_process_has_feeder e use_pty auto_input_seq _ [] [] p Hres)
    as [Hs [fd Hact]].
  rewrite Hs in Hstart. injection Hstart as Hf. subst f.
  exists fd. split; [exact Hact|].
  unfold Spawn.run_feeder, Spawn.choose_feeder.
  destruct auto_input_seq as [[|item rest]|]; cbn [Py.or_empty map app].
  - apply (feed_yesforall_healthy World os_write closed sleep p w fd Hh Hact).
  - apply (feed_healthy World os_write closed sleep p (item :: rest) w fd Hh Hact).
  - apply (feed_yesforall_healthy World os_write closed sleep p w fd Hh Hact).
Qed.

(* ================================================================== *)
(** ** More on the external terminal launcher *)
(* ================================================================== *)

Section MoreLauncherFacts.

Variable e : Launch.env.
Variable repo_path : string.

(** A [Popen] call that raised. *)
Local Abbreviation failed :=
  (fun c : list string * option string => Launch.popen e (fst c) (snd c) <> None).

Lemma try_terminals_calls (cmd : list string) (ts : list (string * list string)) :
  forall done,
    Forall failed done ->
    exists pre last,
      Launch.calls (Launch.try_terminals e repo_path cmd ts done) = pre ++ [last] /\
      Forall failed pre /\
      Launch.raised (Launch.try_terminals e repo_path cmd ts done)
        = Launch.popen e (fst last) (snd last).
Proof.
  induction ts as [|[name base] rest IH]; intros done Hdone;
    cbn [Launch.try_terminals].
  - exists done, (cmd, Some repo_path). cbn. auto.
  - destruct (Py.truthy_opt (Launch.shutil_which e name)); [|apply IH, Hdone].
    destruct (Launch.popen e (Launch.full_for repo_path cmd base) None) as [ex|] eqn:Hp.
    + apply IH. apply Forall_app. split; [exact Hdone|].
      constructor; [|constructor]. cbn. rewrite Hp. discriminate.
    + exists done, (Launch.full_for repo_path cmd base, None). cbn. auto.
Qed.

(** At most one child is started: of the [Popen] calls a launch makes,
    every one but the last raised, and the launch ends the way the last
    one did.  So a terminal that started is never followed by another
    terminal or by the direct start. *)
Theorem launch_starts_at_most_one_child (extra_args : option (list string)) :
  let o := Launch.launch_install_external e repo_path extra_args in
  exists pre last,
    Launch.calls o = pre ++ [last] /\
    Forall failed pre /\
    Launch.raised o = Launch.popen e (fst last) (snd last).
Proof.
  intros o. unfold o, Launch.launch_install_external.
  apply try_terminals_calls. constructor.
Qed.

(** Every terminal emulator of the list is handed the same thing to run:
    its own options, then [sh -c] with one command line that changes
    into the quoted repository path and runs the quoted installer
    command. *)
Theorem terminals_get_the_same_command_line
  (extra_args : option (list string)) (name : string) (base : list string) :
  let cmd := "./setup" :: "install" :: Py.or_empty extra_args in
  In (name, base) Launch.terminals ->
  exists options,
    Launch.full_for repo_path cmd base =
      name :: options
        ++ ["sh"; "-c";
            ("cd " ++ Launch.quote repo_path ++ " && " ++ Launch.join cmd)%string].
Proof.
  intros cmd Hin. unfold Launch.terminals in Hin. cbn [In] in Hin.
  destruct Hin as [H | [H | [H | [H | [H | [H | []]]]]]];
    injection H as Hn Hb; subst name base.
  - exists ["-e"]. reflexivity.
  - exists ["-e"]. reflexivity.
  - exists ["--"]. reflexivity.
  - exists ["-e"]. reflexivity.
  - exists ["-e"]. reflexivity.
  - exists []. reflexivity.
Qed.

End MoreLauncherFacts.

(* ================================================================== *)
(** ** Dictionaries *)
(* ================================================================== *)

Section DictFacts.

Variable V : Type.
Implicit Types (d : Dict.dict V) (k : string) (v : V).

Lemma get_set_same k v d : Dict.get k (Dict.set k v d) = Some v.
Proof.
  induction d as [|[k' v'] r IH]; cbn.
  - rewrite String.eqb_refl. reflexivity.
  - destruct (String.eqb k k') eqn:E; cbn; [rewrite String.eqb_refl | rewrite E]; auto.
Qed.

Lemma get_set_other k k' v d :
  k <> k' -> Dict.get k (Dict.set k' v d) = Dict.get k d.
Proof.
  intros Hne. apply String.eqb_neq in Hne.
  induction d as [|[k0 v0] r IH]; cbn.
  - rewrite Hne. reflexivity.
  - destruct (String.eqb k' k0) eqn:E; cbn.
    + apply String.eqb_eq in E. subst k0. rewrite Hne. reflexivity.
    + destruct (String.eqb k k0); [reflexivity | exact IH].
Qed.

Lemma get_pop_same k d : Dict.get k (Dict.pop k d) = None.
Proof.
  induction d as [|[k' v'] r IH]; cbn; [reflexivity|].
  destruct (String.eqb k k') eqn:E; cbn; [exact IH | rewrite E; exact IH].
Qed.

Lemma get_pop_other k k' d :
  k <> k' -> Dict.get k (Dict.pop k' d) = Dict.get k d.
Proof.
  intros Hne. apply String.eqb_neq in Hne.
  induction d as [|[k0 v0] r IH]; cbn; [reflexivity|].
  destruct (String.eqb k' k0) eqn:E; cbn.
  - apply String.eqb_eq in E. subst k0. rewrite Hne. exact IH.
  - destruct (String.eqb k k0); [reflexivity | exact IH].
Qed.

Lemma set_same k v d : Dict.get k d = Some v -> Dict.set k v d = d.
Proof.
  induction d as [|[k' v'] r IH]; cbn; [discriminate|].
  destruct (String.eqb k k') eqn:E.
  - apply String.eqb_eq in E. subst k'. intros H. injection H as H. subst v'.
    reflexivity.
  - intros H. rewrite (IH H). reflexivity.
Qed.

Lemma pop_absent k d : Dict.get k d = None -> Dict.pop k d = d.
Proof.
  induction d as [|[k' v'] r IH]; cbn; [reflexivity|].
  destruct (String.eqb k k'); [discriminate|].
  intros H. rewrite (IH H). reflexivity.
Qed.

Lemma keys_set_present k v d :
  Dict.contains k d = true -> Dict.keys (Dict.set k v d) = Dict.keys d.
Proof.
  unfold Dict.contains, Dict.keys.
  induction d as [|[k' v'] r IH]; cbn; [discriminate|].
  destruct (String.eqb k k') eqn:E; cbn.
  - apply String.eqb_eq in E. subst k'. reflexivity.
  - intros H. rewrite (IH H). reflexivity.
Qed.

Lemma contains_set k k' v d :
  Dict.contains k d = true -> Dict.contains k (Dict.set k' v d) = true.
Proof.
  unfold Dict.contains. intros H.
  destruct (string_dec k k') as [E|E].
  - subst k'. rewrite get_set_same. reflexivity.
  - rewrite (get_set_other k k' v d E). exact H.
Qed.

End DictFacts.

(* ================================================================== *)
(** ** The environment of the child processes *)
(* ================================================================== *)

Section ColorEnvFacts.

Variable environ : Dict.dict string.
Variable base : option (Dict.dict string).

Local Abbreviation forced := (ColorEnv.build_color_env environ base true).
Local Abbreviation copied := (ColorEnv.chosen environ base).

Ltac other_key := intros E; discriminate E.

(** The terminal type the forced environment gets. *)
Lemma forced_unfold :
  forced =
  Dict.pop "NO_COLOR"
    (Dict.set "TERM"
       (Py.str_or (Dict.get_default "TERM" "xterm-256color" copied) "xterm-256color")
       (Dict.set "CLICOLOR_FORCE" "1"
          (Dict.set "CLICOLOR" "1" (Dict.set "FORCE_COLOR" "1" copied)))).
Proof.
  unfold ColorEnv.build_color_env, ColorEnv.chosen.
  destruct base as [[|item rest]|]; reflexivity.
Qed.

Lemma forced_values :
  Dict.get "FORCE_COLOR" forced = Some "1" /\
  Dict.get "CLICOLOR" forced = Some "1" /\
  Dict.get "CLICOLOR_FORCE" forced = Some "1" /\
  Dict.get "NO_COLOR" forced = None /\
  exists term,
    Dict.get "TERM" forced = Some term /\
    Py.truthy term = true /\
    term = match Dict.get "TERM" copied with
           | Some t => if Py.truthy t then t else "xterm-256color"
           | None => "xterm-256color"
           end.
Proof.
  rewrite forced_unfold.
  split; [|split; [|split; [|split]]].
  - rewrite get_pop_other, !get_set_other, get_set_same by other_key. reflexivity.
  - rewrite get_pop_other, !get_set_other, get_set_same by other_key. reflexivity.
  - rewrite get_pop_other, get_set_other, get_set_same by other_key. reflexivity.
  - apply get_pop_same.
  - eexists. split; [|split].
    + rewrite get_pop_other, get_set_same by other_key. reflexivity.
    + unfold Py.str_or, Dict.get_default.
      destruct (Dict.get "TERM" copied) as [t|]; [|reflexivity].
      destruct (Py.truthy t) eqn:Et; [exact Et | reflexivity].
    + unfold Py.str_or, Dict.get_default.
      destruct (Dict.get "TERM" copied) as [t|]; reflexivity.
Qed.

(** With [force_color] the three colour switches are set to [1],
    [NO_COLOR] is gone, and [TERM] is never empty: it is the one of the
    copied mapping when that one is set and not empty, and
    [xterm-256color] otherwise. *)
Theorem build_color_env_forces_colors :
  Dict.get "FORCE_COLOR" forced = Some "1" /\
  Dict.get "CLICOLOR" forced = Some "1" /\
  Dict.get "CLICOLOR_FORCE" forced = Some "1" /\
  Dict.get "NO_COLOR" forced = None /\
  exists term,
    Dict.get "TERM" forced = Some term /\
    Py.truthy term = true /\
    term = match Dict.get "TERM" copied with
           | Some t => if Py.truthy t then t else "xterm-256color"
           | None => "xterm-256color"
           end.
Proof. exact forced_values. Qed.

(** With [force_color] every variable other than the five colour
    variables keeps the value, or the absence, it has in the copied
    mapping. *)
Theorem build_color_env_keeps_other_variables (k : string) :
  ~ In k ColorEnv.color_keys ->
  Dict.get k forced = Dict.get k copied.
Proof.
  intros Hk. rewrite forced_unfold.
  unfold ColorEnv.color_keys in Hk. cbn [In] in Hk.
  rewrite get_pop_other, !get_set_other; [reflexivity | | | | |];
    intros E; apply Hk; subst k; tauto.
Qed.

(** Forcing colours twice is forcing them once: the result, taken as the
    base of a second call, comes back unchanged. *)
Theorem build_color_env_idempotent :
  ColorEnv.build_color_env environ (Some forced) true = forced.
Proof.
  destruct forced_values as [H1 [H2 [H3 [H4 [term [H5 [H6 _]]]]]]].
  set (r := forced) in *.
  assert (Hunfold :
    ColorEnv.build_color_env environ (Some r) true =
    Dict.pop "NO_COLOR"
      (Dict.set "TERM"
         (Py.str_or (Dict.get_default "TERM" "xterm-256color" r) "xterm-256color")
         (Dict.set "CLICOLOR_FORCE" "1"
            (Dict.set "CLICOLOR" "1" (Dict.set "FORCE_COLOR" "1" r))))).
  { unfold ColorEnv.build_color_env. destruct r; [discriminate H1 | reflexivity]. }
  rewrite Hunfold.
  assert (Hterm :
    Py.str_or (Dict.get_default "TERM" "xterm-256color" r) "xterm-256color" = term).
  { unfold Dict.get_default, Py.str_or. rewrite H5, H6. reflexivity. }
  rewrite Hterm, (set_same _ _ _ _ H1), (set_same _ _ _ _ H2),
    (set_same _ _ _ _ H3), (set_same _ _ _ _ H5).
  apply pop_absent, H4.
Qed.

End ColorEnvFacts.

(* ================================================================== *)
(** ** The settings *)
(* ================================================================== *)

Section SettingsFacts.

(** The refresh period is always positive, and it is exactly this: the
    stored number when [int()] accepts the stored value and the number is
    above 0, and 60 in every other case (no such key, a value [int()]
    rejects, zero, a negative number). *)
Theorem auto_refresh_seconds_is_positive (settings : Dict.dict Settings.value) :
  let r := Settings.get_auto_refresh_seconds settings in
  let stored := Dict.get "auto_refresh_seconds" settings in
  0 < r /\
  (forall v n, stored = Some v -> Settings.int v = Some n -> 0 < n -> r = n) /\
  (forall v n, stored = Some v -> Settings.int v = Some n -> n <= 0 -> r = 60) /\
  (forall v, stored = Some v -> Settings.int v = None -> r = 60) /\
  (stored = None -> r = 60).
Proof.
  intros r stored.
  unfold r, stored, Settings.get_auto_refresh_seconds, Dict.get_default.
  destruct (Dict.get "auto_refresh_seconds" settings) as [v|] eqn:Eg.
  - destruct (Settings.int v) as [n|] eqn:Ei.
    + destruct (Z.ltb_spec 0 n) as [Hn|Hn].
      * split; [exact Hn|]. split; [|split; [|split]].
        -- intros v' n' Hv Hi _. injection Hv as <-. rewrite Ei in Hi.
           injection Hi as <-. reflexivity.
        -- intros v' n' Hv Hi Hle. injection Hv as <-. rewrite Ei in Hi.
           injection Hi as <-. lia.
        -- intros v' Hv Hi. injection Hv as <-. rewrite Ei in Hi. discriminate Hi.
        -- discriminate.
      * split; [lia|]. split; [|split; [|split]].
        -- intros v' n' Hv Hi Hpos. injection Hv as <-. rewrite Ei in Hi.
           injection Hi as <-. lia.
        -- reflexivity.
        -- reflexivity.
        -- discriminate.
    + split; [lia|]. split; [|split; [|split]].
      * intros v' n' Hv Hi _. injection Hv as <-. rewrite Ei in Hi. discriminate Hi.
      * reflexivity.
      * reflexivity.
      * discriminate.
  - cbn. split; [lia|]. split; [|split; [|split]]; try discriminate. reflexivity.
Qed.

Lemma keys_update_known (items : list (string * Settings.value)) :
  forall d : Dict.dict Settings.value,
    Forall (fun kv => Dict.contains (fst kv) d = true) items ->
    Dict.keys (Dict.update items d) = Dict.keys d.
Proof.
  induction items as [|[k v] r IH]; intros d Hall; [reflexivity|].
  inversion Hall as [|kv r' Hk Hr]; subst. cbn [Dict.update fst] in *.
  rewrite IH.
  - apply keys_set_present, Hk.
  - eapply Forall_impl; [|exact Hr]. intros kv H. apply contains_set, H.
Qed.

Lemma contains_keys (k : string) (d d' : Dict.dict Settings.value) :
  Dict.keys d = Dict.keys d' -> Dict.contains k d = Dict.contains k d'.
Proof.
  unfold Dict.keys, Dict.contains. revert d'.
  induction d as [|[k1 v1] r IH]; intros [|[k2 v2] r'] H; cbn in H |- *;
    try discriminate; [reflexivity|].
  injection H as Hk Hr. subst k2.
  destruct (String.eqb k k1); [reflexivity | apply IH, Hr].
Qed.

Lemma known_items_known (items : Dict.dict Settings.value) :
  Forall (fun kv => Dict.contains (fst kv) Settings.DEFAULT_SETTINGS = true)
    (Settings.known_items items).
Proof.
  unfold Settings.known_items. apply Forall_forall. intros kv Hin.
  apply filter_In in Hin. tauto.
Qed.

(** Setting the items of a dictionary with distinct keys, one after the
    other, gives each of its keys its value and leaves the others. *)
Lemma get_update (items : list (string * Settings.value)) :
  forall (d : Dict.dict Settings.value) (k : string),
    NoDup (map fst items) ->
    Dict.get k (Dict.update items d) =
      match Dict.get k items with
      | Some v => Some v
      | None => Dict.get k d
      end.
Proof.
  induction items as [|[k0 v0] r IH]; intros d k Hnd; [reflexivity|].
  cbn [map fst] in Hnd. inversion Hnd as [|x l Hnotin Hnd']; subst.
  cbn [Dict.update Dict.get]. rewrite (IH _ _ Hnd').
  destruct (String.eqb k k0) eqn:E.
  - apply String.eqb_eq in E. subst k0.
    assert (Hnone : Dict.get k r = None).
    { clear -Hnotin. induction r as [|[k1 v1] r IH]; [reflexivity|].
      cbn in Hnotin |- *. destruct (String.eqb k k1) eqn:E.
      - apply String.eqb_eq in E. subst k1. exfalso. apply Hnotin. left. reflexivity.
      - apply IH. intros H. apply Hnotin. right. exact H. }
    rewrite Hnone. apply get_set_same.
  - apply String.eqb_neq in E.
    destruct (Dict.get k r); [reflexivity|]. apply get_set_other, E.
Qed.

Lemma get_filter_known (items : Dict.dict Settings.value) (k : string) :
  Dict.contains k Settings.DEFAULT_SETTINGS = true ->
  Dict.get k (Settings.known_items items) = Dict.get k items.
Proof.
  intros Hk. unfold Settings.known_items.
  induction items as [|[k0 v0] r IH]; [reflexivity|]. cbn [filter fst Dict.get].
  destruct (String.eqb k k0) eqn:E.
  - apply String.eqb_eq in E. subst k0. rewrite Hk. cbn. rewrite String.eqb_refl.
    reflexivity.
  - destruct (Dict.contains k0 Settings.DEFAULT_SETTINGS); [cbn; rewrite E|]; exact IH.
Qed.

Lemma NoDup_known_items (items : Dict.dict Settings.value) :
  NoDup (map fst items) -> NoDup (map fst (Settings.known_items items)).
Proof.
  unfold Settings.known_items.
  induction items as [|[k0 v0] r IH]; cbn [map filter fst]; intros H; [constructor|].
  inversion H as [|x l Hnotin Hnd]; subst.
  destruct (Dict.contains k0 Settings.DEFAULT_SETTINGS); [|apply IH, Hnd].
  cbn [map fst]. constructor; [|apply IH, Hnd].
  intros Hin. apply Hnotin. apply in_map_iff in Hin.
  destruct Hin as [[k1 v1] [Hk Hin]]. apply filter_In in Hin.
  apply in_map_iff. exists (k1, v1). tauto.
Qed.

Lemma load_settings_keys (f : Settings.settings_file) :
  Dict.keys (Settings.load_settings f) = Dict.keys Settings.DEFAULT_SETTINGS.
Proof.
  destruct f as [| |[items|]]; try reflexivity.
  unfold Settings.load_settings. apply keys_update_known, known_items_known.
Qed.

Lemma load_settings_value (items : Dict.dict Settings.value) (k : string) :
  NoDup (Dict.keys items) ->
  Dict.contains k Settings.DEFAULT_SETTINGS = true ->
  Dict.get k (Settings.load_settings (Settings.Parsed (Settings.JMapping items))) =
    match Dict.get k items with
    | Some v => Some v
    | None => Dict.get k Settings.DEFAULT_SETTINGS
    end.
Proof.
  intros Hnd Hk. unfold Settings.load_settings.
  rewrite (get_update _ _ _ (NoDup_known_items items Hnd)), (get_filter_known items k Hk).
  reflexivity.
Qed.

(** Whatever the settings file holds, the loaded settings have exactly
    the keys of the defaults, in their order: unknown keys of the file
    are dropped and missing ones filled in.  When the file parses to a
    mapping, a known key has the value of the file if the file has the
    key and its default otherwise, and a key that is not a known setting
    is absent. *)
Theorem load_settings_has_the_default_keys
  (f : Settings.settings_file) (items : Dict.dict Settings.value) (k : string) :
  Dict.keys (Settings.load_settings f) = Dict.keys Settings.DEFAULT_SETTINGS /\
  (f = Settings.Parsed (Settings.JMapping items) ->
   NoDup (Dict.keys items) ->
   Dict.get k (Settings.load_settings f) =
     if Dict.contains k Settings.DEFAULT_SETTINGS then
       match Dict.get k items with
       | Some v => Some v
       | None => Dict.get k Settings.DEFAULT_SETTINGS
       end
     else None).
Proof.
  split; [apply load_settings_keys|].
  intros Hf Hnd. subst f.
  destruct (Dict.contains k Settings.DEFAULT_SETTINGS) eqn:Hk.
  - apply load_settings_value; assumption.
  - pose proof (contains_keys k _ _
                  (load_settings_keys (Settings.Parsed (Settings.JMapping items)))) as Hc.
    rewrite Hk in Hc. unfold Dict.contains in Hc.
    destruct (Dict.get k _); [discriminate | reflexivity].
Qed.

(** Saving and loading: when the file parses to the mapping
    [save_settings] writes for [data], every known setting comes back
    with [data.get(k)], which is [None], not the default, for a key
    that [data] lacks; keys of [data] that are no settings do not come
    back. *)
Theorem saved_settings_load_back (data : Dict.dict Settings.value) (k : string) :
  let loaded :=
    Settings.load_settings
      (Settings.Parsed (Settings.JMapping (Settings.serializable data))) in
  Dict.keys loaded = Dict.keys Settings.DEFAULT_SETTINGS /\
  Dict.get k loaded =
    if Dict.contains k Settings.DEFAULT_SETTINGS
    then Some (Dict.get_default k Settings.VNone data)
    else None.
Proof.
  intros loaded. split; [apply load_settings_keys|].
  assert (Hnd : NoDup (Dict.keys (Settings.serializable data))).
  { unfold Settings.serializable, Dict.keys. rewrite map_map. cbn [fst].
    cbn. repeat constructor; cbn; intuition discriminate. }
  destruct (Dict.contains k Settings.DEFAULT_SETTINGS) eqn:Hk.
  - unfold loaded. rewrite (load_settings_value _ k Hnd Hk).
    assert (Hget : Dict.get k (Settings.serializable data)
                   = Some (Dict.get_default k Settings.VNone data)).
    { unfold Settings.serializable. unfold Dict.contains in Hk.
      cbn [Dict.keys Settings.DEFAULT_SETTINGS map fst Dict.get] in Hk |- *.
      repeat match goal with
             | |- context [String.eqb k ?s] =>
                 destruct (String.eqb_spec k s) as [->|_]; [reflexivity|]
             end.
      repeat match type of Hk with
             | context [String.eqb k ?s] =>
                 destruct (String.eqb_spec k s) as [->|_]
             end; discriminate Hk. }
    rewrite Hget. reflexivity.
  - pose proof (contains_keys k _ _
                  (load_settings_keys
                     (Settings.Parsed (Settings.JMapping (Settings.serializable data)))))
      as Hc.
    rewrite Hk in Hc. unfold Dict.contains in Hc. unfold loaded.
    destruct (Dict.get k _); [discriminate | reflexivity].
Qed.

(** The first repository path: what is returned is the empty string or
    a directory; the configured path, stripped, wins when it is a
    directory, and then nothing is changed or saved; the settings are
    changed only to record the fallback directory, which is then what is
    returned and what is saved, every other setting being kept; and the
    empty string is returned only when the fallback is no directory (or
    is itself empty). *)
Theorem detect_initial_repo_path_result
  (isdir : string -> bool) (fallback : string) (settings : Dict.dict Settings.value) :
  let '(path, settings', saved) :=
    Settings.detect_initial_repo_path isdir fallback settings in
  let p := Settings.configured_path settings in
  (path = EmptyString \/ isdir path = true) /\
  (Py.truthy p = true -> isdir p = true ->
     path = p /\ settings' = settings /\ saved = None) /\
  (path = EmptyString -> isdir fallback = false \/ fallback = EmptyString) /\
  match saved with
  | None => settings' = settings
  | Some m =>
      m = settings' /\ path = fallback /\
      Dict.get "repo_path" settings' = Some (Settings.VStr fallback) /\
      forall k, k <> "repo_path" -> Dict.get k settings' = Dict.get k settings
  end.
Proof.
  unfold Settings.detect_initial_repo_path.
  set (p := Settings.configured_path settings).
  destruct (Py.truthy p) eqn:Tp; cbn [andb].
  - destruct (isdir p) eqn:Dp.
    + repeat split; auto.
      intros Hp. rewrite Hp in Tp. discriminate Tp.
    + destruct (isdir fallback) eqn:Df.
      * repeat split; auto; try discriminate.
        -- apply get_set_same.
        -- intros k Hk. apply get_set_other, Hk.
      * repeat split; auto; discriminate.
  - destruct (isdir fallback) eqn:Df.
    + repeat split; auto; try discriminate.
      * apply get_set_same.
      * intros k Hk. apply get_set_other, Hk.
    + repeat split; auto; discriminate.
Qed.

End SettingsFacts.

(* ================================================================== *)
(** ** Sending input from the console panel *)
(* ================================================================== *)

Section ConsoleFacts.

Variable World : Type.
Variable os_write : Z -> list Byte.byte -> World -> option string * World.
Variable closed : Z -> World -> bool.

Local Abbreviation send_to_process := (Console.send_to_process World os_write closed).
Local Abbreviation _on_entry_activate :=
  (Console._on_entry_activate World os_write closed).

Lemma send_to_process_cases (current_proc : option Popen) (text : string) (w : World) :
  let st := send_to_process current_proc text w in
  (Feeder.written st = [] /\ (length (Feeder.logged st) <= 1)%nat) \/
  (exists p fd,
      current_proc = Some p /\ Feeder.active p fd /\
      Feeder.written st = [(fd, Py.encode text)] /\
      Feeder.logged st = [("[sent] " ++ text)%string]).
Proof.
  cbn zeta. unfold Console.send_to_process.
  destruct current_proc as [p|]; [|left; cbn; auto].
  destruct (Feeder.write_to World os_write closed (_pty_master_fd p) (stdin p)
              (Py.encode text) w) as [[[[ex|] w'] fd]|] eqn:Hw;
    [left; cbn; auto | | left; cbn; auto].
  right. exists p, fd. split; [reflexivity|]. split; [|split; reflexivity].
  unfold Feeder.active, Feeder.on_fd. unfold Feeder.write_to in Hw.
  destruct (_pty_master_fd p) as [m|].
  - destruct (os_write m (Py.encode text) w). injection Hw as _ _ Hfd. subst m.
    left. reflexivity.
  - destruct (stdin p) as [pfd|]; [|discriminate Hw].
    destruct (closed pfd w); [discriminate Hw|].
    destruct (os_write pfd (Py.encode text) w). injection Hw as _ _ Hfd. subst pfd.
    right. split; reflexivity.
Qed.

(** Sending a text writes at most once: either nothing is written (no
    process attached, no transport, or a failed write, reported by at most
    one message), or exactly the encoded text is written to the transport
    of the attached process, the master side of its pseudo-terminal when
    it has one, and the text is reported as sent. *)
Theorem send_to_process_writes_at_most_once
  (current_proc : option Popen) (text : string) (w : World) :
  let st := send_to_process current_proc text w in
  ((Feeder.written st = [] /\ (length (Feeder.logged st) <= 1)%nat) \/
   (exists p fd,
       current_proc = Some p /\ Feeder.active p fd /\
       Feeder.written st = [(fd, Py.encode text)] /\
       Feeder.logged st = [("[sent] " ++ text)%string])) /\
  (current_proc = None -> Feeder.written st = [] /\ Feeder.logged st = []).
Proof.
  intros st. split; [apply send_to_process_cases|].
  intros Hnone. unfold st. rewrite Hnone. split; reflexivity.
Qed.

Lemma ends_with_nl_append (s : string) : Console.ends_with_nl (s ++ nl) = true.
Proof.
  induction s as [|c r IH]; [reflexivity|].
  cbn [append Console.ends_with_nl].
  destruct (r ++ nl)%string eqn:E; [|exact IH].
  destruct r; discriminate E.
Qed.

(** Pressing Enter in the input entry: the entry is emptied; an empty
    entry sends nothing; otherwise whatever is written to the process is
    the text of the entry as one line, a newline being added exactly when
    the text does not end with one. *)
Theorem entry_text_is_sent_as_a_line
  (current_proc : option Popen) (entry_text : string) (w : World) :
  let st := fst (_on_entry_activate current_proc entry_text w) in
  snd (_on_entry_activate current_proc entry_text w) = EmptyString /\
  (entry_text = EmptyString -> Feeder.written st = [] /\ Feeder.logged st = []) /\
  (forall fd data,
      In (fd, data) (Feeder.written st) ->
      exists line,
        data = Py.encode line /\ Console.ends_with_nl line = true /\
        line = if Console.ends_with_nl entry_text then entry_text
               else (entry_text ++ nl)%string).
Proof.
  intros st. split; [reflexivity|]. split.
  - intros He. unfold st. rewrite He. split; reflexivity.
  - intros fd data Hin. unfold st, Console._on_entry_activate in Hin. cbn [fst] in Hin.
    destruct entry_text as [|c r] eqn:Et; [cbn in Hin; contradiction|].
    rewrite <- Et in *. assert (Ht : Py.truthy entry_text = true) by (rewrite Et; reflexivity).
    rewrite Ht in Hin. cbn [andb] in Hin.
    set (line := if Console.ends_with_nl entry_text then entry_text
                 else (entry_text ++ nl)%string).
    assert (Hline : (if negb (Console.ends_with_nl entry_text)
                     then (entry_text ++ nl)%string else entry_text) = line).
    { unfold line. destruct (Console.ends_with_nl entry_text); reflexivity. }
    rewrite Hline in Hin.
    assert (Htl : Py.truthy line = true).
    { unfold line. destruct (Console.ends_with_nl entry_text); [exact Ht|].
      rewrite Et. reflexivity. }
    rewrite Htl in Hin.
    exists line. split; [|split; [|reflexivity]].
    + destruct (send_to_process_cases current_proc line w)
        as [[Hw _] | (p & fd' & _ & _ & Hw & _)];
        cbn zeta in Hw; rewrite Hw in Hin; cbn [In] in Hin.
      * contradiction.
      * destruct Hin as [Hin | []]. injection Hin as _ Hd. symmetry. exact Hd.
    + unfold line. destruct (Console.ends_with_nl entry_text) eqn:En;
        [exact En | apply ends_with_nl_append].
Qed.

End ConsoleFacts.

(* ================================================================== *)
(** ** Concrete runs *)
(* ================================================================== *)

Lemma get_dirty_count_bounds_witness :
  0 <= fst (Git.get_dirty_count SampleRepo.World SampleRepo.subprocess_run
              "/repo" SampleRepo.offline) <= 1.
Proof.
  exact (proj1 (get_dirty_count_bounds SampleRepo.World SampleRepo.subprocess_run
                  "/repo" SampleRepo.offline _ 0 _ _ eq_refl)).
Defined.

Lemma check_repo_status_invariants_witness :
  Git.repo_path (fst (SampleRepo.check "/repo" SampleRepo.plain_dir)) = "/repo" /\
  snd (SampleRepo.check "/repo" SampleRepo.plain_dir) = SampleRepo.plain_dir.
Proof.
  destruct (check_repo_status_invariants SampleRepo.World SampleRepo.isdir
              SampleRepo.subprocess_run "/repo" SampleRepo.plain_dir)
    as [Hp [_ [_ [Hbad _]]]].
  split; [exact Hp | exact (proj1 (Hbad eq_refl))].
Defined.

Lemma fetch_error_iff_fetch_failed_witness :
  Git.fetch_error (fst (SampleRepo.check "/repo" SampleRepo.offline)) = None <-> 1 = 0.
Proof.
  exact (fetch_error_iff_fetch_failed SampleRepo.World SampleRepo.isdir
           SampleRepo.subprocess_run "/repo" SampleRepo.offline _ 1 _ _
           eq_refl eq_refl eq_refl).
Defined.

Lemma printed_counts_are_read_back_witness :
  let st := fst (SampleRepo.check "/repo" SampleRepo.offline) in
  Git.behind st = 2 /\ Git.ahead st = 1 /\ (Git.has_updates st = true <-> 0 < 2).
Proof.
  eapply (printed_counts_are_read_back SampleRepo.World SampleRepo.isdir
            SampleRepo.subprocess_run "/repo" SampleRepo.offline);
    reflexivity.
Defined.

Lemma exit_line_identifies_the_exit_code_witness :
  exists p,
    Stream.Started (Stream.mkProcess [Stream.ReadLine ("a" ++ nl)%string] 3)
      = Stream.Started p /\
    Stream.wait p = 3 /\
    snd (Stream.stream_text
           (Stream.Started (Stream.mkProcess [Stream.ReadLine ("a" ++ nl)%string] 3))) = 3.
Proof.
  exact (exit_line_identifies_the_exit_code string
           (fun s => negb (Py.truthy s)) (fun s => s)
           (Stream.Started (Stream.mkProcess [Stream.ReadLine ("a" ++ nl)%string] 3))
           [("a" ++ nl)%string] 3 eq_refl).
Defined.

Lemma readline_result_meaning_witness :
  PTY.is_full_line ("abc" ++ nl) \/
  (false = true /\ PTY.contains_nl ("abc" ++ nl) = false /\
   ("abc" ++ nl)%string = ("abc" ++ nl ++ "d")%string).
Proof.
  refine (proj2 (readline_result_meaning PTY.after_three_writes ("abc" ++ nl)
                   eq_refl eq_refl) _).
  discriminate.
Defined.

Lemma read_all_reassembles_the_data_witness :
  let lines := fst (PTY.read_all 10 PTY.three_chunks_hung_up) in
  let self' := snd (PTY.read_all 10 PTY.three_chunks_hung_up) in
  (String.concat EmptyString lines ++ PTY._buffer self')%string
    = ("abc" ++ nl ++ "d")%string /\
  PTY.flat (PTY.chunks (PTY._stream self')) = EmptyString /\
  PTY.contains_nl (PTY._buffer self') = false /\
  Forall PTY.is_full_line lines /\
  fst (PTY.readline self') = PTY.Raises PTY.EIO_message.
Proof.
  apply (read_all_reassembles_the_data 10 PTY.three_chunks_hung_up eq_refl).
  cbn. lia.
Defined.

Lemma sample_transport_healthy :
  Feeder.healthy SampleTransport.World SampleTransport.os_write
    SampleTransport.never_closed.
Proof. split; intros; reflexivity. Defined.

Lemma feed_writes_items_then_sentinel_witness :
  Feeder.written
    (Feeder._feed SampleTransport.World SampleTransport.os_write
       SampleTransport.never_closed SampleTransport.sleep
       SampleTransport.on_pipe ["1"; "n"; "y"] 0)
  = [(5, Py.encode "1"); (5, Py.encode "n"); (5, Py.encode "y");
     (5, Py.encode Feeder.yesforall)].
Proof.
  apply (feed_writes_items_then_sentinel SampleTransport.World SampleTransport.os_write
           SampleTransport.never_closed SampleTransport.sleep
           SampleTransport.on_pipe ["1"; "n"; "y"] 0 5 sample_transport_healthy).
  right. split; reflexivity.
Defined.

Lemma feed_yesforall_baseline_witness :
  Feeder.written
    (Feeder._feed_yesforall SampleTransport.World SampleTransport.os_write
       SampleTransport.never_closed SampleTransport.sleep SampleTransport.on_pty 0)
  = [(7, Py.encode Feeder.yesforall)].
Proof.
  apply (proj1 (feed_yesforall_baseline SampleTransport.World SampleTransport.os_write
                  SampleTransport.never_closed SampleTransport.sleep
                  SampleTransport.on_pty 0) 7 sample_transport_healthy).
  left. reflexivity.
Defined.

Lemma feeder_writes_only_its_sequence_witness :
  exists k tail,
    Feeder.written
      (Feeder._feed SampleTransport.World SampleTransport.os_write
         SampleTransport.closed_at_300 SampleTransport.sleep
         SampleTransport.on_pipe ["yes"; "2"] 0)
    = map (fun item => (5, Py.encode item)) (firstn k ["yes"; "2"]) ++ tail /\
    (tail = [] \/ tail = [(5, Py.encode Feeder.yesforall)]).
Proof.
  apply (proj1 (feeder_writes_only_its_sequence SampleTransport.World
                  SampleTransport.os_write SampleTransport.closed_at_300
                  SampleTransport.sleep SampleTransport.on_pipe ["yes"; "2"] 0) 5).
  right. split; reflexivity.
Defined.

Lemma failed_item_does_not_stop_the_sentinel_witness :
  Feeder.written
    (Feeder._feed SampleTransport.World SampleTransport.flaky_write
       SampleTransport.never_closed SampleTransport.sleep
       SampleTransport.on_pty ["yes"; "2"] 0)
  = [(7, Py.encode Feeder.yesforall)] /\
  Feeder.logged
    (Feeder._feed SampleTransport.World SampleTransport.flaky_write
       SampleTransport.never_closed SampleTransport.sleep
       SampleTransport.on_pty ["yes"; "2"] 0)
  = [Feeder.error_message "[Errno 5] Input/output error";
     Feeder.sent_message Feeder.yesforall].
Proof.
  exact (failed_item_does_not_stop_the_sentinel SampleTransport.World
           SampleTransport.flaky_write SampleTransport.never_closed
           SampleTransport.sleep SampleTransport.on_pty 7 "yes" ["2"] 0 250 250
           "[Errno 5] Input/output error" eq_refl eq_refl eq_refl).
Defined.

Lemma closed_pipe_stops_every_sequence_witness :
  exists k,
    (k < 2)%nat /\
    Feeder.written
      (Feeder._feed SampleTransport.World SampleTransport.os_write
         SampleTransport.closed_at_300 SampleTransport.sleep
         SampleTransport.on_pipe ["yes"; "2"] 0)
    = map (fun item => (5, Py.encode item)) (firstn k ["yes"; "2"]).
Proof.
  apply (closed_pipe_stops_every_sequence SampleTransport.World SampleTransport.os_write
           SampleTransport.closed_at_300 SampleTransport.sleep
           SampleTransport.on_pipe 5 ["yes"; "2"] 0 eq_refl eq_refl).
  right. left. reflexivity.
Defined.

Lemma pty_failure_degrades_to_pipes_witness :
  let o := Spawn.spawn_setup_install SampleSpawn.no_pty true None (Some ["install"]) in
  Spawn.result o =
    Some {| args := ["./setup"; "install"]; _pty_master_fd := None; stdin := Some 5 |} /\
  Spawn.attempts o = [["./setup"; "install"]] /\
  Spawn.logged o =
    [ ("[pty-warn] failed to open pty: out of pty devices; fallback no-pty" ++ nl)%string;
      ("[spawn] ./setup install" ++ nl)%string ].
Proof.
  exact (pty_failure_degrades_to_pipes SampleSpawn.no_pty None (Some ["install"])
           "out of pty devices" 5 eq_refl eq_refl).
Defined.

Lemma spawned_installer_input_witness :
  exists fd,
    Feeder.active
      {| args := ["fish"; "./setup"; "install"]; _pty_master_fd := Some 3; stdin := None |}
      fd /\
    Feeder.written
      (Spawn.run_feeder SampleTransport.World SampleTransport.os_write
         SampleTransport.never_closed SampleTransport.sleep
         (Spawn.Feed ["yes"; "2"])
         {| args := ["fish"; "./setup"; "install"]; _pty_master_fd := Some 3;
            stdin := None |} 0)
    = map (fun item => (fd, Py.encode item)) ["yes"; "2"]
        ++ [(fd, Py.encode Feeder.yesforall)].
Proof.
  exact (spawned_installer_input SampleSpawn.setup_without_shebang true
           (Some ["yes"; "2"]) (Some ["install"])
           SampleTransport.World SampleTransport.os_write
           SampleTransport.never_closed SampleTransport.sleep
           {| args := ["fish"; "./setup"; "install"]; _pty_master_fd := Some 3;
              stdin := None |}
           (Spawn.Feed ["yes"; "2"]) 0 eq_refl eq_refl sample_transport_healthy).
Defined.

Lemma terminals_get_the_same_command_line_witness :
  exists options,
    Launch.full_for "/home/me/my dots" ["./setup"; "install"; "--fast"]
      ["foot"; "sh"; "-c"] =
    "foot" :: options
      ++ ["sh"; "-c"; "cd '/home/me/my dots' && ./setup install --fast"].
Proof.
  apply (terminals_get_the_same_command_line "/home/me/my dots" (Some ["--fast"])
           "foot" ["foot"; "sh"; "-c"]).
  cbn. tauto.
Defined.

Lemma build_color_env_keeps_other_variables_witness :
  Dict.get "HOME" (ColorEnv.build_color_env ColorEnv.sample_environ None true)
  = Some "/home/me".
Proof.
  apply (build_color_env_keeps_other_variables ColorEnv.sample_environ None "HOME").
  cbn. intros H. repeat (destruct H as [H | H]; [discriminate H|]). exact H.
Defined.

Lemma auto_refresh_seconds_is_positive_witness :
  Settings.get_auto_refresh_seconds
    [("auto_refresh_seconds", Settings.VStr " 1_5 ")] = 15 /\
  Settings.get_auto_refresh_seconds
    [("auto_refresh_seconds", Settings.VStr (String "028"%char "5"))] = 60 /\
  Settings.get_auto_refresh_seconds
    [("auto_refresh_seconds", Settings.VInt (-3))] = 60 /\
  Settings.get_auto_refresh_seconds [("repo_path", Settings.VStr "/repo")] = 60.
Proof.
  split; [|split; [|split]].
  - exact (proj1 (proj2 (auto_refresh_seconds_is_positive
                           [("auto_refresh_seconds", Settings.VStr " 1_5 ")]))
             (Settings.VStr " 1_5 ") 15 eq_refl eq_refl eq_refl).
  - exact (proj1 (proj2 (proj2 (proj2 (auto_refresh_seconds_is_positive
             [("auto_refresh_seconds", Settings.VStr (String "028"%char "5"))]))))
             (Settings.VStr (String "028"%char "5")) eq_refl eq_refl).
  - exact (proj1 (proj2 (proj2 (auto_refresh_seconds_is_positive
                                  [("auto_refresh_seconds", Settings.VInt (-3))])))
             (Settings.VInt (-3)) (-3) eq_refl eq_refl ltac:(lia)).
  - exact (proj2 (proj2 (proj2 (proj2 (auto_refresh_seconds_is_positive
                                         [("repo_path", Settings.VStr "/repo")]))))
             eq_refl).
Defined.

Lemma load_settings_has_the_default_keys_witness :
  Dict.get "use_pty"
    (Settings.load_settings
       (Settings.Parsed (Settings.JMapping Settings.sample_file_items)))
  = Some (Settings.VBool false) /\
  Dict.get "window_width"
    (Settings.load_settings
       (Settings.Parsed (Settings.JMapping Settings.sample_file_items)))
  = None.
Proof.
  assert (Hnd : NoDup (Dict.keys Settings.sample_file_items)).
  { cbn. repeat constructor; cbn; intros H;
      repeat (destruct H as [H | H]; [discriminate H|]); exact H. }
  split.
  - exact (proj2 (load_settings_has_the_default_keys _ Settings.sample_file_items
                    "use_pty") eq_refl Hnd).
  - exact (proj2 (load_settings_has_the_default_keys _ Settings.sample_file_items
                    "window_width") eq_refl Hnd).
Defined.

Lemma send_to_process_writes_at_most_once_witness :
  Feeder.written
    (Console.send_to_process SampleTransport.World SampleTransport.os_write
       SampleTransport.never_closed None ("y" ++ nl) 0) = [] /\
  Feeder.logged
    (Console.send_to_process SampleTransport.World SampleTransport.os_write
       SampleTransport.never_closed None ("y" ++ nl) 0) = [].
Proof.
  exact (proj2 (send_to_process_writes_at_most_once SampleTransport.World
                  SampleTransport.os_write SampleTransport.never_closed
                  None ("y" ++ nl) 0) eq_refl).
Defined.

Lemma entry_text_is_sent_as_a_line_witness :
  exists line,
    Py.encode ("y" ++ nl) = Py.encode line /\ Console.ends_with_nl line = true /\
    line = ("y" ++ nl)%string.
Proof.
  apply (proj2 (proj2 (entry_text_is_sent_as_a_line SampleTransport.World
                         SampleTransport.os_write SampleTransport.never_closed
                         (Some SampleTransport.on_pty) "y" 0)) 7 (Py.encode ("y" ++ nl))).
  left. reflexivity.
Defined.

Lemma upstream_falls_back_to_origin_branch_witness :
  let st := fst (SampleRepo.check "/repo" SampleRepo.no_tracking) in
  Git.upstream st = Some "origin/main" /\ Git.behind st = 3 /\ Git.ahead st = 0.
Proof.
  intros st.
  edestruct (upstream_falls_back_to_origin_branch SampleRepo.World SampleRepo.isdir
               SampleRepo.subprocess_run "/repo" SampleRepo.no_tracking)
    as [_ [Hfall _]].
  - reflexivity.
  - reflexivity.
  - reflexivity.
  - reflexivity.
  - reflexivity.
  - discriminate.
  - edestruct (Hfall "main") as [Hu [Hb Ha]].
    + reflexivity.
    + reflexivity.
    + reflexivity.
    + reflexivity.
    + split; [exact Hu | split; [exact Hb | exact Ha]].
Defined.

Lemma detect_initial_repo_path_result_witness :
  Dict.get "repo_path"
    (snd (fst (Settings.detect_initial_repo_path Settings.only_fallback
                 "/home/me/.cache/dots-hyprland" Settings.DEFAULT_SETTINGS)))
  = Some (Settings.VStr "/home/me/.cache/dots-hyprland").
Proof.
  pose proof (detect_initial_repo_path_result Settings.only_fallback
                "/home/me/.cache/dots-hyprland" Settings.DEFAULT_SETTINGS) as H.
  cbv beta iota zeta delta
    [Settings.detect_initial_repo_path Settings.configured_path Settings.only_fallback
     Settings.DEFAULT_SETTINGS Dict.get_default Dict.get Settings.truthy Settings.str
     Py.truthy Py.strip Py.lstrip Py.rstrip andb String.eqb Ascii.eqb Bool.eqb] in H.
  destruct H as [_ [_ [_ [_ [_ [H _]]]]]].
  exact H.
Defined.
